(** * ACES governance server: a shallow embedding of [server.py]

    The development follows the layout of
    [tools/governance-mcp/src/aces_governance_mcp/server.py]:

    - [Py]: the Python built-ins the server calls ([str] methods, [re.match]
      on the three patterns in use, [sorted], [int], [format]);
    - [Pathlib]: pure paths and the file-system interface the server reads
      through, with an in-memory instance for concrete runs;
    - [Server]: the helpers and tools of the server, one definition each;
    - the properties proved about them. *)

From Stdlib Require Import Ascii String DecimalString.
From Stdlib Require Import List NArith ZArith Bool Lia Sorted.
Import ListNotations.

Set Implicit Arguments.

(* ================================================================== *)
(** * Python values *)
(* ================================================================== *)

(** A Python [str] is a sequence of Unicode code points. *)
Definition char := N.
Definition str := list char.

(** ASCII literals. *)
Definition lit (s : string) : str := map N_of_ascii (list_ascii_of_string s).
Arguments lit s%_string.

Definition nl : str := [10%N].

(** Exceptions the modelled calls can raise. *)
Inductive exn : Type :=
| FileNotFoundError
| IsADirectoryError
| UnicodeDecodeError
| PermissionError
| NotImplementedError
| ValueError
| KeyError.

Inductive result (A : Type) : Type :=
| Ok (a : A)
| Raise (e : exn).
Arguments Ok {A} a.
Arguments Raise {A} e.

Definition bind {A B : Type} (m : result A) (k : A -> result B) : result B :=
  match m with
  | Ok a => k a
  | Raise e => Raise e
  end.

Declare Scope py_scope.
Delimit Scope py_scope with py.
Notation "x <- m ;; k" := (bind m (fun x => k))
  (at level 61, m at next level, right associativity) : py_scope.
Open Scope py_scope.

Module Py.

Open Scope N_scope.

(** ** Equality and order on [str] *)

Fixpoint str_eqb (a b : str) : bool :=
  match a, b with
  | [], [] => true
  | x :: a', y :: b' => (x =? y) && str_eqb a' b'
  | _, _ => false
  end.

(** [a <= b] on [str]: lexicographic on code points. *)
Fixpoint str_leb (a b : str) : bool :=
  match a, b with
  | [], _ => true
  | _ :: _, [] => false
  | x :: a', y :: b' => (x <? y) || ((x =? y) && str_leb a' b')
  end.

(** Truth value of a [str] or a list: non-empty. *)
Definition truthy {A : Type} (l : list A) : bool :=
  match l with [] => false | _ :: _ => true end.

(** ** [str] methods *)

(** [str.isspace] on one code point (Unicode White_Space and the four
    information separators, as CPython's [Py_UNICODE_ISSPACE]). *)
Definition isspace (c : char) : bool :=
  ((9 <=? c) && (c <=? 13)) || ((28 <=? c) && (c <=? 32))
  || (c =? 133) || (c =? 160) || (c =? 5760)
  || ((8192 <=? c) && (c <=? 8202))
  || (c =? 8232) || (c =? 8233) || (c =? 8239) || (c =? 8287) || (c =? 12288).

Fixpoint lstrip (s : str) : str :=
  match s with
  | [] => []
  | c :: s' => if isspace c then lstrip s' else s
  end.

Fixpoint rstrip (s : str) : str :=
  match s with
  | [] => []
  | c :: s' =>
      match rstrip s' with
      | [] => if isspace c then [] else [c]
      | r => c :: r
      end
  end.

(** [s.strip()] *)
Definition strip (s : str) : str := rstrip (lstrip s).

(** Line boundaries of [str.splitlines]. *)
Definition is_linebreak (c : char) : bool :=
  ((10 <=? c) && (c <=? 13)) || ((28 <=? c) && (c <=? 30))
  || (c =? 133) || (c =? 8232) || (c =? 8233).

(** [s.splitlines()], [cur] being the line under construction. A carriage
    return followed by a line feed is one boundary; a final boundary opens
    no empty last line. *)
Fixpoint splitlines_from (cur : str) (s : str) : list str :=
  match s with
  | [] => match cur with [] => [] | _ => [cur] end
  | c :: s' =>
      if c =? 13 then
        cur :: match s' with
               | c' :: s'' => if c' =? 10 then splitlines_from [] s''
                              else splitlines_from [] s'
               | [] => []
               end
      else if is_linebreak c then cur :: splitlines_from [] s'
      else splitlines_from (cur ++ [c]) s'
  end.

Definition splitlines (s : str) : list str := splitlines_from [] s.

(** [sep.join(items)] *)
Fixpoint join (sep : str) (items : list str) : str :=
  match items with
  | [] => []
  | [x] => x
  | x :: rest => x ++ sep ++ join sep rest
  end.

(** [s.startswith(p)] *)
Fixpoint startswith (p s : str) : bool :=
  match p, s with
  | [], _ => true
  | x :: p', y :: s' => (x =? y) && startswith p' s'
  | _ :: _, [] => false
  end.

(** [needle in hay] *)
Fixpoint contains (needle hay : str) : bool :=
  startswith needle hay ||
  match hay with
  | [] => false
  | _ :: hay' => contains needle hay'
  end.

(** [s.zfill(width)]: zeros go after a leading sign. *)
Definition zfill (width : nat) (s : str) : str :=
  let pad := repeat 48 (width - length s) in
  match s with
  | c :: rest => if (c =? 43) || (c =? 45) then c :: pad ++ rest else pad ++ s
  | [] => pad
  end.

(** [s[:n]] *)
Definition take (n : nat) (s : str) : str := firstn n s.

(** [xs[start:end]] for [0 <= start]. *)
Definition slice {A : Type} (start stop : nat) (xs : list A) : list A :=
  firstn (stop - start) (skipn start xs).

(** ** Numbers and text *)

(** [str(n)] for a natural number. *)
Definition str_of_N (n : N) : str := lit (NilEmpty.string_of_uint (N.to_uint n)).
Definition str_of_nat (n : nat) : str := str_of_N (N.of_nat n).

(** [str(z)], that is [f"{z}"]. *)
Definition str_of_Z (z : Z) : str :=
  match z with
  | Zneg p => 45 :: str_of_N (Npos p)
  | _ => str_of_N (Z.to_N z)
  end.

(** [f"{z:04d}"]: sign-aware zero padding to width 4. *)
Definition format_04d (z : Z) : str := zfill 4 (str_of_Z z).

Definition is_ascii_digit (c : char) : bool := (48 <=? c) && (c <=? 57).

(** Digits of an [int] literal: ASCII digits, single underscores between
    them. *)
Fixpoint int_digits (acc : Z) (after_digit : bool) (s : str) : option Z :=
  match s with
  | [] => if after_digit then Some acc else None
  | c :: s' =>
      if is_ascii_digit c then int_digits (10 * acc + Z.of_N (c - 48)) true s'
      else if (c =? 95) && after_digit then int_digits acc false s'
      else None
  end.

(** [int(s)] in base 10. Decimal digits outside ASCII, which CPython also
    accepts, are rejected here. *)
Definition int (s : str) : result Z :=
  let t := strip s in
  let parsed :=
    match t with
    | c :: r => if c =? 43 then int_digits 0 false r
                else if c =? 45 then option_map Z.opp (int_digits 0 false r)
                else int_digits 0 false t
    | [] => None
    end in
  match parsed with
  | Some z => Ok z
  | None => Raise ValueError
  end.

(** ** [sorted] *)

Section Sorted.
Variable A : Type.
Variable leb : A -> A -> bool.

Fixpoint insert_sorted (x : A) (l : list A) : list A :=
  match l with
  | [] => [x]
  | y :: l' => if leb x y then x :: l else y :: insert_sorted x l'
  end.

(** [sorted(l)]: stable, like CPython's. *)
Fixpoint sorted (l : list A) : list A :=
  match l with
  | [] => []
  | x :: l' => insert_sorted x (sorted l')
  end.
End Sorted.

(** [l[-1]] *)
Definition last_opt {A : Type} (l : list A) : option A :=
  match rev l with
  | [] => None
  | x :: _ => Some x
  end.

(** ** Dictionaries

    A [dict] keeps insertion order; assigning to a key already present
    replaces its value where it stands. *)
Definition dict := list (str * str).

Fixpoint dict_set (d : dict) (k v : str) : dict :=
  match d with
  | [] => [(k, v)]
  | (k', v') :: d' =>
      if str_eqb k' k then (k', v) :: d' else (k', v') :: dict_set d' k v
  end.

Fixpoint dict_get {V : Type} (d : list (str * V)) (k : str) : option V :=
  match d with
  | [] => None
  | (k', v) :: d' => if str_eqb k' k then Some v else dict_get d' k
  end.

(** ** The regular expressions of the server *)

Fixpoint strip_prefix (p s : str) : option str :=
  match p, s with
  | [], _ => Some s
  | x :: p', y :: s' => if x =? y then strip_prefix p' s' else None
  | _ :: _, [] => None
  end.

(** Longest prefix matched by [.*] (no line feed), and what follows. *)
Fixpoint dot_run (s : str) : str * str :=
  match s with
  | [] => ([], [])
  | c :: s' => if c =? 10 then ([], s)
               else let (g, r) := dot_run s' in (c :: g, r)
  end.

(** [re.match(rf"^{'#' * level} (.+)$", line)], giving [group(1)]. [$]
    holds at the end and before a final line feed. *)
Definition re_match_heading (level : nat) (line : str) : option str :=
  match strip_prefix (repeat 35 level ++ [32]) line with
  | Some rest =>
      let (g, r) := dot_run rest in
      if truthy g && (str_eqb r [] || str_eqb r nl) then Some g else None
  | None => None
  end.

(** [re.match(r"^# (.+)$", content, re.MULTILINE)], giving [group(1)]:
    [match] tries the start of [content] only; [$] holds before any line
    feed. *)
Definition re_match_h1 (content : str) : option str :=
  match strip_prefix (lit "# ") content with
  | Some rest => let (g, _) := dot_run rest in
                 if truthy g then Some g else None
  | None => None
  end.

Fixpoint digit_run (isdecimal : char -> bool) (s : str) : str * str :=
  match s with
  | [] => ([], [])
  | c :: s' => if isdecimal c then let (g, r) := digit_run isdecimal s' in (c :: g, r)
               else ([], s)
  end.

(** [re.match(r"(\d+)\.", title)], giving [group(1)]; [isdecimal] is the
    class [\d] (Unicode category Nd). *)
Definition re_match_number (isdecimal : char -> bool) (title : str) : option str :=
  let (g, r) := digit_run isdecimal title in
  match r with
  | c :: _ => if truthy g && (c =? 46) then Some g else None
  | [] => None
  end.

(** ASCII instances of the two Unicode tables, exact on ASCII text. *)
Definition ascii_lower_char (c : char) : char :=
  if (65 <=? c) && (c <=? 90) then c + 32 else c.
Definition ascii_lower (s : str) : str := map ascii_lower_char s.

End Py.

Import Py.


(* ================================================================== *)
(** * Paths and the file system *)
(* ================================================================== *)

Module Pathlib.

Open Scope N_scope.

(** A pure POSIX path: whether it is anchored at the root, and its
    components. *)
Record Path : Type := { anchor : bool; parts : list str }.

Fixpoint split_from (sep : char) (cur : str) (s : str) : list str :=
  match s with
  | [] => [cur]
  | c :: s' => if c =? sep then cur :: split_from sep [] s'
               else split_from sep (cur ++ [c]) s'
  end.

(** [s.split(sep)] for a one-character separator. *)
Definition split (sep : char) (s : str) : list str := split_from sep [] s.

Definition is_component (p : str) : bool :=
  truthy p && negb (str_eqb p (lit ".")).

(** [Path(s)]: empty and [.] components are dropped. *)
Definition Path_of (s : str) : Path :=
  {| anchor := startswith (lit "/") s;
     parts := filter is_component (split 47 s) |}.

(** [p / s] *)
Definition joinpath (p : Path) (s : str) : Path :=
  let q := Path_of s in
  if anchor q then q
  else {| anchor := anchor p; parts := parts p ++ parts q |}.

(** [p.name] *)
Definition name (p : Path) : str := last (parts p) [].

Fixpoint rfind (c : char) (s : str) : option nat :=
  match s with
  | [] => None
  | x :: s' =>
      match rfind c s' with
      | Some i => Some (S i)
      | None => if x =? c then Some 0%nat else None
      end
  end.

(** [p.stem]: the name without its last suffix. *)
Definition stem (p : Path) : str :=
  let n := name p in
  match rfind 46 n with
  | Some i => if (0 <? i)%nat && (i <? length n - 1)%nat then firstn i n else n
  | None => n
  end.

Fixpoint strip_parts (base l : list str) : option (list str) :=
  match base, l with
  | [], _ => Some l
  | b :: base', x :: l' => if str_eqb b x then strip_parts base' l' else None
  | _ :: _, [] => None
  end.

(** [p.relative_to(base)] *)
Definition relative_to (p base : Path) : result Path :=
  if Bool.eqb (anchor p) (anchor base) then
    match strip_parts (parts base) (parts p) with
    | Some rest => Ok {| anchor := false; parts := rest |}
    | None => Raise ValueError
    end
  else Raise ValueError.

(** [str(p)] *)
Definition path_str (p : Path) : str :=
  if anchor p then lit "/" ++ join (lit "/") (parts p)
  else match parts p with
       | [] => lit "."
       | _ => join (lit "/") (parts p)
       end.

(** [p <= q]: component lists compared lexicographically. *)
Fixpoint parts_leb (a b : list str) : bool :=
  match a, b with
  | [], _ => true
  | _ :: _, [] => false
  | x :: a', y :: b' =>
      if str_eqb x y then parts_leb a' b' else str_leb x y
  end.

Definition sort_key (p : Path) : list str :=
  (if anchor p then [[]] else []) ++ parts p.

Definition path_leb (p q : Path) : bool := parts_leb (sort_key p) (sort_key q).

Fixpoint parts_eqb (a b : list str) : bool :=
  match a, b with
  | [], [] => true
  | x :: a', y :: b' => str_eqb x y && parts_eqb a' b'
  | _, _ => false
  end.

Definition path_eqb (p q : Path) : bool :=
  Bool.eqb (anchor p) (anchor q) && parts_eqb (parts p) (parts q).

(** What the server asks of the file system. [fs_glob d pattern] is the
    directory scan behind [d.glob(pattern)]: the entries below [d] that
    match, each as its components relative to [d], in scan order. *)
Record filesystem : Type := {
  fs_exists : Path -> bool;
  fs_is_dir : Path -> bool;
  fs_read_text : Path -> result str;
  fs_glob : Path -> str -> result (list (list str))
}.

Definition child (d : Path) (rel : list str) : Path :=
  {| anchor := anchor d; parts := parts d ++ rel |}.

(** [list(d.glob(pattern))] *)
Definition glob (fs : filesystem) (d : Path) (pattern : str) : result (list Path) :=
  rels <- fs_glob fs d pattern ;;
  Ok (map (child d) rels).

(** ** [fnmatch] patterns *)

Inductive tok : Type :=
| TLit (c : char)
| TAny
| TStar
| TClass (neg : bool) (items : list (char * char)).

(** Body of a bracket expression up to its closing bracket; a bracket in
    first position is a member. *)
Fixpoint class_body (first : bool) (s : str) : option (str * str) :=
  match s with
  | [] => None
  | c :: s' =>
      if (c =? 93) && negb first then Some ([], s')
      else match class_body false s' with
           | Some (b, r) => Some (c :: b, r)
           | None => None
           end
  end.

Fixpoint class_items (b : str) : list (char * char) :=
  match b with
  | lo :: (d :: (hi :: rest) as mid) as tl =>
      if d =? 45 then (lo, hi) :: class_items rest
      else (lo, lo) :: class_items tl
  | lo :: rest => (lo, lo) :: class_items rest
  | [] => []
  end.

Definition parse_class (s : str) : option (bool * list (char * char) * str) :=
  let (neg, s1) := match s with
                   | c :: t => if c =? 33 then (true, t) else (false, s)
                   | [] => (false, s)
                   end in
  match class_body true s1 with
  | Some (b, r) => Some (neg, class_items b, r)
  | None => None
  end.

Fixpoint tokens (fuel : nat) (p : str) : list tok :=
  match fuel, p with
  | S f, c :: p' =>
      if c =? 42 then TStar :: tokens f p'
      else if c =? 63 then TAny :: tokens f p'
      else if c =? 91 then
        match parse_class p' with
        | Some (neg, items, rest) => TClass neg items :: tokens f rest
        | None => TLit c :: tokens f p'
        end
      else TLit c :: tokens f p'
  | _, _ => []
  end.

Definition tok_ok (t : tok) (c : char) : bool :=
  match t with
  | TLit x => x =? c
  | TAny | TStar => true
  | TClass neg items =>
      xorb neg (existsb (fun r => (fst r <=? c) && (c <=? snd r)) items)
  end.

Fixpoint tmatch (ts : list tok) (s : str) : bool :=
  match ts with
  | [] => negb (truthy s)
  | TStar :: ts' =>
      (fix skip (s : str) : bool :=
         tmatch ts' s || match s with [] => false | _ :: s' => skip s' end) s
  | t :: ts' =>
      match s with
      | [] => false
      | c :: s' => tok_ok t c && tmatch ts' s'
      end
  end.

(** [fnmatch.fnmatchcase(name, pattern)] *)
Definition fnmatch (pattern name : str) : bool :=
  tmatch (tokens (length pattern) pattern) name.

(** ** An in-memory file system

    Regular files with their decoded text, and directories. A directory
    need not be listed when a listed entry lies below it. *)
Record memfs : Type := { mem_files : list (Path * str); mem_dirs : list Path }.

Definition mem_paths (m : memfs) : list Path := map fst (mem_files m) ++ mem_dirs m.

Definition mem_is_file (m : memfs) (p : Path) : bool :=
  existsb (fun f => path_eqb (fst f) p) (mem_files m).

(** Components of [p] below [d], when [p] lies strictly below [d]. *)
Definition below (d p : Path) : option (list str) :=
  if Bool.eqb (anchor d) (anchor p) then
    match strip_parts (parts d) (parts p) with
    | Some (c :: rest) => Some (c :: rest)
    | _ => None
    end
  else None.

Definition mem_is_dir (m : memfs) (p : Path) : bool :=
  existsb (path_eqb p) (mem_dirs m)
  || existsb (fun q => truthy (match below p q with Some r => r | None => [] end))
       (mem_paths m).

Fixpoint dedup (l : list str) : list str :=
  match l with
  | [] => []
  | x :: l' => x :: filter (fun y => negb (str_eqb x y)) (dedup l')
  end.

(** [os.scandir(d)]: entry names, in order of first appearance. *)
Definition mem_scandir (m : memfs) (d : Path) : list str :=
  dedup (flat_map (fun q => match below d q with
                            | Some (c :: _) => [c]
                            | _ => []
                            end) (mem_paths m)).

(** One pattern component at a time, from the directories selected so far. *)
Fixpoint mem_select (m : memfs) (d : Path) (comps : list str)
    (cur : list (list str)) : list (list str) :=
  match comps with
  | [] => cur
  | c :: comps' =>
      mem_select m d comps'
        (flat_map (fun rel =>
           map (fun n => rel ++ [n])
             (filter (fnmatch c) (mem_scandir m (child d rel)))) cur)
  end.

(** [Path.glob] refuses an empty pattern and an anchored one; otherwise it
    walks the pattern by components. The recursive [**] and the parent
    [..] components are not given their special meaning here. *)
Definition mem_glob (m : memfs) (d : Path) (pattern : str)
    : result (list (list str)) :=
  match pattern with
  | [] => Raise ValueError
  | _ =>
      if startswith (lit "/") pattern then Raise NotImplementedError
      else if mem_is_dir m d then
        Ok (mem_select m d (filter is_component (split 47 pattern)) [[]])
      else Ok []
  end.

Definition mem_read_text (m : memfs) (p : Path) : result str :=
  match find (fun f => path_eqb (fst f) p) (mem_files m) with
  | Some f => Ok (snd f)
  | None => if mem_is_dir m p then Raise IsADirectoryError
            else Raise FileNotFoundError
  end.

Definition mem_fs (m : memfs) : filesystem :=
  {| fs_exists := fun p => mem_is_file m p || mem_is_dir m p;
     fs_is_dir := mem_is_dir m;
     fs_read_text := mem_read_text m;
     fs_glob := mem_glob m |}.

End Pathlib.

Import Pathlib.

(* ================================================================== *)
(** * The server *)
(* ================================================================== *)

(** Outcome of [subprocess.run(..., check=True, timeout=30)]. *)
Inductive completed : Type :=
| Completed (stdout : str)
| ToolMissing
| CalledProcessError (stderr : str) (message : str)
| TimeoutExpired.

Module Server.

Open Scope N_scope.

Definition dq : str := [34].

Definition GITHUB_ORG : str := lit "aces-framework".
Definition GITHUB_REPO : str := GITHUB_ORG ++ lit "/aces".

(** ** Helpers *)

Record parse_state : Type := {
  sections : dict;
  current_title : str;
  current_lines : list str
}.

(** What [_parse_sections] stores for an open section. *)
Definition section_body (lines : list str) : str := strip (join nl lines).

(** [if current_title: sections[current_title] = ...] *)
Definition flush (st : parse_state) : dict :=
  if truthy (current_title st)
  then dict_set (sections st) (current_title st) (section_body (current_lines st))
  else sections st.

(** One turn of the loop over the lines. *)
Definition parse_line (level : nat) (st : parse_state) (line : str) : parse_state :=
  match re_match_heading level line with
  | Some g =>
      {| sections := flush st;
         current_title := strip g;
         current_lines := [line] |}
  | None =>
      {| sections := sections st;
         current_title := current_title st;
         current_lines := current_lines st ++ [line] |}
  end.

Definition _parse_sections (content : str) (level : nat) : dict :=
  flush (fold_left (parse_line level) (splitlines content)
           {| sections := []; current_title := []; current_lines := [] |}).

Section Tools.

(** [str.lower] and the class [\d] are Unicode tables; [fs] is the file
    system; [REPO_ROOT] is the governance root resolved at start-up. *)
Variable lower : str -> str.
Variable isdecimal : char -> bool.
Variable fs : filesystem.
Variable REPO_ROOT : Path.

Definition _read_file (path : Path) : result str := fs_read_text fs path.

Definition _adrs_dir : Path := joinpath REPO_ROOT (lit "adrs").
Definition _templates_dir : Path := joinpath REPO_ROOT (lit "templates").

(** ** Reference tools *)

(** [title_match.group(1) if title_match else path.stem] *)
Definition adr_title (content : str) (path : Path) : str :=
  match re_match_h1 content with
  | Some t => t
  | None => stem path
  end.

(** The keyword loop of [get_adr]. *)
Fixpoint adr_keyword_scan (query : str) (paths : list Path)
    : result (list (str * Path)) :=
  match paths with
  | [] => Ok []
  | path :: rest =>
      content <- _read_file path ;;
      more <- adr_keyword_scan query rest ;;
      Ok (if contains query (lower content)
          then (lit "- " ++ stem path ++ lit ": " ++ adr_title content path, path)
               :: more
          else more)
  end.

Definition get_adr (identifier : str) : result str :=
  let adrs_path := _adrs_dir in
  let num := zfill 4 (strip identifier) in
  matches <- glob fs adrs_path (num ++ lit "-*.md") ;;
  match matches with
  | m :: _ => _read_file m
  | [] =>
      let query := lower identifier in
      paths <- glob fs adrs_path (lit "[0-9]*.md") ;;
      results <- adr_keyword_scan query (sorted path_leb paths) ;;
      match results with
      | [] => Ok (lit "No ADR found matching '" ++ identifier ++ lit "'.")
      | [r] => _read_file (snd r)
      | _ => Ok (lit "Multiple ADRs match:" ++ nl ++ join nl (map fst results))
      end
  end.

(** [num_match and num_match.group(1) == section.strip()] *)
Definition number_matches (section : str) (entry : str * str) : bool :=
  match re_match_number isdecimal (fst entry) with
  | Some g => str_eqb g (strip section)
  | None => false
  end.

(** [query in title.lower() or query in body.lower()] *)
Definition keyword_matches (query : str) (entry : str * str) : bool :=
  contains query (lower (fst entry)) || contains query (lower (snd entry)).

Definition bullet (title : str) : str := lit "- " ++ title.

Definition get_standard (section : str) : result str :=
  content <- _read_file (joinpath REPO_ROOT (lit "STANDARDS.md")) ;;
  let sections := _parse_sections content 2 in
  match find (number_matches section) sections with
  | Some entry => Ok (snd entry)
  | None =>
      let query := lower section in
      let matches := filter (keyword_matches query) sections in
      match matches with
      | [] => Ok (lit "No section found matching '" ++ section ++ lit "'.")
      | [m] => Ok (snd m)
      | _ =>
          let titles := join nl (map (fun m => bullet (fst m)) matches) in
          Ok (lit "Multiple sections match:" ++ nl ++ titles ++ nl ++ nl
              ++ lit "Refine your query or use a section number.")
      end
  end.

Definition get_architecture (section : str) : result str :=
  content <- _read_file (joinpath REPO_ROOT (lit "ARCHITECTURE.md")) ;;
  let sections := _parse_sections content 2 in
  let query := lower section in
  let matches := filter (keyword_matches query) sections in
  match matches with
  | [] => Ok (lit "No section found matching '" ++ section ++ lit "'.")
  | [m] => Ok (snd m)
  | _ =>
      let titles := join nl (map (fun m => bullet (fst m)) matches) in
      Ok (lit "Multiple sections match:" ++ nl ++ titles)
  end.

(** The block [search_governance] records for a match on line [i]. *)
Definition excerpt_block (rel_path : Path) (lines : list str) (i : nat) : str :=
  let start := Nat.max 0 (i - 1) in
  let stop := Nat.min (length lines) (i + 2) in
  let excerpt := join nl (slice start stop lines) in
  lit "**" ++ path_str rel_path ++ lit "** (line " ++ str_of_nat (i + 1)
  ++ lit "):" ++ nl ++ lit "```" ++ nl ++ excerpt ++ nl ++ lit "```".

(** [for i, line in enumerate(lines)] from index [i] on, up to the
    [break]. *)
Fixpoint first_excerpt (search_query : str) (rel_path : Path) (lines : list str)
    (i : nat) (todo : list str) : list str :=
  match todo with
  | [] => []
  | line :: todo' =>
      if contains search_query (lower line)
      then [excerpt_block rel_path lines i]
      else first_excerpt search_query rel_path lines (S i) todo'
  end.

(** The loop over [search_files]. *)
Fixpoint search_scan (search_query : str) (search_files : list Path)
    : result (list str) :=
  match search_files with
  | [] => Ok []
  | path :: rest =>
      if negb (fs_exists fs path) then search_scan search_query rest
      else
        content <- _read_file path ;;
        if negb (contains search_query (lower content))
        then search_scan search_query rest
        else
          rel_path <- relative_to path REPO_ROOT ;;
          let lines := splitlines content in
          more <- search_scan search_query rest ;;
          Ok (first_excerpt search_query rel_path lines 0 lines ++ more)
  end.

Definition root_documents : list Path :=
  [ joinpath REPO_ROOT (lit "STANDARDS.md");
    joinpath REPO_ROOT (lit "ARCHITECTURE.md");
    joinpath (joinpath REPO_ROOT (lit "templates")) (lit "README.md") ].

Definition search_governance (query : str) : result str :=
  let search_query := lower query in
  adrs <- glob fs _adrs_dir (lit "[0-9]*.md") ;;
  let search_files := root_documents ++ sorted path_leb adrs in
  results <- search_scan search_query search_files ;;
  match results with
  | [] => Ok (lit "No results for '" ++ query ++ lit "'.")
  | _ => Ok (join (nl ++ nl) results)
  end.

(** ** Validation tools *)

Definition _COMMON_FILES : list str :=
  [ lit "LICENSE"; lit "CHANGELOG.md"; lit "CLAUDE.md"; lit "SECURITY.md";
    lit ".markdownlint.yaml"; lit ".pre-commit-config.yaml";
    lit ".github/pull_request_template.md";
    lit ".github/ISSUE_TEMPLATE/config.yml";
    lit ".github/workflows/ci.yaml" ].

Definition _TYPE_FILES : list (str * list str) :=
  [ (lit "rust",
      [ lit "Cargo.toml"; lit "cargo-deny.toml"; lit "rust-toolchain.toml";
        lit ".gitignore"; lit ".mcp.json";
        lit ".github/ISSUE_TEMPLATE/bug-report.md" ]);
    (lit "python",
      [ lit "pyproject.toml"; lit ".gitignore"; lit ".mcp.json";
        lit ".github/ISSUE_TEMPLATE/bug-report.md" ]);
    (lit "governance",
      [ lit ".github/ISSUE_TEMPLATE/adr-proposal.md";
        lit ".github/ISSUE_TEMPLATE/rfc-proposal.md" ]) ].

Definition _CI_EXPECTED_JOB : list (str * str) :=
  [ (lit "rust", lit "check"); (lit "python", lit "check");
    (lit "governance", lit "lint") ].

Definition _CI_EXPECTED_STEPS : list (str * list str) :=
  [ (lit "rust",
      [ lit "cargo fmt"; lit "cargo clippy"; lit "cargo test"; lit "cargo doc";
        lit "cargo deny" ]);
    (lit "python",
      [ lit "ruff check"; lit "ruff format"; lit "mypy"; lit "pytest";
        lit "pip-audit" ]);
    (lit "governance", [ lit "pre-commit run" ]) ].

(** Tier assignments from ARCHITECTURE.md. *)
Definition _TIERS : list (str * Z) :=
  [ (lit "aces", 0%Z);
    (lit "aces-schema", 1%Z);
    (lit "aces-sdl", 1%Z);
    (lit "aces-provider-sdk", 2%Z);
    (lit "aces-agent-sdk", 2%Z);
    (lit "aces-runtime", 3%Z);
    (lit "aces-experiment", 3%Z);
    (lit "aces-provider-docker", 4%Z);
    (lit "aces-cli", 5%Z);
    (lit "aces-stdlib", 5%Z) ].

(** [table[key]] *)
Definition subscript {V : Type} (table : list (str * V)) (key : str) : result V :=
  match dict_get table key with
  | Some v => Ok v
  | None => Raise KeyError
  end.

(** The two lists a compliance check fills. *)
Record tally : Type := { findings : list str; passes : list str }.

Definition add_pass (t : tally) (msg : str) : tally :=
  {| findings := findings t; passes := passes t ++ [msg] |}.

Definition add_finding (t : tally) (msg : str) : tally :=
  {| findings := findings t ++ [msg]; passes := passes t |}.

Definition valid_repo_type (repo_type : str) : bool :=
  existsb (str_eqb repo_type) [lit "rust"; lit "python"; lit "governance"].

(** Check required files. *)
Definition check_required_files (repo : Path) (required : list str) (t : tally)
    : tally :=
  fold_left (fun t fname =>
    if fs_exists fs (joinpath repo fname)
    then add_pass t (lit "PASS: " ++ fname ++ lit " exists")
    else add_finding t (lit "FAIL: " ++ fname ++ lit " missing")) required t.

(** Check repo naming. *)
Definition check_naming (repo_name : str) (t : tally) : tally :=
  if negb (startswith (lit "aces") repo_name)
  then add_finding t (lit "WARN: Repo name '" ++ repo_name
                      ++ lit "' does not start with 'aces-'")
  else add_pass t (lit "PASS: Repo name '" ++ repo_name
                   ++ lit "' follows naming convention").

Definition apache_license : str := lit "license = " ++ dq ++ lit "Apache-2.0" ++ dq.

(** Rust-specific checks. *)
Definition check_rust (repo : Path) (t : tally) : result tally :=
  let cargo_toml := joinpath repo (lit "Cargo.toml") in
  t <- (if fs_exists fs cargo_toml then
          content <- _read_file cargo_toml ;;
          Ok (if contains apache_license content
              then add_pass t (lit "PASS: Cargo.toml specifies Apache-2.0 license")
              else add_finding t (lit "FAIL: Cargo.toml missing Apache-2.0 license"))
        else Ok t) ;;
  let lib_rs := joinpath (joinpath repo (lit "src")) (lit "lib.rs") in
  if fs_exists fs lib_rs then
    content <- _read_file lib_rs ;;
    Ok (if contains (lit "deny(missing_docs)") content
        then add_pass t (lit "PASS: lib.rs has deny(missing_docs)")
        else add_finding t
               (lit "WARN: lib.rs missing #![deny(missing_docs)] (STANDARDS.md "
                ++ [167] ++ lit "16)"))
  else Ok t.

(** Python-specific checks. *)
Definition check_python (repo : Path) (t : tally) : result tally :=
  let pyproject := joinpath repo (lit "pyproject.toml") in
  if fs_exists fs pyproject then
    content <- _read_file pyproject ;;
    let t := if contains (lit "strict = true") content
                || contains (lit "strict=true") content
             then add_pass t (lit "PASS: mypy strict mode enabled")
             else add_finding t (lit "FAIL: pyproject.toml missing mypy strict = true") in
    Ok (if contains apache_license content
        then add_pass t (lit "PASS: pyproject.toml specifies Apache-2.0 license")
        else add_finding t (lit "FAIL: pyproject.toml missing Apache-2.0 license"))
  else Ok t.

(** Template drift: markdownlint config. *)
Definition check_drift (repo : Path) (t : tally) : result tally :=
  let mdlint := joinpath repo (lit ".markdownlint.yaml") in
  let template_mdlint := joinpath _templates_dir (lit "markdownlint.yaml") in
  if fs_exists fs mdlint && fs_exists fs template_mdlint then
    mine <- _read_file mdlint ;;
    theirs <- _read_file template_mdlint ;;
    Ok (if str_eqb mine theirs
        then add_pass t (lit "PASS: .markdownlint.yaml matches governance template")
        else add_finding t
               (lit "WARN: .markdownlint.yaml differs from governance template "
                ++ lit "(template drift)"))
  else Ok t.

(** CI workflow content checks. *)
Definition check_ci (repo : Path) (repo_type : str) (t : tally) : result tally :=
  let ci_path :=
    joinpath (joinpath (joinpath repo (lit ".github")) (lit "workflows"))
      (lit "ci.yaml") in
  if fs_exists fs ci_path then
    ci_content <- _read_file ci_path ;;
    expected_job <- subscript _CI_EXPECTED_JOB repo_type ;;
    let t := if contains (lit "  " ++ expected_job ++ lit ":") ci_content
             then add_pass t (lit "PASS: CI job name is '" ++ expected_job ++ lit "'")
             else add_finding t (lit "FAIL: CI workflow missing expected job name '"
                                 ++ expected_job ++ lit "'") in
    steps <- subscript _CI_EXPECTED_STEPS repo_type ;;
    Ok (fold_left (fun t step =>
          if contains step ci_content
          then add_pass t (lit "PASS: CI contains '" ++ step ++ lit "' step")
          else add_finding t (lit "FAIL: CI workflow missing expected step '"
                              ++ step ++ lit "'")) steps t)
  else Ok t.

(** Build report. *)
Definition report_lines (repo_name repo_type : str) (t : tally) : list str :=
  let head := [ lit "# Compliance Report";
                lit "Repo: " ++ repo_name ++ lit " (" ++ repo_type ++ lit ")";
                [] ] in
  let head := if truthy (findings t)
              then head
                   ++ [lit "## Issues (" ++ str_of_nat (length (findings t)) ++ lit ")"]
                   ++ findings t ++ [[]]
              else head in
  head ++ [lit "## Passed (" ++ str_of_nat (length (passes t)) ++ lit ")"]
       ++ passes t.

(** Everything after the two guards. *)
Definition run_checks (repo : Path) (repo_type : str) : result tally :=
  type_files <- subscript _TYPE_FILES repo_type ;;
  let required := _COMMON_FILES ++ type_files in
  let t := check_required_files repo required {| findings := []; passes := [] |} in
  let t := check_naming (name repo) t in
  t <- (if str_eqb repo_type (lit "rust") then check_rust repo t else Ok t) ;;
  t <- (if str_eqb repo_type (lit "python") then check_python repo t else Ok t) ;;
  t <- check_drift repo t ;;
  check_ci repo repo_type t.

Definition check_repo_compliance (repo_path repo_type : str) : result str :=
  if negb (valid_repo_type repo_type) then
    Ok (lit "Invalid repo_type: " ++ repo_type
        ++ lit ". Must be rust, python, or governance.")
  else
    let repo := Path_of repo_path in
    if negb (fs_is_dir fs repo) then Ok (lit "Directory not found: " ++ repo_path)
    else
      t <- run_checks repo repo_type ;;
      Ok (join nl (report_lines (name repo) repo_type t)).

Definition violation_line (repo_name : str) (repo_tier : Z) (dep : str) (dep_tier : Z)
    : str :=
  lit "VIOLATION: " ++ repo_name ++ lit " (tier " ++ str_of_Z repo_tier
  ++ lit ") depends on " ++ dep ++ lit " (tier " ++ str_of_Z dep_tier ++ lit ") "
  ++ [8212] ++ lit " higher tier dependency".

Definition ok_line (dep : str) (dep_tier : Z) : str :=
  lit "OK: " ++ dep ++ lit " (tier " ++ str_of_Z dep_tier ++ lit ")".

(** One turn of the loop over [dependencies]; the state is
    [(violations, valid)]. *)
Definition check_dep (repo_name : str) (repo_tier : Z)
    (acc : list str * list str) (dep : str) : list str * list str :=
  match dict_get _TIERS dep with
  | None => acc
  | Some dep_tier =>
      if (dep_tier >? repo_tier)%Z
      then (fst acc ++ [violation_line repo_name repo_tier dep dep_tier], snd acc)
      else (fst acc, snd acc ++ [ok_line dep dep_tier])
  end.

Definition check_dependency_direction (repo_name : str) (dependencies : list str)
    : str :=
  match dict_get _TIERS repo_name with
  | None =>
      lit "Unknown repo: " ++ repo_name ++ lit ". Known repos: "
      ++ join (lit ", ") (sorted str_leb (map fst _TIERS))
  | Some repo_tier =>
      let (violations, valid) :=
        fold_left (check_dep repo_name repo_tier) dependencies ([], []) in
      if truthy violations
      then lit "Dependency direction violations found:" ++ nl ++ join nl violations
      else lit "All ACES dependencies follow the architecture DAG." ++ nl
           ++ join nl valid
  end.

(** ** Governance action tools *)

(** [run] stands for [subprocess.run]. *)
Variable run : list str -> completed.

Definition issue_body (next_num : Z) (title context decision : str) : str :=
  lit "## Proposed ADR-" ++ format_04d next_num ++ lit ": " ++ title ++ nl ++ nl
  ++ lit "### Status" ++ nl ++ nl ++ lit "Proposed" ++ nl ++ nl
  ++ lit "### Context" ++ nl ++ nl ++ context ++ nl ++ nl
  ++ lit "### Decision (sketch)" ++ nl ++ nl ++ decision ++ nl ++ nl
  ++ lit "---" ++ nl
  ++ lit "*This ADR proposal was created by the ACES Governance MCP agent." ++ nl
  ++ lit "Discuss here, then create the formal ADR once consensus is reached.*".

Definition gh_issue_create (issue_title body : str) : list str :=
  [ lit "gh"; lit "issue"; lit "create"; lit "--repo"; GITHUB_REPO;
    lit "--title"; issue_title; lit "--body"; body;
    lit "--label"; lit "governance" ].

(** What the [try] block returns, and each [except] clause. *)
Definition issue_outcome (c : completed) : str :=
  match c with
  | Completed stdout => lit "Issue created: " ++ strip stdout
  | ToolMissing => lit "Error: gh CLI not found. Install from https://cli.github.com"
  | CalledProcessError stderr message =>
      lit "Error creating issue: " ++ (if truthy stderr then strip stderr else message)
  | TimeoutExpired => lit "Error: gh command timed out."
  end.

Definition propose_adr (title context decision : str) : result str :=
  let adrs_path := _adrs_dir in
  paths <- glob fs adrs_path (lit "[0-9]*.md") ;;
  let existing := sorted path_leb paths in
  next_num <- match last_opt existing with
              | Some p => last_num <- int (take 4 (name p)) ;; Ok (last_num + 1)%Z
              | None => Ok 1%Z
              end ;;
  let issue_title := lit "ADR Proposal: " ++ title in
  let body := issue_body next_num title context decision in
  Ok (issue_outcome (run (gh_issue_create issue_title body))).

End Tools.

End Server.

(* ================================================================== *)
(** * The rest of the server *)
(* ================================================================== *)

Module ServerRest.

Import Server.

Open Scope N_scope.

(** ** More built-ins *)

(** [s.split()]: the maximal runs of characters that are no whitespace. *)
Fixpoint split_ws_from (cur : str) (s : str) : list str :=
  match s with
  | [] => if truthy cur then [cur] else []
  | c :: s' =>
      if isspace c
      then (if truthy cur then cur :: split_ws_from [] s' else split_ws_from [] s')
      else split_ws_from (cur ++ [c]) s'
  end.

Definition split_ws (s : str) : list str := split_ws_from [] s.

(** [x in xs] for a list or set of strings. *)
Definition str_in (x : str) (xs : list str) : bool := existsb (str_eqb x) xs.

(** Longest prefix matched by [\s*], and what follows. *)
Fixpoint space_run (s : str) : str * str :=
  match s with
  | [] => ([], [])
  | c :: s' => if isspace c then let (w, r) := space_run s' in (c :: w, r)
               else ([], s)
  end.

(** [p.parents[i]] *)
Definition parents (p : Path) (i : nat) : option Path :=
  if (i <? length (parts p))%nat
  then Some {| anchor := anchor p; parts := firstn (length (parts p) - i - 1) (parts p) |}
  else None.

(** ** Start-up *)

Definition _SIBLING_LAYOUT_MSG : str :=
  lit "ACES repos must be siblings in a shared parent directory:" ++ nl
  ++ lit "  parent/" ++ nl
  ++ lit "    aces/           " ++ [8592] ++ lit " governance repo" ++ nl
  ++ lit "    aces-schema/" ++ nl
  ++ lit "    aces-runtime/" ++ nl
  ++ lit "    ..." ++ nl
  ++ lit "Set ACES_GOVERNANCE_REPO to the absolute path of the governance repo "
  ++ lit "if your layout differs.".

Definition _REQUIRED_GOVERNANCE_FILES : list str :=
  [lit "STANDARDS.md"; lit "ARCHITECTURE.md"; lit "adrs"].

(** How [_resolve_repo_root] ends. *)
Inductive startup : Type :=
| Resolved (root : Path)
| RuntimeError (msg : str)
| IndexError.

Section Startup.

(** [environ] is [os.environ.get("ACES_GOVERNANCE_REPO")], [__file__] the
    location of the module, [resolve] stands for [Path.resolve]. *)
Variable fs : filesystem.
Variable resolve : Path -> Path.
Variable environ : option str.
Variable __file__ : str.

Definition _resolve_repo_root : startup :=
  let candidate :=
    match environ with
    | Some (c :: env) => Some (resolve (Path_of (c :: env)))
    | _ => parents (resolve (Path_of __file__)) 4
    end in
  match candidate with
  | None => IndexError
  | Some root =>
      if negb (fs_is_dir fs root) then
        RuntimeError (lit "Governance repo not found at " ++ path_str root ++ nl ++ nl
                      ++ _SIBLING_LAYOUT_MSG)
      else
        let missing :=
          filter (fun f => negb (fs_exists fs (joinpath root f)))
            _REQUIRED_GOVERNANCE_FILES in
        if truthy missing then
          RuntimeError (lit "Directory " ++ path_str root
                        ++ lit " does not look like the ACES governance repo "
                        ++ [8212] ++ lit " missing: " ++ join (lit ", ") missing
                        ++ nl ++ nl ++ _SIBLING_LAYOUT_MSG)
        else Resolved root
  end.

End Startup.

Section Tools.

(** [isword] is the class [\w]; [is_file] stands for [Path.is_file]. *)
Variable lower : str -> str.
Variable isword : char -> bool.
Variable fs : filesystem.
Variable is_file : Path -> bool.
Variable REPO_ROOT : Path.

(** ** [list_adrs] *)

Fixpoint word_run (s : str) : str * str :=
  match s with
  | [] => ([], [])
  | c :: s' => if isword c then let (g, r) := word_run s' in (c :: g, r)
               else ([], s)
  end.

(** One attempt of [^## Status\s*\n+\s*(\w+)] at the start of a line: the
    whitespace after the heading has to hold a line feed, and a word has
    to follow it. No character is both whitespace and a word character. *)
Definition status_here (s : str) : option str :=
  match strip_prefix (lit "## Status") s with
  | Some rest =>
      let (w, after) := space_run rest in
      if existsb (N.eqb 10) w then
        let (g, _) := word_run after in
        if truthy g then Some g else None
      else None
  | None => None
  end.

(** [re.search(r"^## Status\s*\n+\s*(\w+)", content, re.MULTILINE)], giving
    [group(1)] of the leftmost match: [^] holds at the start and after
    each line feed. *)
Fixpoint re_search_status_from (line_start : bool) (s : str) : option str :=
  match (if line_start then status_here s else None) with
  | Some g => Some g
  | None =>
      match s with
      | [] => None
      | c :: s' => re_search_status_from (c =? 10) s'
      end
  end.

Definition re_search_status (content : str) : option str :=
  re_search_status_from true content.

(** The loop of [list_adrs]. *)
Fixpoint list_adrs_lines (paths : list Path) : result (list str) :=
  match paths with
  | [] => Ok []
  | path :: rest =>
      content <- _read_file fs path ;;
      let title := adr_title content path in
      let status := match re_search_status content with
                    | Some s => s
                    | None => lit "Unknown"
                    end in
      more <- list_adrs_lines rest ;;
      Ok ((lit "- " ++ stem path ++ lit ": " ++ title ++ lit " [" ++ status ++ lit "]")
          :: more)
  end.

Definition list_adrs : result str :=
  let adrs_path := _adrs_dir REPO_ROOT in
  paths <- glob fs adrs_path (lit "[0-9]*.md") ;;
  results <- list_adrs_lines (sorted path_leb paths) ;;
  Ok (if truthy results then join nl results else lit "No ADRs found.").

(** ** [get_template] *)

(** [d.rglob("*")], that is [d.glob("**/*")]. *)
Definition rglob_all (d : Path) : result (list Path) := glob fs d (lit "**/*").

(** The loop of the [list] branch. *)
Fixpoint template_list_lines (templates_path : Path) (paths : list Path)
    : result (list str) :=
  match paths with
  | [] => Ok []
  | path :: rest =>
      if is_file path then
        rel <- relative_to path templates_path ;;
        more <- template_list_lines templates_path rest ;;
        Ok ((lit "- " ++ path_str rel) :: more)
      else template_list_lines templates_path rest
  end.

(** [f"- {m.relative_to(templates_path)}"] for each match. *)
Fixpoint template_names (templates_path : Path) (matches : list Path)
    : result (list str) :=
  match matches with
  | [] => Ok []
  | m :: rest =>
      rel <- relative_to m templates_path ;;
      more <- template_names templates_path rest ;;
      Ok ((lit "- " ++ path_str rel) :: more)
  end.

Definition get_template (name : str) : result str :=
  let templates_path := _templates_dir REPO_ROOT in
  if str_eqb (lower name) (lit "list") then
    paths <- rglob_all templates_path ;;
    files <- template_list_lines templates_path (sorted path_leb paths) ;;
    Ok (lit "Available templates:" ++ nl ++ join nl files)
  else
    let target := joinpath templates_path name in
    if fs_exists fs target && is_file target then _read_file fs target
    else
      let query := lower name in
      paths <- rglob_all templates_path ;;
      let matches :=
        filter (fun p => is_file p && contains query (lower (Pathlib.name p))) paths in
      match matches with
      | [] => Ok (lit "Template '" ++ name ++ lit "' not found. "
                  ++ lit "Use get_template('list') to see available templates.")
      | [m] => _read_file fs m
      | _ =>
          names <- template_names templates_path matches ;;
          Ok (lit "Multiple templates match:" ++ nl ++ join nl names)
      end.

(** ** [check_standards_update_needed] *)

Definition stop_words : list str :=
  [ lit "the"; lit "a"; lit "an"; lit "is"; lit "are"; lit "was"; lit "were";
    lit "be"; lit "been"; lit "should"; lit "must"; lit "not"; lit "in";
    lit "on"; lit "at"; lit "to"; lit "for"; lit "of"; lit "and"; lit "or";
    lit "with"; lit "that"; lit "this"; lit "it"; lit "all"; lit "no"; lit "do" ].

(** [set(lesson.lower().split()) - stop_words]; the order of a set plays
    no part below, where its members are only counted. *)
Definition key_terms (lesson : str) : list str :=
  filter (fun w => negb (str_in w stop_words)) (dedup (split_ws (lower lesson))).

(** [sum(1 for term in key_terms if term in body_lower)] *)
Definition term_matches (terms : list str) (body : str) : nat :=
  length (filter (fun term => contains term (lower body)) terms).

(** The loop over the sections. *)
Fixpoint matching_sections (terms : list str) (sections : dict) : list str :=
  match sections with
  | [] => []
  | (title, body) :: rest =>
      if (2 <=? term_matches terms body)%nat
      then title :: matching_sections terms rest
      else matching_sections terms rest
  end.

Definition check_standards_update_needed (lesson : str) : result str :=
  let standards_path := joinpath REPO_ROOT (lit "STANDARDS.md") in
  if negb (fs_exists fs standards_path) then
    Ok (lit "Cannot check: STANDARDS.md not found.")
  else
    content <- _read_file fs standards_path ;;
    let sections := _parse_sections content 2 in
    let found := matching_sections (key_terms lesson) sections in
    if truthy found then
      let section_list := join nl (map (fun s => lit "- " ++ s) found) in
      Ok (lit "This lesson appears to be already covered in:" ++ nl ++ section_list
          ++ nl ++ nl ++ lit "Review these sections to confirm coverage is adequate.")
    else
      Ok (lit "This lesson is not covered by current standards. "
          ++ lit "Consider promoting it to a formal standard in STANDARDS.md "
          ++ lit "or proposing an ADR if it involves an architectural decision.").

End Tools.

(** ** An in-memory file system with the recursive wildcard *)

Fixpoint rel_eqb (a b : list str) : bool :=
  match a, b with
  | [], [] => true
  | x :: a', y :: b' => str_eqb x y && rel_eqb a' b'
  | _, _ => false
  end.

Fixpoint dedup_rel (l : list (list str)) : list (list str) :=
  match l with
  | [] => []
  | x :: l' => x :: filter (fun y => negb (rel_eqb x y)) (dedup_rel l')
  end.

(** The non-empty prefixes of a list of components, shortest first. *)
Fixpoint prefixes (r : list str) : list (list str) :=
  match r with
  | [] => []
  | c :: r' => [c] :: map (cons c) (prefixes r')
  end.

(** Every entry below [d], directories included. *)
Definition mem_walk (m : memfs) (d : Path) : list (list str) :=
  dedup_rel (flat_map (fun q => match below d q with
                                | Some r => prefixes r
                                | None => []
                                end) (mem_paths m)).

Definition mem_glob_rec (m : memfs) (d : Path) (pattern : str)
    : result (list (list str)) :=
  if str_eqb pattern (lit "**/*")
  then Ok (if mem_is_dir m d then mem_walk m d else [])
  else mem_glob m d pattern.

Definition mem_fs_rec (m : memfs) : filesystem :=
  {| fs_exists := fun p => mem_is_file m p || mem_is_dir m p;
     fs_is_dir := mem_is_dir m;
     fs_read_text := mem_read_text m;
     fs_glob := mem_glob_rec m |}.

End ServerRest.

(* ================================================================== *)
(** * Vocabulary of the properties *)
(* ================================================================== *)

Module Doc.

Import Server.

(** ** Headings of a document

    A line is a section boundary at [level] when [re_match_heading] accepts
    it; its title is the trimmed text after the marker. *)

(** The lines up to the next boundary. *)
Fixpoint body_lines (level : nat) (lines : list str) : list str :=
  match lines with
  | [] => []
  | l :: rest =>
      match re_match_heading level l with
      | Some _ => []
      | None => l :: body_lines level rest
      end
  end.

(** The headings of a document in source order, each as its title and its
    block: the heading line followed by the lines up to the next
    boundary. *)
Fixpoint section_blocks (level : nat) (lines : list str) : list (str * list str) :=
  match lines with
  | [] => []
  | l :: rest =>
      match re_match_heading level l with
      | Some g => (strip g, l :: body_lines level rest) :: section_blocks level rest
      | None => section_blocks level rest
      end
  end.

(** The blocks whose heading carries the title [t], in source order. *)
Definition occurrences (t : str) (hs : list (str * list str)) : list (list str) :=
  map snd (filter (fun h => str_eqb (fst h) t) hs).

(** The entries of a mapping stored under the key [t]. *)
Definition entries_for (t : str) (d : dict) : list (str * str) :=
  filter (fun e => str_eqb (fst e) t) d.

(** The entry a block gives rise to. *)
Definition entry_of (h : str * list str) : str * str :=
  (fst h, section_body (snd h)).

(** Storing one block, as [flush] does with the open section. *)
Definition commit (d : dict) (h : str * list str) : dict :=
  flush {| sections := d; current_title := fst h; current_lines := snd h |}.

(** A line that is no boundary at level 2. *)
Definition plain_line (l : str) : Prop := re_match_heading 2 l = None.

(** A block as the parser cuts it: a heading line with its trimmed title,
    then plain lines. *)
Definition well_cut (h : str * list str) : Prop :=
  exists hd g rest,
    snd h = hd :: rest /\ re_match_heading 2 hd = Some g /\ fst h = strip g
    /\ Forall plain_line rest.

(** No line feed. *)
Definition no_lf (c : char) : Prop := N.eqb c 10 = false.

(** The title a stored body opens with. *)
Definition title_of (body : str) : str := strip (fst (dot_run (skipn 3 body))).

End Doc.

Module Checks.

Import Server.

(** ** Dependency direction *)

Definition tier_of (name : str) : Z :=
  match dict_get _TIERS name with
  | Some t => t
  | None => 0%Z
  end.

(** A dependency in the tier table, of a tier strictly above [repo_tier]. *)
Definition violates (repo_tier : Z) (dep : str) : bool :=
  match dict_get _TIERS dep with
  | Some t => (repo_tier <? t)%Z
  | None => false
  end.

(** A dependency in the tier table, of the same or a lower tier. *)
Definition conforms (repo_tier : Z) (dep : str) : bool :=
  match dict_get _TIERS dep with
  | Some t => (t <=? repo_tier)%Z
  | None => false
  end.


(** ** Compliance reports *)

Definition repo_types : list str := [lit "rust"; lit "python"; lit "governance"].





Definition passed_section (passed : list str) : list str :=
  [lit "## Passed (" ++ str_of_nat (length passed) ++ lit ")"] ++ passed.

(** The files whose text a compliance check reads when they exist. *)
Definition files_read (REPO_ROOT repo : Path) : list Path :=
  [ joinpath repo (lit "Cargo.toml");
    joinpath (joinpath repo (lit "src")) (lit "lib.rs");
    joinpath repo (lit "pyproject.toml");
    joinpath repo (lit ".markdownlint.yaml");
    joinpath (_templates_dir REPO_ROOT) (lit "markdownlint.yaml");
    joinpath (joinpath (joinpath repo (lit ".github")) (lit "workflows"))
      (lit "ci.yaml") ].

Definition readable (fs : filesystem) (p : Path) : Prop :=
  fs_exists fs p = true -> exists c, fs_read_text fs p = Ok c.


End Checks.

Module Lookup.

Import Server.

(** The text of a file, empty when it cannot be read. *)
Definition text_of (fs : filesystem) (p : Path) : str :=
  match fs_read_text fs p with
  | Ok c => c
  | Raise _ => []
  end.

Definition can_read (fs : filesystem) (p : Path) : Prop :=
  exists c, fs_read_text fs p = Ok c.

(** The query occurs in the file, case-insensitively. *)
Definition mentions (lower : str -> str) (fs : filesystem) (query : str) (p : Path)
    : bool :=
  contains (lower query) (lower (text_of fs p)).


(** A title opening with digits and a full stop. *)
Definition numbered (isdecimal : char -> bool) (title digits : str) : Prop :=
  exists rest, title = digits ++ [46%N] ++ rest
               /\ digits <> [] /\ Forall (fun c => isdecimal c = true) digits.

End Lookup.

Module Search.

Import Server Lookup.

Definition opt_list {A : Type} (o : option A) : list A :=
  match o with
  | Some x => [x]
  | None => []
  end.

(** Line [i] (counting from 0) with the line before and the line after,
    where the document has them. *)
Definition context_lines (lines : list str) (i : nat) : list str :=
  match i with
  | O => []
  | S j => opt_list (nth_error lines j)
  end ++ opt_list (nth_error lines i) ++ opt_list (nth_error lines (S i)).

(** An excerpt: the path relative to the root, the line number counted
    from 1, and the context inside a fence. *)
Definition excerpt_text (rel : Path) (lines : list str) (i : nat) : str :=
  lit "**" ++ path_str rel ++ lit "** (line " ++ str_of_nat (S i) ++ lit "):" ++ nl
  ++ lit "```" ++ nl ++ join nl (context_lines lines i) ++ nl ++ lit "```".

Definition line_hit (lower : str -> str) (query line : str) : bool :=
  contains (lower query) (lower line).

(** Line [i] is the first line containing the query. *)
Definition first_hit (lower : str -> str) (query : str) (lines : list str) (i : nat)
    : Prop :=
  (exists line, nth_error lines i = Some line /\ line_hit lower query line = true)
  /\ forall j line, (j < i)%nat -> nth_error lines j = Some line ->
                    line_hit lower query line = false.

Definition no_hit (lower : str -> str) (query : str) (lines : list str) : Prop :=
  Forall (fun line => line_hit lower query line = false) lines.

(** What one document of the search list adds to the results: nothing
    when it is missing, when its content does not contain the query or
    when no single line does; else one excerpt, at the first line that
    does. *)
Definition contributes (lower : str -> str) (fs : filesystem) (REPO_ROOT : Path)
    (query : str) (p : Path) (excerpts : list str) : Prop :=
  if fs_exists fs p then
    exists rel, relative_to p REPO_ROOT = Ok rel /\
      let lines := splitlines (text_of fs p) in
      (excerpts = []
       /\ (mentions lower fs query p = false \/ no_hit lower query lines))
      \/ (mentions lower fs query p = true
          /\ exists i, first_hit lower query lines i
                       /\ excerpts = [excerpt_text rel lines i])
  else excerpts = [].

(** The fixed search list: standards, architecture, templates readme, then
    the decision records in filename order. *)
Definition search_list (REPO_ROOT : Path) (records : list Path) : list Path :=
  [ joinpath REPO_ROOT (lit "STANDARDS.md");
    joinpath REPO_ROOT (lit "ARCHITECTURE.md");
    joinpath (joinpath REPO_ROOT (lit "templates")) (lit "README.md") ]
  ++ sorted path_leb records.

End Search.

Module Records.

Import Server.

(** The order a comparison function decides. *)
Definition le_by {A : Type} (leb : A -> A -> bool) (a b : A) : Prop := leb a b = true.

Definition ascii_digits (d : str) : Prop := Forall (fun c => is_ascii_digit c = true) d.

(** Decimal digits read from the left, onto [acc]. *)
Definition digit_fold (acc : Z) (d : str) : Z :=
  fold_left (fun acc c => (10 * acc + Z.of_N (c - 48))%Z) d acc.

(** The number a string of ASCII digits denotes. *)
Definition digits_value (d : str) : Z := digit_fold 0%Z d.

(** A file name of the scheme [NNNN-slug.md]. *)
Definition record_name (n : str) : Prop :=
  exists digits slug,
    n = digits ++ lit "-" ++ slug ++ lit ".md"
    /\ length digits = 4%nat /\ ascii_digits digits.

(** The number in the four-digit prefix of a file name. *)
Definition record_number (n : str) : Z := digits_value (firstn 4 n).

(** The highest number among the names, 0 when there is none. *)
Definition highest_number (names : list str) : Z :=
  fold_right Z.max 0%Z (map record_number names).

End Records.

Module Rest.

Import Server ServerRest Lookup Search.

(** The line of [list_adrs] for one record. *)
Definition record_line (isword : char -> bool) (fs : filesystem) (p : Path) : str :=
  lit "- " ++ stem p ++ lit ": " ++ adr_title (text_of fs p) p ++ lit " ["
  ++ match re_search_status isword (text_of fs p) with
     | Some s => s
     | None => lit "Unknown"
     end
  ++ lit "]".

(** The components of [p] after those of [d]. *)
Definition rel_under (d p : Path) : Path :=
  {| anchor := false; parts := skipn (length (parts d)) (parts p) |}.

(** A line of a template listing: the path below the templates
    directory. *)
Definition template_line (templates_path p : Path) : str :=
  lit "- " ++ path_str (rel_under templates_path p).


(** The sections in which at least two of the terms occur. *)
Definition covers (lower : str -> str) (terms : list str) (body : str) : Prop :=
  (2 <= term_matches lower terms body)%nat.

(** The required entries missing below a candidate root. *)
Definition missing_entries (fs : filesystem) (root : Path) : list str :=
  filter (fun f => negb (fs_exists fs (joinpath root f))) _REQUIRED_GOVERNANCE_FILES.

(** The tally only grows. *)
Definition grows (t t' : tally) : Prop :=
  incl (findings t) (findings t') /\ incl (passes t) (passes t').

(** A repository that meets every rule of its project type. *)
Definition compliant (fs : filesystem) (REPO_ROOT repo : Path) (repo_type : str)
    : Prop :=
  let text f := text_of fs (joinpath repo f) in
  let ci := text_of fs (joinpath (joinpath (joinpath repo (lit ".github"))
                                    (lit "workflows")) (lit "ci.yaml")) in
  (forall type_files f,
     subscript _TYPE_FILES repo_type = Ok type_files ->
     In f (_COMMON_FILES ++ type_files) -> fs_exists fs (joinpath repo f) = true)
  /\ startswith (lit "aces") (name repo) = true
  /\ (repo_type = lit "rust" ->
      contains apache_license (text (lit "Cargo.toml")) = true
      /\ (fs_exists fs (joinpath (joinpath repo (lit "src")) (lit "lib.rs")) = true ->
          contains (lit "deny(missing_docs)")
            (text_of fs (joinpath (joinpath repo (lit "src")) (lit "lib.rs"))) = true))
  /\ (repo_type = lit "python" ->
      contains (lit "strict = true") (text (lit "pyproject.toml"))
      || contains (lit "strict=true") (text (lit "pyproject.toml")) = true
      /\ contains apache_license (text (lit "pyproject.toml")) = true)
  /\ (fs_exists fs (joinpath (_templates_dir REPO_ROOT) (lit "markdownlint.yaml")) = true ->
      text (lit ".markdownlint.yaml")
      = text_of fs (joinpath (_templates_dir REPO_ROOT) (lit "markdownlint.yaml")))
  /\ (forall job steps,
        subscript _CI_EXPECTED_JOB repo_type = Ok job ->
        subscript _CI_EXPECTED_STEPS repo_type = Ok steps ->
        contains (lit "  " ++ job ++ lit ":") ci = true
        /\ Forall (fun step => contains step ci = true) steps).

(** A dependency named in the tier table. *)
Definition in_table (dep : str) : bool :=
  match dict_get _TIERS dep with
  | Some _ => true
  | None => false
  end.

(** What a document adds for the empty query: an excerpt of its head,
    unless it is missing or has no line. *)
Definition head_excerpt (fs : filesystem) (REPO_ROOT p : Path) (excerpts : list str)
    : Prop :=
  if fs_exists fs p then
    exists rel, relative_to p REPO_ROOT = Ok rel /\
      excerpts = match splitlines (text_of fs p) with
                 | [] => []
                 | lines => [excerpt_text rel lines 0]
                 end
  else excerpts = [].

End Rest.

(* ================================================================== *)
(** * Sample documents and repositories *)
(* ================================================================== *)

Module Samples.

Import Server.

(** Lines ended by a line feed each. *)
Definition text (lines : list str) : str := concat (map (fun l => l ++ nl) lines).

(** Two sections, a preamble and a deeper heading. *)
Definition doc_distinct : str :=
  text [lit "intro"; lit "## A"; lit "alpha"; lit "### deep"; lit "## B"; lit "beta"].

(** The title [A] twice. *)
Definition doc_repeated : str :=
  text [lit "## A"; lit "first"; lit "## B"; lit "mid"; lit "## A"; lit "second"].

(** A heading whose title is one blank. *)
Definition doc_blank_title : str := text [lit "## A"; lit "##  "; lit "lost"].

(** Two headings whose titles are blanks only. *)
Definition doc_blank_twice : str :=
  text [lit "##  "; lit "one"; lit "##   "; lit "two"].

(** A governance root. *)
Definition gov_root : Path := Path_of (lit "/srv/aces").

Definition adr_0001 : str :=
  text [lit "# ADR-0001: Rust Core"; lit "The core is written in Rust."].

Definition adr_0019 : str :=
  text [lit "# ADR-0019: Formal Methods"; lit "Critical parts are specified in TLA+."].

Definition standards_md : str :=
  text [lit "# Standards"; []; lit "## 1. Naming"; lit "Repos start with aces.";
        lit "## 15. Formal Methods"; lit "Governed by ADR-0019."].

Definition gov_files : memfs :=
  {| mem_files :=
       [ (joinpath gov_root (lit "STANDARDS.md"), standards_md);
         (joinpath gov_root (lit "ARCHITECTURE.md"),
          text [lit "# Architecture"; lit "## Tiers"; lit "Six tiers."]);
         (joinpath gov_root (lit "adrs/0019-formal-methods.md"), adr_0019);
         (joinpath gov_root (lit "adrs/0001-rust-core.md"), adr_0001);
         (joinpath gov_root (lit "adrs/TEMPLATE.md"), text [lit "# Title"]) ];
     mem_dirs := [] |}.

Definition gov_fs : filesystem := mem_fs gov_files.

Definition gov_records : list Path :=
  [ joinpath gov_root (lit "adrs/0019-formal-methods.md");
    joinpath gov_root (lit "adrs/0001-rust-core.md") ].

(** A governance-type repository with a licence and a CI workflow. *)
Definition demo_files : memfs :=
  {| mem_files :=
       [ (Path_of (lit "/work/aces-demo/LICENSE"), text [lit "Apache License"]);
         (Path_of (lit "/work/aces-demo/.github/workflows/ci.yaml"),
          text [lit "jobs:"; lit "  lint:"; lit "    run: pre-commit run"]) ];
     mem_dirs := [] |}.

Definition demo_fs : filesystem := mem_fs demo_files.

(** The issue tracker answering with the address of the new issue. *)
Definition gh_ok (argv : list str) : completed :=
  Completed (lit "https://github.com/aces-framework/aces/issues/7" ++ nl).

End Samples.

Module SamplesRest.

Import Server ServerRest Samples.

(** ASCII instance of the class [\w]. *)
Definition ascii_isword (c : char) : bool :=
  is_ascii_digit c || ((65 <=? c) && (c <=? 90))%N || ((97 <=? c) && (c <=? 122))%N
  || (c =? 95)%N.

Definition adr_accepted : str :=
  text [lit "# ADR-0001: Rust Core"; []; lit "## Status"; []; lit "Accepted"; [];
        lit "## Decision"; lit "Rust."].

Definition adr_plain : str := text [lit "Formal methods, no heading."].

(** A governance root with templates. *)
Definition full_files : memfs :=
  {| mem_files :=
       [ (joinpath gov_root (lit "STANDARDS.md"), standards_md);
         (joinpath gov_root (lit "ARCHITECTURE.md"),
          text [lit "# Architecture"; lit "## Tiers"; lit "Six tiers.";
                lit "## Principles"; lit "Parnas."]);
         (joinpath gov_root (lit "adrs/0019-formal-methods.md"), adr_plain);
         (joinpath gov_root (lit "adrs/0001-rust-core.md"), adr_accepted);
         (joinpath gov_root (lit "templates/README.md"), text [lit "Templates."]);
         (joinpath gov_root (lit "templates/Cargo.toml"), text [lit "[package]"]);
         (joinpath gov_root (lit "templates/ISSUE_TEMPLATE/bug-report.md"),
          text [lit "Bug."]);
         (Path_of (lit "/etc/hostname"), text [lit "builder"]) ];
     mem_dirs := [] |}.

Definition full_fs : filesystem := mem_fs_rec full_files.

Definition full_records : list Path :=
  [ joinpath gov_root (lit "adrs/0019-formal-methods.md");
    joinpath gov_root (lit "adrs/0001-rust-core.md") ].

(** What the recursive scan of the templates directory finds: files and
    the directory between them. *)
Definition full_templates : list Path :=
  [ joinpath gov_root (lit "templates/README.md");
    joinpath gov_root (lit "templates/Cargo.toml");
    joinpath gov_root (lit "templates/ISSUE_TEMPLATE");
    joinpath gov_root (lit "templates/ISSUE_TEMPLATE/bug-report.md") ].



(** A governance-type repository that has everything asked for, beside
    the template of its lint configuration. *)
Definition clean_repo : Path := Path_of (lit "/work/aces-docs").

Definition lint_rules : str := text [lit "default: true"].

Definition clean_files : memfs :=
  {| mem_files :=
       map (fun f => (joinpath clean_repo f, text [lit "present"]))
         [ lit "LICENSE"; lit "CHANGELOG.md"; lit "CLAUDE.md"; lit "SECURITY.md";
           lit ".pre-commit-config.yaml"; lit ".github/pull_request_template.md";
           lit ".github/ISSUE_TEMPLATE/config.yml";
           lit ".github/ISSUE_TEMPLATE/adr-proposal.md";
           lit ".github/ISSUE_TEMPLATE/rfc-proposal.md" ]
       ++ [ (joinpath clean_repo (lit ".markdownlint.yaml"), lint_rules);
            (joinpath clean_repo (lit ".github/workflows/ci.yaml"),
             text [lit "jobs:"; lit "  lint:"; lit "    run: pre-commit run"]);
            (joinpath gov_root (lit "templates/markdownlint.yaml"), lint_rules) ];
     mem_dirs := [] |}.

Definition clean_fs : filesystem := mem_fs clean_files.

End SamplesRest.

(* ================================================================== *)
(** * Properties *)
(* ================================================================== *)

Import Server Doc.
Open Scope nat_scope.
Unset Implicit Arguments.

(** ** The built-ins on examples *)

Example splitlines_ex :
  splitlines (lit "a" ++ nl ++ nl ++ lit "b" ++ [13; 10]%N ++ lit "c" ++ nl)
  = [lit "a"; []; lit "b"; lit "c"].
Proof. reflexivity. Qed.

Example strip_ex : strip (lit "  a b  ") = lit "a b".
Proof. reflexivity. Qed.

Example format_ex : format_04d 20 = lit "0020" /\ format_04d 10000 = lit "10000".
Proof. split; reflexivity. Qed.

Example int_ex : int (lit "0019") = Ok 19%Z /\ int (lit "1.md") = Raise ValueError.
Proof. split; reflexivity. Qed.

Example heading_ex :
  re_match_heading 2 (lit "##  Foo ") = Some (lit " Foo ")
  /\ re_match_heading 2 (lit "### Foo") = None
  /\ re_match_heading 2 (lit "## ") = None.
Proof. repeat split; reflexivity. Qed.

(** ** Strings and dictionaries *)

Lemma str_eqb_refl (a : str) : str_eqb a a = true.
Proof.
  induction a as [|x a IH]; simpl; [reflexivity|].
  now rewrite N.eqb_refl, IH.
Qed.

Lemma str_eqb_eq (a b : str) : str_eqb a b = true <-> a = b.
Proof.
  split.
  - revert b; induction a as [|x a IH]; intros [|y b] H; simpl in H;
      try discriminate; [reflexivity|].
    apply andb_true_iff in H as [Hxy Hab].
    apply N.eqb_eq in Hxy. apply IH in Hab. now subst.
  - intros ->. apply str_eqb_refl.
Qed.

Lemma str_eqb_neq (a b : str) : str_eqb a b = false <-> a <> b.
Proof.
  rewrite <- str_eqb_eq. destruct (str_eqb a b); split; congruence.
Qed.

Lemma truthy_true {A : Type} (l : list A) : truthy l = true <-> l <> [].
Proof. destruct l; simpl; split; congruence. Qed.

Lemma dict_set_fresh (d : dict) (k v : str) :
  ~ In k (map fst d) -> dict_set d k v = d ++ [(k, v)].
Proof.
  induction d as [|[k' v'] d IH]; simpl; intros Hk; [reflexivity|].
  destruct (str_eqb k' k) eqn:E.
  - apply str_eqb_eq in E. tauto.
  - rewrite IH; tauto.
Qed.

Lemma dict_set_keys (d : dict) (k v : str) :
  In k (map fst d) -> map fst (dict_set d k v) = map fst d.
Proof.
  induction d as [|[k' v'] d IH]; simpl; intros Hk; [tauto|].
  destruct (str_eqb k' k) eqn:E; simpl; [reflexivity|].
  apply str_eqb_neq in E. f_equal. apply IH. tauto.
Qed.

Lemma dict_set_NoDup (d : dict) (k v : str) :
  NoDup (map fst d) -> NoDup (map fst (dict_set d k v)).
Proof.
  intros Hd. destruct (in_dec (list_eq_dec N.eq_dec) k (map fst d)) as [Hin|Hout].
  - now rewrite dict_set_keys.
  - rewrite dict_set_fresh by assumption. rewrite map_app. simpl.
    apply NoDup_app; [assumption|repeat constructor; tauto|].
    intros x Hx [<-|[]]. tauto.
Qed.

Lemma dict_get_set_same (d : dict) (k v : str) : dict_get (dict_set d k v) k = Some v.
Proof.
  induction d as [|[k' v'] d IH]; simpl.
  - now rewrite str_eqb_refl.
  - destruct (str_eqb k' k) eqn:E; simpl; rewrite E; [reflexivity|exact IH].
Qed.

Lemma dict_get_set_other (d : dict) (k k' v : str) :
  k <> k' -> dict_get (dict_set d k v) k' = dict_get d k'.
Proof.
  intros Hk. induction d as [|[k0 v0] d IH]; simpl.
  - apply str_eqb_neq in Hk. now rewrite Hk.
  - destruct (str_eqb k0 k) eqn:E; simpl.
    + apply str_eqb_eq in E. subst k0.
      apply str_eqb_neq in Hk. now rewrite Hk.
    + now rewrite IH.
Qed.

Lemma dict_get_In {V : Type} (d : list (str * V)) (k : str) (v : V) :
  dict_get d k = Some v -> In (k, v) d.
Proof.
  induction d as [|[k' v'] d IH]; simpl; [discriminate|].
  destruct (str_eqb k' k) eqn:E.
  - apply str_eqb_eq in E. intros [= ->]. now left; subst.
  - intros H. right. now apply IH.
Qed.

Lemma In_dict_get {V : Type} (d : list (str * V)) (k : str) (v : V) :
  NoDup (map fst d) -> In (k, v) d -> dict_get d k = Some v.
Proof.
  induction d as [|[k' v'] d IH]; simpl; intros Hd Hin; [tauto|].
  inversion Hd as [|? ? Hnot Hd']; subst.
  destruct Hin as [[= -> ->]|Hin].
  - now rewrite str_eqb_refl.
  - destruct (str_eqb k' k) eqn:E.
    + apply str_eqb_eq in E. subst k'.
      exfalso. apply Hnot. now apply (in_map fst) in Hin.
    + now apply IH.
Qed.

Lemma filter_none {A : Type} (f : A -> bool) (l : list A) :
  (forall x, In x l -> f x = false) -> filter f l = [].
Proof.
  induction l as [|x l IH]; simpl; intros H; [reflexivity|].
  rewrite (H x) by now left. apply IH. intros y Hy. apply H. now right.
Qed.

Lemma entries_for_absent (d : dict) (k : str) :
  ~ In k (map fst d) -> entries_for k d = [].
Proof.
  intros Hk. apply filter_none. intros [k' v'] Hin. simpl.
  apply str_eqb_neq. intros ->. apply Hk. now apply (in_map fst) in Hin.
Qed.

Lemma entries_for_unique (d : dict) (k v : str) :
  NoDup (map fst d) -> In (k, v) d -> entries_for k d = [(k, v)].
Proof.
  induction d as [|[k' v'] d IH]; simpl; intros Hd Hin; [tauto|].
  inversion Hd as [|? ? Hnot Hd']; subst.
  destruct Hin as [[= -> ->]|Hin].
  - unfold entries_for. simpl. rewrite str_eqb_refl. f_equal.
    now apply entries_for_absent.
  - unfold entries_for. simpl. destruct (str_eqb k' k) eqn:E.
    + apply str_eqb_eq in E. subst k'.
      exfalso. apply Hnot. now apply (in_map fst) in Hin.
    + now apply IH.
Qed.

(** ** The section parser *)

Lemma commit_blank (d : dict) (ls : list str) : commit d ([], ls) = d.
Proof. reflexivity. Qed.

Lemma commit_titled (d : dict) (t : str) (ls : list str) :
  t <> [] -> commit d (t, ls) = dict_set d t (section_body ls).
Proof.
  intros Ht. unfold commit, flush. simpl.
  destruct t; [congruence|reflexivity].
Qed.

(** The loop stores the open section, then one block after the other. *)
Lemma parse_loop (level : nat) (lines : list str) (st : parse_state) :
  flush (fold_left (parse_line level) lines st)
  = fold_left commit (section_blocks level lines)
      (commit (sections st)
         (current_title st, current_lines st ++ body_lines level lines)).
Proof.
  revert st. induction lines as [|l rest IH]; intros st; simpl.
  - rewrite app_nil_r. reflexivity.
  - rewrite IH. unfold parse_line.
    destruct (re_match_heading level l) as [g|]; simpl.
    + rewrite app_nil_r. reflexivity.
    + rewrite <- app_assoc. reflexivity.
Qed.

Lemma parse_sections_blocks (content : str) (level : nat) :
  _parse_sections content level
  = fold_left commit (section_blocks level (splitlines content)) [].
Proof.
  unfold _parse_sections. rewrite parse_loop. reflexivity.
Qed.

Lemma commit_all_distinct (hs : list (str * list str)) (d : dict) :
  NoDup (map fst d ++ map fst hs) ->
  Forall (fun h => fst h <> []) hs ->
  fold_left commit hs d = d ++ map entry_of hs.
Proof.
  revert d. induction hs as [|[t ls] hs IH]; intros d Hnd Hne; simpl.
  - now rewrite app_nil_r.
  - inversion Hne as [|? ? Ht Hne']; subst. simpl in Ht.
    rewrite commit_titled by assumption.
    rewrite dict_set_fresh.
    + rewrite IH; [now rewrite <- app_assoc| |assumption].
      rewrite map_app. simpl. rewrite <- app_assoc. exact Hnd.
    + intros Hin. simpl in Hnd. apply NoDup_remove_2 in Hnd.
      apply Hnd. apply in_or_app. now left.
Qed.

Lemma section_blocks_cover (lines : list str) :
  lines = body_lines 2 lines ++ concat (map snd (section_blocks 2 lines)).
Proof.
  induction lines as [|l rest IH]; simpl; [reflexivity|].
  destruct (re_match_heading 2 l); simpl; f_equal; exact IH.
Qed.

Lemma body_lines_plain (lines : list str) : Forall plain_line (body_lines 2 lines).
Proof.
  induction lines as [|l rest IH]; simpl; [constructor|].
  destruct (re_match_heading 2 l) eqn:E; constructor; assumption.
Qed.

Lemma section_blocks_well_cut (lines : list str) :
  Forall well_cut (section_blocks 2 lines).
Proof.
  induction lines as [|l rest IH]; simpl; [constructor|].
  destruct (re_match_heading 2 l) as [g|] eqn:E; [|exact IH].
  constructor; [|exact IH].
  exists l, g, (body_lines 2 rest). repeat split; try assumption.
  apply body_lines_plain.
Qed.

Lemma strip_prefix_startswith (p s : str) :
  strip_prefix p s = None <-> startswith p s = false.
Proof.
  revert s; induction p as [|x p IH]; intros [|y s]; simpl;
    try (split; congruence).
  destruct (N.eqb x y); simpl; [apply IH|tauto].
Qed.

Lemma startswith_split (p s : str) :
  startswith p s = true <-> exists r, s = p ++ r.
Proof.
  revert s; induction p as [|x p IH]; intros s; simpl.
  - split; [now exists s|reflexivity].
  - destruct s as [|y s].
    + split; [discriminate|intros [r Hr]; discriminate].
    + rewrite andb_true_iff, N.eqb_eq, IH. split.
      * intros [-> [r ->]]. now exists r.
      * intros [r [= -> ->]]. split; [reflexivity|now exists r].
Qed.

(** A heading of level 3 or deeper is no boundary at level 2. *)
Lemma deeper_heading_plain (l : str) :
  startswith (lit "###") l = true -> plain_line l.
Proof.
  intros H. apply startswith_split in H as [r ->]. reflexivity.
Qed.

Lemma strip_prefix_Some (p s rest : str) :
  strip_prefix p s = Some rest -> s = p ++ rest.
Proof.
  revert s; induction p as [|x p IH]; intros [|y s]; simpl; try congruence.
  destruct (N.eqb_spec x y); [|discriminate].
  intros H. apply IH in H. now subst.
Qed.

Lemma dot_run_spec (s g r : str) :
  dot_run s = (g, r) ->
  s = g ++ r /\ Forall no_lf g /\ (r = [] \/ exists r', r = 10%N :: r').
Proof.
  revert g r; induction s as [|c s IH]; intros g r; simpl.
  - intros [= <- <-]. repeat split; [constructor|now left].
  - destruct (N.eqb_spec c 10).
    + intros [= <- <-]. subst c. repeat split; [constructor|right; now exists s].
    + destruct (dot_run s) as [g0 r0]. intros [= <- <-].
      destruct (IH g0 r0 eq_refl) as (-> & Hg & Hr).
      repeat split; [|exact Hr].
      constructor; [now apply N.eqb_neq|exact Hg].
Qed.

Lemma dot_run_stop (g r : str) :
  Forall no_lf g -> dot_run (g ++ 10%N :: r) = (g, 10%N :: r).
Proof.
  induction 1 as [|c g Hc Hg IH]; simpl; [reflexivity|].
  unfold no_lf in Hc. now rewrite Hc, IH.
Qed.

Lemma dot_run_all (g : str) : Forall no_lf g -> dot_run g = (g, []).
Proof.
  induction 1 as [|c g Hc Hg IH]; simpl; [reflexivity|].
  unfold no_lf in Hc. now rewrite Hc, IH.
Qed.

Lemma heading_inv (hd g : str) :
  re_match_heading 2 hd = Some g ->
  exists r, hd = lit "## " ++ g ++ r /\ Forall no_lf g /\ g <> []
            /\ (r = [] \/ r = nl).
Proof.
  unfold re_match_heading. intros H.
  destruct (strip_prefix (repeat 35%N 2 ++ [32%N]) hd) as [rest|] eqn:E;
    [|discriminate].
  apply strip_prefix_Some in E.
  destruct (dot_run rest) as [g0 r] eqn:D.
  destruct (truthy g0 && (str_eqb r [] || str_eqb r nl)) eqn:C; [|discriminate].
  injection H as ->.
  apply andb_true_iff in C as [Cg Cr].
  apply dot_run_spec in D as (-> & Hg & _).
  exists r. repeat split; try assumption.
  - now apply truthy_true.
  - apply orb_true_iff in Cr as [Cr|Cr]; apply str_eqb_eq in Cr; tauto.
Qed.

(** *** Trimming *)

Arguments isspace : simpl never.

Lemma rstrip_cons (c : char) (s : str) :
  rstrip s <> [] -> rstrip (c :: s) = c :: rstrip s.
Proof. simpl. destruct (rstrip s); congruence. Qed.

Lemma rstrip_app_keep (a b : str) : rstrip b <> [] -> rstrip (a ++ b) = a ++ rstrip b.
Proof.
  intros Hb. induction a as [|c a IH]; [reflexivity|].
  simpl app. rewrite rstrip_cons; rewrite IH; [reflexivity|].
  destruct a; simpl; [assumption|discriminate].
Qed.

Lemma rstrip_app_drop (a b : str) : rstrip b = [] -> rstrip (a ++ b) = rstrip a.
Proof.
  intros Hb. induction a as [|c a IH]; simpl; [assumption|]. now rewrite IH.
Qed.

Lemma rstrip_In (s : str) (c : char) : In c (rstrip s) -> In c s.
Proof.
  revert c; induction s as [|x s IH]; simpl; intros c; [tauto|].
  destruct (rstrip s) as [|y r] eqn:E.
  - destruct (isspace x); simpl; tauto.
  - simpl. intros [->|H]; [now left|right; apply IH; exact H].
Qed.

Lemma rstrip_idem (s : str) : rstrip (rstrip s) = rstrip s.
Proof.
  induction s as [|x s IH]; simpl; [reflexivity|].
  destruct (rstrip s) as [|y r] eqn:E.
  - destruct (isspace x) eqn:Hx; simpl; [reflexivity|now rewrite Hx].
  - rewrite rstrip_cons; rewrite IH; [reflexivity|discriminate].
Qed.

Lemma rstrip_nil_lstrip (s : str) : rstrip s = [] -> lstrip s = [].
Proof.
  induction s as [|x s IH]; simpl; [reflexivity|].
  destruct (rstrip s) eqn:E; [|discriminate].
  destruct (isspace x); [intros _; now apply IH|discriminate].
Qed.

Lemma lstrip_rstrip (s : str) : lstrip (rstrip s) = rstrip (lstrip s).
Proof.
  induction s as [|x s IH]; simpl; [reflexivity|].
  destruct (rstrip s) as [|y r] eqn:E.
  - destruct (isspace x) eqn:Hx; simpl.
    + rewrite rstrip_nil_lstrip by assumption. reflexivity.
    + now rewrite E.
  - cbn [lstrip]. destruct (isspace x) eqn:Hx.
    + exact IH.
    + simpl. now rewrite E.
Qed.

Lemma strip_rstrip (s : str) : strip (rstrip s) = strip s.
Proof. unfold strip. now rewrite lstrip_rstrip, rstrip_idem. Qed.

Lemma strip_nonempty_rstrip (s : str) : strip s <> [] -> rstrip s <> [].
Proof.
  unfold strip. intros H E. apply rstrip_nil_lstrip in E.
  now rewrite E in H.
Qed.

Lemma title_of_stripped (g T : str) :
  Forall no_lf g -> strip g <> [] -> (T = [] \/ exists T', T = 10%N :: T') ->
  title_of (strip (lit "## " ++ g ++ T)) = strip g.
Proof.
  intros Hg Hne HTshape.
  assert (Hg' : rstrip g <> []) by now apply strip_nonempty_rstrip.
  unfold title_of. unfold strip at 2.
  change (lstrip (lit "## " ++ g ++ T)) with (lit "## " ++ g ++ T).
  destruct (rstrip T) as [|t0 T0] eqn:ET.
  - rewrite rstrip_app_keep by (rewrite rstrip_app_drop by assumption; assumption).
    rewrite rstrip_app_drop by assumption.
    change (skipn 3 (lit "## " ++ rstrip g)) with (rstrip g).
    rewrite dot_run_all.
    + apply strip_rstrip.
    + apply Forall_forall. intros c Hc. apply rstrip_In in Hc.
      now apply (proj1 (Forall_forall _ _) Hg).
  - assert (HTne : rstrip T <> []) by (rewrite ET; discriminate).
    destruct HTshape as [->|[T' ->]]; [discriminate|].
    rewrite rstrip_app_keep.
    2:{ rewrite rstrip_app_keep by assumption.
        intros H. apply app_eq_nil in H as [_ H]. contradiction. }
    rewrite rstrip_app_keep by assumption.
    assert (E10 : rstrip (10%N :: T') = 10%N :: rstrip T').
    { apply rstrip_cons. intros E. simpl in ET. rewrite E in ET.
      discriminate. }
    rewrite E10.
    change (skipn 3 (lit "## " ++ g ++ 10%N :: rstrip T')) with (g ++ 10%N :: rstrip T').
    now rewrite dot_run_stop.
Qed.

Lemma join_cons_shape (x : str) (rest : list str) :
  exists T, join nl (x :: rest) = x ++ T /\ (T = [] \/ exists T', T = 10%N :: T').
Proof.
  destruct rest as [|l rest].
  - exists []. split; [now rewrite app_nil_r|now left].
  - exists (nl ++ join nl (l :: rest)). split; [reflexivity|].
    right. eexists. reflexivity.
Qed.

(** The title can be read back from a stored body: entries of different
    titles have different bodies. *)
Lemma body_title (h : str * list str) :
  well_cut h -> fst h <> [] -> title_of (section_body (snd h)) = fst h.
Proof.
  intros (hd & g & rest & Hs & Hm & Ht & _) Hne. rewrite Hs, Ht. rewrite Ht in Hne.
  apply heading_inv in Hm as (r & Hhd & Hg & _ & Hr).
  destruct (join_cons_shape hd rest) as (T & HT & HTshape).
  unfold section_body. rewrite HT, Hhd.
  assert (Hshape : r ++ T = [] \/ exists T', r ++ T = 10%N :: T').
  { destruct Hr as [->| ->]; [exact HTshape|right; now exists T]. }
  pose proof (title_of_stripped g (r ++ T) Hg Hne Hshape) as H.
  rewrite <- H. f_equal. f_equal. now rewrite <- !app_assoc.
Qed.

(** *** What the mapping holds after the blocks are stored *)

Lemma last_opt_snoc {A : Type} (l : list A) (x : A) : last_opt (l ++ [x]) = Some x.
Proof. unfold last_opt. now rewrite rev_unit. Qed.

Lemma last_opt_split {A : Type} (l : list A) (x : A) :
  last_opt l = Some x -> exists l', l = l' ++ [x].
Proof.
  unfold last_opt. destruct (rev l) as [|y r] eqn:E; [discriminate|].
  intros [= ->]. exists (rev r).
  rewrite <- (rev_involutive l), E. reflexivity.
Qed.

Lemma occurrences_snoc (t : str) (hs : list (str * list str)) (h : str * list str) :
  occurrences t (hs ++ [h])
  = occurrences t hs ++ (if str_eqb (fst h) t then [snd h] else []).
Proof.
  unfold occurrences. rewrite filter_app, map_app. simpl.
  now destruct (str_eqb (fst h) t).
Qed.

Lemma commit_NoDup (d : dict) (h : str * list str) :
  NoDup (map fst d) -> NoDup (map fst (commit d h)).
Proof.
  intros Hd. destruct h as [[|c t] ls]; [exact Hd|].
  rewrite commit_titled by discriminate. now apply dict_set_NoDup.
Qed.

Lemma commit_lookup_other (d : dict) (h : str * list str) (t : str) :
  fst h <> t -> dict_get (commit d h) t = dict_get d t.
Proof.
  intros Hne. destruct h as [[|c k] ls]; [reflexivity|].
  rewrite commit_titled by discriminate. now apply dict_get_set_other.
Qed.

Lemma commit_all_NoDup (hs : list (str * list str)) (d : dict) :
  NoDup (map fst d) -> NoDup (map fst (fold_left commit hs d)).
Proof.
  revert d; induction hs as [|h hs IH]; intros d Hd; simpl; [exact Hd|].
  apply IH. now apply commit_NoDup.
Qed.

(** Under a title, the mapping holds the body of the last block of that
    title. *)
Lemma commit_all_lookup (hs : list (str * list str)) (d : dict) (t : str) :
  t <> [] ->
  dict_get (fold_left commit hs d) t
  = match last_opt (occurrences t hs) with
    | Some ls => Some (section_body ls)
    | None => dict_get d t
    end.
Proof.
  intros Ht. induction hs as [|h hs IH] using rev_ind; [reflexivity|].
  rewrite fold_left_app, occurrences_snoc. simpl fold_left.
  destruct (str_eqb (fst h) t) eqn:E.
  - rewrite last_opt_snoc. apply str_eqb_eq in E.
    destruct h as [k ls]. simpl in E. subst k.
    rewrite commit_titled by assumption. apply dict_get_set_same.
  - rewrite app_nil_r, <- IH. apply commit_lookup_other.
    now apply str_eqb_neq.
Qed.

Lemma In_occurrences (t : str) (hs : list (str * list str)) (ls : list str) :
  In ls (occurrences t hs) <-> In (t, ls) hs.
Proof.
  unfold occurrences. rewrite in_map_iff. split.
  - intros ([k ls'] & <- & Hin). apply filter_In in Hin as [Hin E].
    apply str_eqb_eq in E. simpl in E. now subst.
  - intros Hin. exists (t, ls). split; [reflexivity|].
    apply filter_In. split; [assumption|apply str_eqb_refl].
Qed.

(** Every entry of the parsed mapping is the last block of its title. *)
Lemma parsed_entry_last (content k v : str) :
  In (k, v) (_parse_sections content 2) ->
  k <> [] ->
  exists ls, last_opt (occurrences k (section_blocks 2 (splitlines content))) = Some ls
             /\ v = section_body ls.
Proof.
  intros Hin Hk. rewrite parse_sections_blocks in Hin.
  apply In_dict_get in Hin; [|apply commit_all_NoDup; constructor].
  rewrite commit_all_lookup in Hin by assumption.
  destruct (last_opt _) as [ls|]; [|discriminate].
  exists ls. split; [reflexivity|congruence].
Qed.

Lemma dict_set_key_In (d : dict) (k v : str) (e : str * str) :
  In e (dict_set d k v) -> fst e = k \/ In (fst e) (map fst d).
Proof.
  induction d as [|[k' v'] d IH]; simpl.
  - intros [<-|[]]. now left.
  - destruct (str_eqb k' k) eqn:E; simpl.
    + apply str_eqb_eq in E. subst k'.
      intros [<-|H]; [now left|right; right; now apply (in_map fst) in H].
    + intros [<-|H]; [right; now left|].
      destruct (IH H); [now left|right; now right].
Qed.

Lemma commit_all_keys (hs : list (str * list str)) (d : dict) :
  Forall (fun e => fst e <> []) d ->
  Forall (fun e => fst e <> []) (fold_left commit hs d).
Proof.
  revert d; induction hs as [|[k ls] hs IH]; intros d Hd; simpl; [exact Hd|].
  apply IH. destruct k as [|c k]; [exact Hd|].
  rewrite commit_titled by discriminate.
  apply Forall_forall. intros e He. cbv beta.
  apply dict_set_key_In in He as [Hk|He];
    [destruct e; simpl in *; subst; discriminate|].
  apply in_map_iff in He as (e' & Hfe & He').
  intros Hn. apply (proj1 (Forall_forall _ _) Hd e' He').
  destruct e, e'; simpl in *; congruence.
Qed.

Lemma parsed_keys_nonempty (content : str) (e : str * str) :
  In e (_parse_sections content 2) -> fst e <> [].
Proof.
  rewrite parse_sections_blocks. intros He.
  pose proof (commit_all_keys (section_blocks 2 (splitlines content)) []
                (Forall_nil _)) as H.
  rewrite Forall_forall in H. exact (H e He).
Qed.

(** ** C8: distinct titles *)

(** C8, as amended: for every document text whose level-2 headings have
    pairwise-distinct titles, none of them blank, parsing at depth 2 yields
    exactly one entry per level-2 heading, in source order; each entry's
    body is its heading line and the lines up to the next level-2 boundary,
    joined by line feeds and trimmed. The lines of the document are the
    lines before the first heading followed by the blocks, so the lines
    before the first heading are in no entry; a line opening with three
    hashes is no boundary, hence ordinary body text. *)
Theorem parse_sections_distinct_titles (content : str) :
  let lines := splitlines content in
  let hs := section_blocks 2 lines in
  NoDup (map fst hs) ->
  Forall (fun h => fst h <> []) hs ->
  _parse_sections content 2 = map entry_of hs
  /\ lines = body_lines 2 lines ++ concat (map snd hs)
  /\ Forall plain_line (body_lines 2 lines)
  /\ Forall well_cut hs
  /\ (forall l, startswith (lit "###") l = true -> plain_line l).
Proof.
  intros lines hs Hnd Hne. repeat split.
  - rewrite parse_sections_blocks. fold lines. fold hs.
    now rewrite commit_all_distinct.
  - apply section_blocks_cover.
  - apply body_lines_plain.
  - apply section_blocks_well_cut.
  - apply deeper_heading_plain.
Qed.

(** ** C1: repeated titles *)

(** C1, as amended: for every document text containing two or more level-2
    headings with the same non-blank title, parsing at depth 2 produces a
    mapping in which that title is present exactly once and maps to the
    body of the last occurrence in source order (heading line included);
    the body of an earlier occurrence, unless it is the very text of the
    last one, is the value of no entry. *)
Theorem parse_sections_last_write_wins (content t : str) :
  let hs := section_blocks 2 (splitlines content) in
  let result := _parse_sections content 2 in
  t <> [] ->
  2 <= length (occurrences t hs) ->
  exists earlier ls,
    occurrences t hs = earlier ++ [ls]
    /\ entries_for t result = [(t, section_body ls)]
    /\ dict_get result t = Some (section_body ls)
    /\ forall ls', In ls' earlier -> section_body ls' <> section_body ls ->
                   ~ In (section_body ls') (map snd result).
Proof.
  intros hs result Ht Hocc.
  destruct (last_opt (occurrences t hs)) as [ls|] eqn:El.
  2:{ unfold last_opt in El. destruct (rev (occurrences t hs)) eqn:Er; [|discriminate].
      apply (f_equal (@length _)) in Er. rewrite length_rev in Er.
      simpl in Er. lia. }
  destruct (last_opt_split _ _ El) as [earlier Hsplit].
  assert (Hget : dict_get result t = Some (section_body ls)).
  { unfold result. rewrite parse_sections_blocks, commit_all_lookup by assumption.
    fold hs. now rewrite El. }
  assert (Hnd : NoDup (map fst result)).
  { unfold result. rewrite parse_sections_blocks. apply commit_all_NoDup. constructor. }
  exists earlier, ls. repeat split; try assumption.
  - apply entries_for_unique; [assumption|now apply dict_get_In].
  - intros ls' Hin Hdiff Hval.
    apply in_map_iff in Hval as ([k v] & Hv & Hkv). simpl in Hv. subst v.
    pose proof (parsed_keys_nonempty _ _ Hkv) as Hk. simpl in Hk.
    destruct (parsed_entry_last _ _ _ Hkv Hk) as (lk & Hlk & Hbody).
    fold hs in Hlk.
    (* both bodies carry their titles *)
    assert (Hcut : Forall well_cut hs) by apply section_blocks_well_cut.
    assert (Ht' : In (t, ls') hs).
    { apply In_occurrences. rewrite Hsplit. apply in_or_app. now left. }
    assert (Hk' : In (k, lk) hs).
    { apply In_occurrences. destruct (last_opt_split _ _ Hlk) as [l' ->].
      apply in_or_app. right. now left. }
    pose proof (body_title _ (proj1 (Forall_forall _ _) Hcut _ Ht') Ht) as B1.
    pose proof (body_title _ (proj1 (Forall_forall _ _) Hcut _ Hk') Hk) as B2.
    simpl in B1, B2. rewrite Hbody in B1. rewrite B2 in B1. subst k.
    rewrite El in Hlk. injection Hlk as <-. now apply Hdiff.
Qed.

(** ** C2: dependency direction *)

Import Checks.


Lemma check_dep_loop (repo_name : str) (repo_tier : Z) (deps : list str)
    (acc : list str * list str) :
  fold_left (check_dep repo_name repo_tier) deps acc
  = (fst acc ++ map (fun d => violation_line repo_name repo_tier d (tier_of d))
                  (filter (violates repo_tier) deps),
     snd acc ++ map (fun d => ok_line d (tier_of d))
                  (filter (conforms repo_tier) deps)).
Proof.
  revert acc; induction deps as [|d deps IH]; intros [bad good]; cbn [fold_left].
  - cbn. now rewrite !app_nil_r.
  - rewrite IH. unfold check_dep, violates, conforms, tier_of. cbn [filter].
    destruct (dict_get _TIERS d) as [t|] eqn:E; [|reflexivity].
    rewrite Z.gtb_ltb.
    destruct (Z.ltb_spec repo_tier t), (Z.leb_spec t repo_tier); try lia;
      cbn [fst snd map]; rewrite E; now rewrite <- app_assoc.
Qed.


(** ** C10 and C4: compliance checks *)

Lemma valid_repo_type_spec (repo_type : str) :
  valid_repo_type repo_type = true <-> In repo_type repo_types.
Proof.
  unfold valid_repo_type, repo_types. rewrite existsb_exists. split.
  - intros (x & Hx & E). apply str_eqb_eq in E. now subst.
  - intros H. exists repo_type. split; [assumption|apply str_eqb_refl].
Qed.








Section Compliance.

Variable fs : filesystem.
Variable REPO_ROOT : Path.
Variable repo : Path.



Hypothesis files_readable : Forall (readable fs) (files_read REPO_ROOT repo).









End Compliance.


(** ** Sorting *)

Import Lookup.

Section SortedFacts.

Variable A : Type.
Variable leb : A -> A -> bool.

Lemma insert_sorted_In (x a : A) (l : list A) :
  In x (insert_sorted leb a l) <-> x = a \/ In x l.
Proof.
  induction l as [|y l IH]; cbn [insert_sorted].
  - cbn. intuition.
  - destruct (leb a y); cbn [In]; [intuition|].
    rewrite IH. intuition.
Qed.

Lemma sorted_In (x : A) (l : list A) : In x (sorted leb l) <-> In x l.
Proof.
  induction l as [|a l IH]; cbn [sorted]; [tauto|].
  rewrite insert_sorted_In, IH. cbn. intuition.
Qed.

Lemma sorted_Forall (P : A -> Prop) (l : list A) :
  Forall P l -> Forall P (sorted leb l).
Proof.
  rewrite !Forall_forall. intros H x Hx. apply H. now apply sorted_In.
Qed.

End SortedFacts.

(** ** C3: the keyword stage of [get_adr] *)

Section GetAdr.

Variable lower : str -> str.
Variable fs : filesystem.
Variable REPO_ROOT : Path.

Lemma read_text_of (p : Path) : can_read fs p -> _read_file fs p = Ok (text_of fs p).
Proof. intros [c E]. unfold _read_file, text_of. now rewrite E. Qed.


End GetAdr.


(** ** C9: a lookup that raises *)

Lemma zfill_long (s : str) (c : char) :
  4 <= length (c :: s) -> N.eqb c 43 = false -> N.eqb c 45 = false ->
  zfill 4 (c :: s) = c :: s.
Proof.
  intros Hlen H1 H2. unfold zfill. rewrite H1, H2. cbn [orb].
  replace (4 - length (c :: s)) with 0 by lia. reflexivity.
Qed.

(** On the in-memory file system, whatever the files, an identifier of
    four characters or more that opens with a slash makes [get_adr] raise:
    the glob pattern of the numeric stage is anchored. *)
Lemma get_adr_anchored_pattern (lower : str -> str) (m : memfs)
    (REPO_ROOT : Path) (identifier rest : str) :
  strip identifier = 47%N :: rest ->
  3 <= length rest ->
  get_adr lower (mem_fs m) REPO_ROOT identifier = Raise NotImplementedError.
Proof.
  intros Hstrip Hlen. unfold get_adr. rewrite Hstrip.
  rewrite zfill_long by (cbn [length]; try lia; reflexivity).
  reflexivity.
Qed.

(** ** C7: section numbers in [get_standard] *)

Lemma digit_run_prefix (isdecimal : char -> bool) (digits rest : str) (c : char) :
  Forall (fun x => isdecimal x = true) digits -> isdecimal c = false ->
  digit_run isdecimal (digits ++ c :: rest) = (digits, c :: rest).
Proof.
  intros Hd Hc. induction Hd as [|x digits Hx Hd IH]; cbn [app digit_run].
  - now rewrite Hc.
  - now rewrite Hx, IH.
Qed.

Lemma re_match_number_numbered (isdecimal : char -> bool) (title digits : str) :
  isdecimal 46%N = false -> numbered isdecimal title digits ->
  re_match_number isdecimal title = Some digits.
Proof.
  intros Hdot (rest & -> & Hne & Hd). unfold re_match_number.
  cbn [app]. rewrite digit_run_prefix by assumption.
  destruct digits; [congruence|reflexivity].
Qed.

Lemma find_first {A : Type} (f : A -> bool) (pre post : list A) (x : A) :
  Forall (fun y => f y = false) pre -> f x = true ->
  find f (pre ++ x :: post) = Some x.
Proof.
  intros Hpre Hx. induction Hpre as [|y pre Hy Hpre IH]; cbn [app find].
  - now rewrite Hx.
  - now rewrite Hy.
Qed.

(** C7, as amended: when the trimmed input is, character for character,
    the digits that open the title of a level-2 section of the standards
    document before a full stop, [get_standard] returns the body of the
    first such section in document order, before and instead of any
    keyword search. *)
Theorem get_standard_by_number (lower : str -> str) (isdecimal : char -> bool)
    (fs : filesystem) (REPO_ROOT : Path) (section content : str)
    (before after : dict) (title body : str) :
  isdecimal 46%N = false ->
  fs_read_text fs (joinpath REPO_ROOT (lit "STANDARDS.md")) = Ok content ->
  _parse_sections content 2 = before ++ (title, body) :: after ->
  numbered isdecimal title (strip section) ->
  Forall (fun e => number_matches isdecimal section e = false) before ->
  get_standard lower isdecimal fs REPO_ROOT section = Ok body.
Proof.
  intros Hdot Hread Hsections Htitle Hbefore.
  unfold get_standard, _read_file. rewrite Hread. cbn [bind].
  rewrite Hsections, find_first with (x := (title, body)); [reflexivity|assumption|].
  unfold number_matches. cbn [fst].
  rewrite (re_match_number_numbered isdecimal title (strip section) Hdot Htitle).
  apply str_eqb_refl.
Qed.

(** ** C5: full-text search *)

Import Search.

Lemma slice_context (lines : list str) (i : nat) (line : str) :
  nth_error lines i = Some line ->
  slice (Nat.max 0 (i - 1)) (Nat.min (length lines) (i + 2)) lines
  = context_lines lines i.
Proof.
  intros Hi. unfold slice, context_lines. cbn [Nat.max].
  destruct i as [|j].
  - destruct lines as [|l [|l' rest]]; [discriminate|reflexivity|].
    cbn [length].
    replace (Nat.min (S (S (length rest))) (0 + 2) - (0 - 1)) with 2 by lia.
    reflexivity.
  - replace (S j - 1) with j by lia.
    destruct (nth_error_split lines (S j) Hi) as (pre & post & Hsplit & Hlen).
    destruct pre as [|a pre] using rev_ind; [discriminate|]. clear IHpre.
    rewrite length_app in Hlen. cbn [length] in Hlen.
    assert (Hj : length pre = j) by lia.
    assert (E : lines = pre ++ a :: line :: post).
    { rewrite Hsplit, <- app_assoc. reflexivity. }
    rewrite E.
    replace (nth_error (pre ++ a :: line :: post) j) with (Some a).
    2:{ rewrite nth_error_app2 by lia. now replace (j - length pre) with 0 by lia. }
    replace (nth_error (pre ++ a :: line :: post) (S j)) with (Some line).
    2:{ rewrite nth_error_app2 by lia. now replace (S j - length pre) with 1 by lia. }
    replace (nth_error (pre ++ a :: line :: post) (S (S j))) with (nth_error post 0).
    2:{ rewrite nth_error_app2 by lia. now replace (S (S j) - length pre) with 2 by lia. }
    rewrite skipn_app, skipn_all2 by lia.
    replace (j - length pre) with 0 by lia. cbn [skipn app].
    rewrite length_app. cbn [length].
    destruct post as [|b post]; cbn [length nth_error opt_list app].
    + replace (Nat.min (length pre + 2) (S j + 2) - j) with 2 by lia. reflexivity.
    + replace (Nat.min (length pre + S (S (S (length post)))) (S j + 2) - j)
        with 3 by lia.
      reflexivity.
Qed.

Section SearchFacts.

Variable lower : str -> str.
Variable fs : filesystem.
Variable REPO_ROOT : Path.
Variable query : str.

Lemma excerpt_block_text (rel : Path) (lines : list str) (i : nat) (line : str) :
  nth_error lines i = Some line ->
  excerpt_block rel lines i = excerpt_text rel lines i.
Proof.
  intros Hi. unfold excerpt_block, excerpt_text.
  rewrite (slice_context lines i line Hi).
  now replace (i + 1) with (S i) by lia.
Qed.

Lemma first_excerpt_spec (rel : Path) (done todo : list str) :
  no_hit lower query done ->
  let lines := done ++ todo in
  (first_excerpt lower (lower query) rel lines (length done) todo = []
   /\ no_hit lower query lines)
  \/ exists i, first_hit lower query lines i
               /\ first_excerpt lower (lower query) rel lines (length done) todo
                  = [excerpt_text rel lines i].
Proof.
  revert done. induction todo as [|line todo IH]; intros done Hdone lines.
  - left. split; [reflexivity|]. unfold lines. now rewrite app_nil_r.
  - cbn [first_excerpt].
    assert (Hnth : nth_error lines (length done) = Some line).
    { unfold lines. rewrite nth_error_app2 by lia.
      now rewrite Nat.sub_diag. }
    destruct (contains (lower query) (lower line)) eqn:E.
    + right. exists (length done). split.
      * split; [now exists line|].
        intros j l Hj Hl. unfold lines in Hl. rewrite nth_error_app1 in Hl by lia.
        apply nth_error_In in Hl.
        exact (proj1 (Forall_forall _ _) Hdone l Hl).
      * f_equal. now apply excerpt_block_text with (line := line).
    + specialize (IH (done ++ [line])).
      assert (Hdone' : no_hit lower query (done ++ [line])).
      { apply Forall_app. split; [exact Hdone|now constructor]. }
      specialize (IH Hdone'). cbn zeta in IH.
      rewrite length_app in IH. cbn [length] in IH.
      replace (length done + 1) with (S (length done)) in IH by lia.
      rewrite <- app_assoc in IH. exact IH.
Qed.

Lemma search_scan_contributes (files : list Path) :
  Forall (readable fs) files ->
  Forall (fun p => exists rel, relative_to p REPO_ROOT = Ok rel) files ->
  exists per_file,
    Forall2 (contributes lower fs REPO_ROOT query) files per_file
    /\ search_scan lower fs REPO_ROOT (lower query) files = Ok (concat per_file).
Proof.
  intros Hread Hrel. induction files as [|p files IH].
  - exists []. split; [constructor|reflexivity].
  - inversion Hread as [|? ? Hp Hread']; subst.
    inversion Hrel as [|? ? [rel Hprel] Hrel']; subst.
    destruct (IH Hread' Hrel') as (per_file & Hall & Hscan).
    cbn [search_scan]. unfold contributes at 1.
    destruct (fs_exists fs p) eqn:Hex; cbn [negb].
    + destruct (Hp Hex) as [content Hcontent].
      assert (Htext : text_of fs p = content) by (unfold text_of; now rewrite Hcontent).
      unfold _read_file. rewrite Hcontent. cbn [bind].
      destruct (contains (lower query) (lower content)) eqn:Hm; cbn [negb].
      * rewrite Hprel, Hscan. cbn [bind].
        destruct (first_excerpt_spec rel [] (splitlines content) (Forall_nil _))
          as [[Hnone Hno]|(i & Hfirst & Hone)]; cbn [length app] in *.
        -- exists ([] :: per_file). split; [|now rewrite Hnone].
           constructor; [|exact Hall]. unfold contributes. rewrite Hex.
           exists rel. split; [exact Hprel|]. rewrite Htext.
           left. split; [reflexivity|now right].
        -- exists ([excerpt_text rel (splitlines content) i] :: per_file).
           split; [|now rewrite Hone].
           constructor; [|exact Hall]. unfold contributes. rewrite Hex.
           exists rel. split; [exact Hprel|]. rewrite Htext.
           right. split; [unfold mentions; now rewrite Htext|].
           exists i. now split.
      * exists ([] :: per_file). split; [|exact Hscan].
        constructor; [|exact Hall]. unfold contributes. rewrite Hex.
        exists rel. split; [exact Hprel|].
        left. split; [reflexivity|left]. unfold mentions. now rewrite Htext.
    + exists ([] :: per_file). split; [|exact Hscan].
      constructor; [|exact Hall]. unfold contributes. now rewrite Hex.
Qed.



End SearchFacts.

Lemma strip_parts_app (base rest : list str) : strip_parts base (base ++ rest) = Some rest.
Proof.
  induction base as [|b base IH]; cbn [app strip_parts]; [reflexivity|].
  now rewrite str_eqb_refl.
Qed.

Lemma relative_to_below (root : Path) (rel : list str) :
  relative_to {| anchor := anchor root; parts := parts root ++ rel |} root
  = Ok {| anchor := false; parts := rel |}.
Proof.
  unfold relative_to. cbn [anchor parts].
  now rewrite Bool.eqb_reflx, strip_parts_app.
Qed.

Lemma glob_children (fs : filesystem) (d : Path) (pattern : str) (paths : list Path) :
  glob fs d pattern = Ok paths ->
  Forall (fun p => exists rel, p = child d rel) paths.
Proof.
  unfold glob. destruct (fs_glob fs d pattern) as [rels|]; [|discriminate].
  cbn [bind]. intros [= <-]. apply Forall_forall. intros p Hp.
  apply in_map_iff in Hp as (rel & <- & _). now exists rel.
Qed.

Lemma search_list_below (fs : filesystem) (REPO_ROOT : Path) (records : list Path) :
  glob fs (_adrs_dir REPO_ROOT) (lit "[0-9]*.md") = Ok records ->
  Forall (fun p => exists rel, relative_to p REPO_ROOT = Ok rel)
    (search_list REPO_ROOT records).
Proof.
  intros Hglob. unfold search_list. apply Forall_app. split.
  - repeat constructor; eexists;
      [apply relative_to_below|apply relative_to_below|].
    change (joinpath (joinpath REPO_ROOT (lit "templates")) (lit "README.md"))
      with {| anchor := anchor REPO_ROOT;
              parts := (parts REPO_ROOT ++ [lit "templates"]) ++ [lit "README.md"] |}.
    rewrite <- app_assoc. apply relative_to_below.
  - apply sorted_Forall.
    eapply Forall_impl; [|exact (glob_children fs _ _ records Hglob)].
    intros p [rel ->]. eexists.
    change (child (_adrs_dir REPO_ROOT) rel)
      with {| anchor := anchor REPO_ROOT;
              parts := (parts REPO_ROOT ++ [lit "adrs"]) ++ rel |}.
    rewrite <- app_assoc. apply relative_to_below.
Qed.


(** ** C6: the number of a proposed record *)

Import Records.

Lemma str_leb_refl (a : str) : str_leb a a = true.
Proof.
  induction a as [|x a IH]; cbn [str_leb]; [reflexivity|].
  now rewrite N.eqb_refl, IH, orb_true_r.
Qed.

Lemma str_leb_total (a b : str) : str_leb a b = true \/ str_leb b a = true.
Proof.
  revert b; induction a as [|x a IH]; intros [|y b]; cbn [str_leb]; auto.
  destruct (N.ltb_spec x y); [now left|].
  destruct (N.ltb_spec y x); [now right|].
  assert (x = y) by lia. subst y. rewrite N.eqb_refl. cbn [orb andb]. apply IH.
Qed.

Lemma str_leb_trans (a b c : str) :
  str_leb a b = true -> str_leb b c = true -> str_leb a c = true.
Proof.
  revert b c; induction a as [|x a IH]; intros [|y b] [|z c]; cbn [str_leb];
    try discriminate; auto.
  intros H1 H2.
  apply orb_true_iff in H1 as [H1|H1]; apply orb_true_iff in H2 as [H2|H2];
    repeat match goal with
           | H : (_ && _)%bool = true |- _ => apply andb_true_iff in H as [? ?]
           | H : N.ltb _ _ = true |- _ => apply N.ltb_lt in H
           | H : N.eqb _ _ = true |- _ => apply N.eqb_eq in H; subst
           end.
  - apply orb_true_iff. left. apply N.ltb_lt. lia.
  - apply orb_true_iff. left. now apply N.ltb_lt.
  - apply orb_true_iff. left. now apply N.ltb_lt.
  - apply orb_true_iff. right. rewrite N.eqb_refl. cbn [andb]. eauto.
Qed.

Section SortedOrder.

Variable A : Type.
Variable leb : A -> A -> bool.
Hypothesis leb_total : forall a b, leb a b = true \/ leb b a = true.
Hypothesis leb_trans : forall a b c, leb a b = true -> leb b c = true -> leb a c = true.

Lemma insert_sorted_strongly (x : A) (l : list A) :
  StronglySorted (le_by leb) l -> StronglySorted (le_by leb) (insert_sorted leb x l).
Proof.
  induction 1 as [|y l Hl IH Hy]; cbn [insert_sorted].
  - repeat constructor.
  - destruct (leb x y) eqn:E.
    + constructor; [now constructor|].
      constructor; [exact E|].
      eapply Forall_impl; [|exact Hy]. intros z Hz. exact (leb_trans x y z E Hz).
    + constructor; [exact IH|].
      apply Forall_forall. intros z Hz. apply insert_sorted_In in Hz as [->|Hz].
      * destruct (leb_total x y) as [H|H]; [congruence|exact H].
      * exact (proj1 (Forall_forall _ _) Hy z Hz).
Qed.

Lemma sorted_strongly (l : list A) : StronglySorted (le_by leb) (sorted leb l).
Proof.
  induction l as [|x l IH]; cbn [sorted]; [constructor|].
  now apply insert_sorted_strongly.
Qed.

Lemma strongly_sorted_last (l : list A) (m : A) :
  StronglySorted (le_by leb) (l ++ [m]) -> Forall (fun y => (le_by leb) y m) l.
Proof.
  induction l as [|a l IH]; cbn [app]; intros H; [constructor|].
  inversion H as [|? ? Hl Ha]; subst. constructor; [|now apply IH].
  apply (proj1 (Forall_forall _ _) Ha). apply in_or_app. right. now left.
Qed.

(** The last element of a sorted list is one of the list and bounds it. *)
Lemma sorted_last_max (l : list A) (m : A) :
  last_opt (sorted leb l) = Some m ->
  In m l /\ Forall (fun y => leb y m = true) l.
Proof.
  intros Hlast. destruct (last_opt_split _ _ Hlast) as [l' Hsplit].
  assert (Hm : In m l).
  { apply (proj1 (sorted_In _ leb _ _)). rewrite Hsplit.
    apply in_or_app. right. now left. }
  split; [exact Hm|].
  pose proof (sorted_strongly l) as Hs. rewrite Hsplit in Hs.
  apply strongly_sorted_last in Hs.
  apply Forall_forall. intros y Hy. apply (proj2 (sorted_In _ leb _ _)) in Hy.
  rewrite Hsplit in Hy. apply in_app_or in Hy as [Hy|[<-|[]]].
  - exact (proj1 (Forall_forall _ _) Hs y Hy).
  - destruct (leb_total m m); assumption.
Qed.

End SortedOrder.

Lemma insert_sorted_map {A B : Type} (f : A -> B) (leA : A -> A -> bool)
    (leB : B -> B -> bool) (x : A) (l : list A) :
  (forall a b, leB (f a) (f b) = leA a b) ->
  insert_sorted leB (f x) (map f l) = map f (insert_sorted leA x l).
Proof.
  intros H. induction l as [|y l IH]; cbn [map insert_sorted]; [reflexivity|].
  rewrite H. destruct (leA x y); cbn [map]; [reflexivity|]. now rewrite IH.
Qed.

Lemma sorted_map {A B : Type} (f : A -> B) (leA : A -> A -> bool)
    (leB : B -> B -> bool) (l : list A) :
  (forall a b, leB (f a) (f b) = leA a b) ->
  sorted leB (map f l) = map f (sorted leA l).
Proof.
  intros H. induction l as [|x l IH]; cbn [map sorted]; [reflexivity|].
  rewrite IH. now apply insert_sorted_map.
Qed.

Lemma last_opt_map {A B : Type} (f : A -> B) (l : list A) :
  last_opt (map f l) = option_map f (last_opt l).
Proof.
  unfold last_opt. rewrite <- map_rev. now destruct (rev l).
Qed.

(** *** Entries of one directory sort by name *)

Lemma parts_leb_prefix (k a b : list str) :
  parts_leb (k ++ a) (k ++ b) = parts_leb a b.
Proof.
  induction k as [|x k IH]; cbn [app parts_leb]; [reflexivity|].
  now rewrite str_eqb_refl.
Qed.

Lemma path_leb_entries (d : Path) (a b : str) :
  path_leb (child d [a]) (child d [b]) = str_leb a b.
Proof.
  unfold path_leb, sort_key, child. cbn [anchor parts].
  rewrite !app_assoc, parts_leb_prefix. cbn [parts_leb].
  destruct (str_eqb a b) eqn:E; [|reflexivity].
  apply str_eqb_eq in E. subst b. symmetry. apply str_leb_refl.
Qed.

Lemma name_entry (d : Path) (n : str) : name (child d [n]) = n.
Proof. unfold name, child. cbn [parts]. apply last_last. Qed.

(** *** Digits *)

Lemma digit_not_space (c : char) : is_ascii_digit c = true -> isspace c = false.
Proof.
  unfold is_ascii_digit, isspace. intros H.
  apply andb_true_iff in H as [H1 H2].
  apply N.leb_le in H1. apply N.leb_le in H2.
  repeat match goal with
         | |- context [N.leb ?a ?b] => destruct (N.leb_spec a b); try lia
         | |- context [N.eqb ?a ?b] => destruct (N.eqb_spec a b); try lia
         end;
    try reflexivity.
Qed.

Lemma rstrip_no_space (s : str) :
  Forall (fun c => isspace c = false) s -> rstrip s = s.
Proof.
  induction 1 as [|c s Hc Hs IH]; cbn [rstrip]; [reflexivity|].
  rewrite IH. destruct s; [now rewrite Hc|reflexivity].
Qed.

Lemma strip_digits (d : str) : ascii_digits d -> strip d = d.
Proof.
  intros Hd. unfold strip.
  assert (Hs : Forall (fun c => isspace c = false) d).
  { eapply Forall_impl; [|exact Hd]. apply digit_not_space. }
  replace (lstrip d) with d; [now apply rstrip_no_space|].
  destruct Hs as [|c s Hc Hs]; cbn [lstrip]; [reflexivity|now rewrite Hc].
Qed.

Lemma int_digits_value (d : str) (acc : Z) (after_digit : bool) :
  ascii_digits d -> d <> [] \/ after_digit = true ->
  int_digits acc after_digit d
  = Some (fold_left (fun acc c => (10 * acc + Z.of_N (c - 48))%Z) d acc).
Proof.
  intros Hd. revert acc after_digit.
  induction Hd as [|c d Hc Hd IH]; intros acc after_digit Hne; cbn [int_digits fold_left].
  - destruct Hne as [Hne| ->]; [congruence|reflexivity].
  - rewrite Hc. apply IH. now right.
Qed.

Lemma int_of_digits (d : str) :
  ascii_digits d -> d <> [] -> int d = Ok (digits_value d).
Proof.
  intros Hd Hne. unfold int. rewrite (strip_digits d Hd).
  destruct d as [|c d]; [congruence|].
  inversion Hd as [|? ? Hc Hd']; subst.
  assert (H43 : N.eqb c 43 = false).
  { unfold is_ascii_digit in Hc. apply andb_true_iff in Hc as [H1 _].
    apply N.leb_le in H1. apply N.eqb_neq. lia. }
  assert (H45 : N.eqb c 45 = false).
  { unfold is_ascii_digit in Hc. apply andb_true_iff in Hc as [H1 _].
    apply N.leb_le in H1. apply N.eqb_neq. lia. }
  rewrite H43, H45.
  now rewrite (int_digits_value (c :: d) 0 false Hd (or_introl Hne)).
Qed.

Lemma digit_bounds (c : char) :
  is_ascii_digit c = true -> (0 <= Z.of_N (c - 48) <= 9)%Z.
Proof.
  unfold is_ascii_digit. intros H. apply andb_true_iff in H as [H1 H2].
  apply N.leb_le in H1. apply N.leb_le in H2. lia.
Qed.

Lemma digit_fold_lt (d1 d2 : str) (acc1 acc2 : Z) :
  ascii_digits d1 -> ascii_digits d2 -> length d1 = length d2 ->
  (acc1 < acc2)%Z -> (digit_fold acc1 d1 < digit_fold acc2 d2)%Z.
Proof.
  intros H1. revert d2 acc1 acc2.
  induction H1 as [|c1 d1 Hc1 Hd1 IH]; intros [|c2 d2] acc1 acc2 H2 Hlen Hacc;
    try discriminate; [exact Hacc|].
  inversion H2 as [|? ? Hc2 Hd2]; subst. cbn [digit_fold fold_left].
  apply IH; [assumption|now injection Hlen|].
  pose proof (digit_bounds c1 Hc1). pose proof (digit_bounds c2 Hc2). lia.
Qed.

Lemma digit_fold_nonneg (d : str) (acc : Z) :
  ascii_digits d -> (0 <= acc)%Z -> (0 <= digit_fold acc d)%Z.
Proof.
  intros Hd. revert acc. induction Hd as [|c d Hc Hd IH]; intros acc Hacc;
    cbn [digit_fold fold_left]; [exact Hacc|].
  apply IH. pose proof (digit_bounds c Hc). lia.
Qed.

(** On prefixes of digits of one length, the order of the strings is the
    order of the numbers. *)
Lemma digit_fold_le (d1 d2 r1 r2 : str) (acc : Z) :
  ascii_digits d1 -> ascii_digits d2 -> length d1 = length d2 ->
  str_leb (d1 ++ r1) (d2 ++ r2) = true ->
  (digit_fold acc d1 <= digit_fold acc d2)%Z.
Proof.
  intros H1. revert d2 acc.
  induction H1 as [|c1 d1 Hc1 Hd1 IH]; intros [|c2 d2] acc H2 Hlen Hle;
    try discriminate; [cbn; lia|].
  inversion H2 as [|? ? Hc2 Hd2]; subst. cbn [app str_leb] in Hle.
  cbn [digit_fold fold_left].
  apply orb_true_iff in Hle as [Hlt|Heq].
  - apply Z.lt_le_incl.
    apply digit_fold_lt; [assumption|assumption|now injection Hlen|].
    apply N.ltb_lt in Hlt.
    pose proof (digit_bounds c1 Hc1). pose proof (digit_bounds c2 Hc2).
    unfold is_ascii_digit in Hc1. apply andb_true_iff in Hc1 as [Hlo _].
    apply N.leb_le in Hlo. lia.
  - apply andb_true_iff in Heq as [Heq Hle]. apply N.eqb_eq in Heq. subst c2.
    apply IH; [assumption|now injection Hlen|assumption].
Qed.

Lemma record_prefix (n : str) :
  record_name n ->
  exists digits rest, n = digits ++ rest /\ firstn 4 n = digits
                      /\ length digits = 4 /\ ascii_digits digits.
Proof.
  intros (digits & slug & -> & Hlen & Hd).
  exists digits, (lit "-" ++ slug ++ lit ".md"). repeat split; try assumption.
  rewrite firstn_app, <- Hlen, firstn_all, Nat.sub_diag. cbn [firstn].
  apply app_nil_r.
Qed.

Lemma record_number_le (a b : str) :
  record_name a -> record_name b -> str_leb a b = true ->
  (record_number a <= record_number b)%Z.
Proof.
  intros Ha Hb Hle.
  destruct (record_prefix a Ha) as (da & ra & Ea & Fa & La & Da).
  destruct (record_prefix b Hb) as (db & rb & Eb & Fb & Lb & Db).
  unfold record_number, digits_value. rewrite Fa, Fb.
  rewrite Ea, Eb in Hle.
  apply (digit_fold_le da db ra rb 0 Da Db); [congruence|exact Hle].
Qed.

Lemma record_number_nonneg (a : str) : record_name a -> (0 <= record_number a)%Z.
Proof.
  intros Ha. destruct (record_prefix a Ha) as (da & ra & Ea & Fa & La & Da).
  unfold record_number, digits_value. rewrite Fa.
  apply (digit_fold_nonneg da 0 Da). lia.
Qed.

Lemma highest_number_max (names : list str) (m : str) :
  Forall record_name names -> In m names ->
  Forall (fun n => (record_number n <= record_number m)%Z) names ->
  highest_number names = record_number m.
Proof.
  intros Hnames Hm Hle. unfold highest_number.
  assert (Hlo : (record_number m <= fold_right Z.max 0 (map record_number names))%Z).
  { clear Hle Hnames. induction names as [|n names IH]; [destruct Hm|].
    cbn [map fold_right]. destruct Hm as [->|Hm]; [lia|].
    specialize (IH Hm). lia. }
  assert (Hhi : (fold_right Z.max 0 (map record_number names) <= record_number m)%Z).
  { pose proof (record_number_nonneg m
                  (proj1 (Forall_forall _ _) Hnames m Hm)) as H0.
    clear Hlo Hm Hnames. induction Hle as [|n names Hn Hle IH]; cbn [map fold_right];
      lia. }
  lia.
Qed.

(** C6: when the directory scan for decision records returns entries that
    all follow the [NNNN-slug.md] scheme, [propose_adr] hands to the issue
    tracker a body that opens with the highest four-digit prefix plus one,
    padded with zeros to four digits; with no entry the number is 0001.
    This holds for every title, context and decision text. The number
    appears in the body only, the body goes to the one subprocess call,
    and nothing else is done: no file is written. *)
Theorem propose_adr_next_number (fs : filesystem) (REPO_ROOT : Path)
    (run : list str -> completed) (title context decision : str)
    (names : list str) :
  fs_glob fs (_adrs_dir REPO_ROOT) (lit "[0-9]*.md") = Ok (map (fun n => [n]) names) ->
  Forall record_name names ->
  let next_num := (highest_number names + 1)%Z in
  propose_adr fs REPO_ROOT run title context decision
  = Ok (issue_outcome
          (run (gh_issue_create (lit "ADR Proposal: " ++ title)
                  (issue_body next_num title context decision))))
  /\ (exists rest,
        issue_body next_num title context decision
        = lit "## Proposed ADR-" ++ format_04d next_num ++ lit ": " ++ title ++ rest)
  /\ (names = [] -> format_04d next_num = lit "0001").
Proof.
  intros Hscan Hnames next_num.
  split; [|split; [eexists; reflexivity|intros ->; reflexivity]].
  unfold propose_adr, glob. rewrite Hscan. cbn [bind].
  rewrite map_map.
  rewrite (sorted_map (fun n => child (_adrs_dir REPO_ROOT) [n]) str_leb path_leb names
             (path_leb_entries (_adrs_dir REPO_ROOT))).
  rewrite last_opt_map.
  destruct (last_opt (sorted str_leb names)) as [m|] eqn:El; cbn [option_map].
  - destruct (sorted_last_max _ str_leb str_leb_total str_leb_trans names m El)
      as [Hm Hmax].
    pose proof (proj1 (Forall_forall _ _) Hnames m Hm) as Hrec.
    destruct (record_prefix m Hrec) as (dm & rm & Em & Fm & Lm & Dm).
    rewrite name_entry. unfold take. rewrite Fm.
    rewrite int_of_digits by (try assumption; destruct dm; discriminate).
    cbn [bind].
    assert (Hnum : (digits_value dm + 1)%Z = next_num).
    { unfold next_num. f_equal. symmetry.
      replace (digits_value dm) with (record_number m)
        by (unfold record_number; now rewrite Fm).
      apply highest_number_max; [assumption|assumption|].
      apply Forall_forall. intros n Hn.
      apply record_number_le; [exact (proj1 (Forall_forall _ _) Hnames n Hn)|exact Hrec|].
      exact (proj1 (Forall_forall _ _) Hmax n Hn). }
    rewrite Hnum. reflexivity.
  - assert (Hnil : names = []).
    { destruct names as [|n names]; [reflexivity|].
      unfold last_opt in El.
      destruct (rev (sorted str_leb (n :: names))) eqn:Er; [|discriminate].
      apply (f_equal (@length _)) in Er. rewrite length_rev in Er.
      assert (Hin : In n (sorted str_leb (n :: names)))
        by (apply (proj2 (sorted_In _ str_leb _ _)); now left).
      destruct (sorted str_leb (n :: names)); [destruct Hin|discriminate]. }
    subst names. reflexivity.
Qed.

(** ** Runs on the sample documents *)

Import Samples.

Ltac distinct_strs :=
  repeat constructor; cbn [In]; intuition discriminate.

Ltac nonblank_strs :=
  repeat constructor; cbn [fst]; discriminate.

Lemma parse_sections_distinct_titles_witness :
  let hs := section_blocks 2 (splitlines doc_distinct) in
  NoDup (map fst hs)
  /\ Forall (fun h => fst h <> []) hs
  /\ _parse_sections doc_distinct 2
     = [ (lit "A", lit "## A" ++ nl ++ lit "alpha" ++ nl ++ lit "### deep");
         (lit "B", lit "## B" ++ nl ++ lit "beta") ].
Proof.
  assert (H1 : NoDup (map fst (section_blocks 2 (splitlines doc_distinct))))
    by (vm_compute; distinct_strs).
  assert (H2 : Forall (fun h => fst h <> [])
                 (section_blocks 2 (splitlines doc_distinct)))
    by (vm_compute; nonblank_strs).
  split; [exact H1|split; [exact H2|]].
  rewrite (proj1 (parse_sections_distinct_titles doc_distinct H1 H2)).
  vm_compute. reflexivity.
Defined.

(** C8 as stated fails: the three-line document [## A], a heading whose
    title is a blank, [lost] has two level-2 headings of distinct titles
    and parses to one entry; the blank heading and the line under it are
    in none. *)
Lemma parse_sections_blank_title_dropped :
  let hs := section_blocks 2 (splitlines doc_blank_title) in
  map fst hs = [lit "A"; []]
  /\ NoDup (map fst hs)
  /\ _parse_sections doc_blank_title 2 = [(lit "A", lit "## A")]
  /\ _parse_sections doc_blank_title 2 <> map entry_of hs.
Proof.
  repeat split.
  - vm_compute. distinct_strs.
  - vm_compute. discriminate.
Qed.

Lemma parse_sections_last_write_wins_witness :
  let hs := section_blocks 2 (splitlines doc_repeated) in
  let result := _parse_sections doc_repeated 2 in
  lit "A" <> []
  /\ 2 <= length (occurrences (lit "A") hs)
  /\ exists earlier ls,
       occurrences (lit "A") hs = earlier ++ [ls]
       /\ entries_for (lit "A") result = [(lit "A", section_body ls)]
       /\ dict_get result (lit "A") = Some (section_body ls)
       /\ forall ls', In ls' earlier -> section_body ls' <> section_body ls ->
                      ~ In (section_body ls') (map snd result).
Proof.
  assert (H1 : lit "A" <> []) by discriminate.
  assert (H2 : 2 <= length (occurrences (lit "A")
                              (section_blocks 2 (splitlines doc_repeated))))
    by (vm_compute; lia).
  split; [exact H1|split; [exact H2|]].
  exact (parse_sections_last_write_wins doc_repeated (lit "A") H1 H2).
Defined.

Example parse_sections_repeated_run :
  _parse_sections doc_repeated 2
  = [ (lit "A", lit "## A" ++ nl ++ lit "second");
      (lit "B", lit "## B" ++ nl ++ lit "mid") ].
Proof. vm_compute. reflexivity. Qed.

(** C1 as stated fails: in the document of two headings whose titles are
    blanks only, both titles are the empty string, and the parsed mapping
    has no entry under it; it has no entry at all. *)
Lemma parse_sections_blank_titles_absent :
  2 <= length (occurrences [] (section_blocks 2 (splitlines doc_blank_twice)))
  /\ entries_for [] (_parse_sections doc_blank_twice 2) = []
  /\ dict_get (_parse_sections doc_blank_twice 2) [] = None
  /\ _parse_sections doc_blank_twice 2 = [].
Proof. repeat split; vm_compute; lia. Qed.


Lemma in_repo_types_governance : In (lit "governance") repo_types.
Proof. right. right. left. reflexivity. Defined.




Example compliance_report_run :
  check_repo_compliance demo_fs gov_root (lit "/work/aces-demo") (lit "governance")
  = Ok (join nl
          [ lit "# Compliance Report";
            lit "Repo: aces-demo (governance)";
            [];
            lit "## Issues (9)";
            lit "FAIL: CHANGELOG.md missing";
            lit "FAIL: CLAUDE.md missing";
            lit "FAIL: SECURITY.md missing";
            lit "FAIL: .markdownlint.yaml missing";
            lit "FAIL: .pre-commit-config.yaml missing";
            lit "FAIL: .github/pull_request_template.md missing";
            lit "FAIL: .github/ISSUE_TEMPLATE/config.yml missing";
            lit "FAIL: .github/ISSUE_TEMPLATE/adr-proposal.md missing";
            lit "FAIL: .github/ISSUE_TEMPLATE/rfc-proposal.md missing";
            [];
            lit "## Passed (5)";
            lit "PASS: LICENSE exists";
            lit "PASS: .github/workflows/ci.yaml exists";
            lit "PASS: Repo name 'aces-demo' follows naming convention";
            lit "PASS: CI job name is 'lint'";
            lit "PASS: CI contains 'pre-commit run' step" ]).
Proof. vm_compute. reflexivity. Qed.

(** ** Runs on the sample governance root *)

Lemma gov_records_scan :
  glob gov_fs (_adrs_dir gov_root) (lit "[0-9]*.md") = Ok gov_records.
Proof. vm_compute. reflexivity. Defined.



Example get_adr_keyword_runs :
  get_adr ascii_lower gov_fs gov_root (lit "adr-00")
  = Ok (lit "Multiple ADRs match:" ++ nl
        ++ lit "- 0001-rust-core: ADR-0001: Rust Core" ++ nl
        ++ lit "- 0019-formal-methods: ADR-0019: Formal Methods")
  /\ get_adr ascii_lower gov_fs gov_root (lit "zeppelin")
     = Ok (lit "No ADR found matching 'zeppelin'.")
  /\ get_adr ascii_lower gov_fs gov_root (lit "19") = Ok adr_0019.
Proof. repeat split; vm_compute; reflexivity. Qed.

(** C9, the failing case: on the sample governance root, which has the
    standards document, the architecture document and the decision
    records, [get_adr] given the keyword [/api/v1] raises
    [NotImplementedError] where a lookup is to return text. *)
Theorem get_adr_raises_on_slash_keyword :
  fs_exists gov_fs (joinpath gov_root (lit "STANDARDS.md")) = true
  /\ fs_exists gov_fs (joinpath gov_root (lit "ARCHITECTURE.md")) = true
  /\ fs_is_dir gov_fs (joinpath gov_root (lit "adrs")) = true
  /\ get_adr ascii_lower gov_fs gov_root (lit "/api/v1") = Raise NotImplementedError.
Proof.
  split; [reflexivity|split; [reflexivity|split; [reflexivity|]]].
  apply (get_adr_anchored_pattern ascii_lower gov_files gov_root (lit "/api/v1")
           (lit "api/v1")); [reflexivity|cbn; lia].
Qed.

Lemma gov_search_list_readable :
  Forall (readable gov_fs) (search_list gov_root gov_records).
Proof.
  apply Forall_forall. intros p Hp. vm_compute in Hp.
  repeat destruct Hp as [<-|Hp]; try destruct Hp;
    intros Hex; vm_compute in Hex; try discriminate Hex;
    eexists; vm_compute; reflexivity.
Defined.


Example search_governance_runs :
  search_governance ascii_lower gov_fs gov_root (lit "Governed")
  = Ok (lit "**STANDARDS.md** (line 6):" ++ nl ++ lit "```" ++ nl
        ++ lit "## 15. Formal Methods" ++ nl ++ lit "Governed by ADR-0019." ++ nl
        ++ lit "```")
  /\ search_governance ascii_lower gov_fs gov_root (lit "ADR-00")
  = Ok (lit "**STANDARDS.md** (line 6):" ++ nl ++ lit "```" ++ nl
        ++ lit "## 15. Formal Methods" ++ nl ++ lit "Governed by ADR-0019." ++ nl
        ++ lit "```" ++ nl ++ nl
        ++ lit "**adrs/0001-rust-core.md** (line 1):" ++ nl ++ lit "```" ++ nl
        ++ lit "# ADR-0001: Rust Core" ++ nl ++ lit "The core is written in Rust." ++ nl
        ++ lit "```" ++ nl ++ nl
        ++ lit "**adrs/0019-formal-methods.md** (line 1):" ++ nl ++ lit "```" ++ nl
        ++ lit "# ADR-0019: Formal Methods" ++ nl
        ++ lit "Critical parts are specified in TLA+." ++ nl ++ lit "```")
  /\ search_governance ascii_lower gov_fs gov_root (lit "zeppelin")
     = Ok (lit "No results for 'zeppelin'.").
Proof. repeat split; vm_compute; reflexivity. Qed.

Lemma gov_record_names :
  Forall record_name [lit "0019-formal-methods.md"; lit "0001-rust-core.md"].
Proof.
  repeat constructor.
  - exists (lit "0019"), (lit "formal-methods"). repeat split; repeat constructor.
  - exists (lit "0001"), (lit "rust-core"). repeat split; repeat constructor.
Defined.

Lemma propose_adr_next_number_witness :
  let names := [lit "0019-formal-methods.md"; lit "0001-rust-core.md"] in
  fs_glob gov_fs (_adrs_dir gov_root) (lit "[0-9]*.md") = Ok (map (fun n => [n]) names)
  /\ Forall record_name names
  /\ format_04d (highest_number names + 1) = lit "0020"
  /\ propose_adr gov_fs gov_root gh_ok (lit "Use Rocq") (lit "Why") (lit "How")
     = Ok (issue_outcome
             (gh_ok (gh_issue_create (lit "ADR Proposal: Use Rocq")
                       (issue_body 20 (lit "Use Rocq") (lit "Why") (lit "How"))))).
Proof.
  intros names.
  assert (H1 : fs_glob gov_fs (_adrs_dir gov_root) (lit "[0-9]*.md")
               = Ok (map (fun n => [n]) names)) by (vm_compute; reflexivity).
  split; [exact H1|split; [exact gov_record_names|split; [reflexivity|]]].
  exact (proj1 (propose_adr_next_number gov_fs gov_root gh_ok (lit "Use Rocq")
                  (lit "Why") (lit "How") names H1 gov_record_names)).
Defined.

Lemma get_standard_by_number_witness :
  is_ascii_digit 46%N = false
  /\ fs_read_text gov_fs (joinpath gov_root (lit "STANDARDS.md")) = Ok standards_md
  /\ numbered is_ascii_digit (lit "15. Formal Methods") (strip (lit " 15 "))
  /\ get_standard ascii_lower is_ascii_digit gov_fs gov_root (lit " 15 ")
     = Ok (lit "## 15. Formal Methods" ++ nl ++ lit "Governed by ADR-0019.").
Proof.
  assert (H1 : is_ascii_digit 46%N = false) by reflexivity.
  assert (H2 : fs_read_text gov_fs (joinpath gov_root (lit "STANDARDS.md"))
               = Ok standards_md) by (vm_compute; reflexivity).
  assert (H3 : numbered is_ascii_digit (lit "15. Formal Methods") (strip (lit " 15 "))).
  { exists (lit " Formal Methods"). repeat split; [discriminate|repeat constructor]. }
  split; [exact H1|split; [exact H2|split; [exact H3|]]].
  apply (get_standard_by_number ascii_lower is_ascii_digit gov_fs gov_root (lit " 15 ")
           standards_md
           [(lit "1. Naming", lit "## 1. Naming" ++ nl ++ lit "Repos start with aces.")]
           [] (lit "15. Formal Methods")
           (lit "## 15. Formal Methods" ++ nl ++ lit "Governed by ADR-0019.")
           H1 H2); [vm_compute; reflexivity|exact H3|].
  repeat constructor.
Defined.

(** C7 as stated fails: [015] denotes the integer 15 and the standards
    document has the section [15. Formal Methods], whose digits denote 15
    as well; [get_standard] does not return that section but, the text
    [015] occurring nowhere, the not-found message. *)
Lemma get_standard_zero_padded_misses :
  int (lit "015") = Ok 15%Z
  /\ re_match_number is_ascii_digit (lit "15. Formal Methods") = Some (lit "15")
  /\ int (lit "15") = Ok 15%Z
  /\ dict_get (_parse_sections standards_md 2) (lit "15. Formal Methods")
     = Some (lit "## 15. Formal Methods" ++ nl ++ lit "Governed by ADR-0019.")
  /\ get_standard ascii_lower is_ascii_digit gov_fs gov_root (lit "015")
     = Ok (lit "No section found matching '015'.").
Proof. repeat split; vm_compute; reflexivity. Qed.

(* ================================================================== *)
(** * Further properties *)
(* ================================================================== *)

Import ServerRest SamplesRest.
Open Scope nat_scope.

(** ** Invariants of the parsed mapping *)

Lemma lstrip_idem (s : str) : lstrip (lstrip s) = lstrip s.
Proof.
  induction s as [|c s IH]; cbn [lstrip]; [reflexivity|].
  destruct (isspace c) eqn:E; [exact IH|]. cbn [lstrip]. now rewrite E.
Qed.

Lemma strip_idem (s : str) : strip (strip s) = strip s.
Proof.
  unfold strip. now rewrite lstrip_rstrip, lstrip_idem, rstrip_idem.
Qed.

Lemma stripped_heading_shape (g T : str) :
  strip g <> [] -> strip (lit "## " ++ g ++ T) = lit "## " ++ rstrip (g ++ T).
Proof.
  intros Hne. unfold strip at 1.
  change (lstrip (lit "## " ++ g ++ T)) with (lit "## " ++ g ++ T).
  apply rstrip_app_keep.
  pose proof (strip_nonempty_rstrip g Hne) as Hg.
  destruct (rstrip T) eqn:ET.
  - now rewrite rstrip_app_drop.
  - rewrite rstrip_app_keep by (rewrite ET; discriminate).
    intros H. apply app_eq_nil in H as [-> _]. now apply Hg.
Qed.

Lemma block_body_marker (h : str * list str) :
  well_cut h -> fst h <> [] -> startswith (lit "## ") (section_body (snd h)) = true.
Proof.
  intros (hd & g & rest & Hs & Hm & Ht & _) Hne. rewrite Hs. rewrite Ht in Hne.
  apply heading_inv in Hm as (r & Hhd & _).
  destruct (join_cons_shape hd rest) as (T & HT & _).
  unfold section_body. rewrite HT, Hhd, <- !app_assoc.
  rewrite stripped_heading_shape by assumption. reflexivity.
Qed.

Lemma parsed_entry_shape (content k v : str) :
  In (k, v) (_parse_sections content 2) ->
  k <> [] /\ strip k = k
  /\ strip v = v /\ startswith (lit "## ") v = true /\ title_of v = k.
Proof.
  intros Hin.
  pose proof (parsed_keys_nonempty content (k, v) Hin) as Hk. cbn [fst] in Hk.
  destruct (parsed_entry_last content k v Hin Hk) as (ls & Hlast & ->).
  destruct (last_opt_split _ _ Hlast) as [l' Hl'].
  assert (Hblock : In (k, ls) (section_blocks 2 (splitlines content))).
  { apply In_occurrences. rewrite Hl'. apply in_or_app. right. now left. }
  pose proof (proj1 (Forall_forall _ _) (section_blocks_well_cut (splitlines content))
                _ Hblock) as Hcut.
  split; [exact Hk|]. split.
  - destruct Hcut as (hd & g & rest & _ & _ & Ht & _). cbn [fst] in Ht.
    rewrite Ht. apply strip_idem.
  - split; [apply strip_idem|]. split.
    + exact (block_body_marker (k, ls) Hcut Hk).
    + exact (body_title (k, ls) Hcut Hk).
Qed.

Lemma parsed_keys_NoDup (content : str) : NoDup (map fst (_parse_sections content 2)).
Proof. rewrite parse_sections_blocks. apply commit_all_NoDup. constructor. Qed.

(** X1: whatever the document, the mapping parsed at depth 2 has pairwise
    distinct keys; every key is non-empty and trimmed; every body is
    trimmed, opens with the level-2 marker, and its key can be read back
    from it as the trimmed first line after the marker. *)
Theorem parse_sections_invariants (content : str) :
  NoDup (map fst (_parse_sections content 2))
  /\ forall k v, In (k, v) (_parse_sections content 2) ->
       k <> [] /\ strip k = k
       /\ strip v = v /\ startswith (lit "## ") v = true /\ title_of v = k.
Proof.
  split; [apply parsed_keys_NoDup|apply parsed_entry_shape].
Qed.

Lemma block_titles (lines : list str) :
  map fst (section_blocks 2 lines)
  = flat_map (fun l => match re_match_heading 2 l with
                       | Some g => [strip g]
                       | None => []
                       end) lines.
Proof.
  induction lines as [|l lines IH]; cbn [section_blocks flat_map map]; [reflexivity|].
  destruct (re_match_heading 2 l); cbn [map app fst]; now rewrite IH.
Qed.

Lemma commit_all_blank (hs : list (str * list str)) (d : dict) :
  Forall (fun h => fst h = []) hs -> fold_left commit hs d = d.
Proof.
  intros H. revert d. induction H as [|[k ls] hs Hk Hhs IH]; intros d;
    cbn [fold_left]; [reflexivity|].
  cbn [fst] in Hk. subst k. rewrite commit_blank. apply IH.
Qed.

(** X2: the mapping parsed at depth 2 is empty exactly when no line of
    the document is a level-2 heading with a title that is not blank; so
    an empty document, and a document without headings, parse to the empty
    mapping. *)
Theorem parse_sections_empty_iff (content : str) :
  _parse_sections content 2 = []
  <-> forall line g, In line (splitlines content) ->
                     re_match_heading 2 line = Some g -> strip g = [].
Proof.
  rewrite parse_sections_blocks. split.
  - intros Hempty line g Hline Hm.
    destruct (strip g) as [|c t] eqn:Et; [reflexivity|exfalso].
    assert (Hin : In (c :: t) (map fst (section_blocks 2 (splitlines content)))).
    { rewrite block_titles. apply in_flat_map. exists line. split; [exact Hline|].
      rewrite Hm, Et. now left. }
    apply in_map_iff in Hin as ([k ls] & Hk & Hblock). cbn [fst] in Hk. subst k.
    pose proof (commit_all_lookup (section_blocks 2 (splitlines content)) []
                  (c :: t) ltac:(discriminate)) as Hget.
    rewrite Hempty in Hget. cbn [dict_get] in Hget.
    apply In_occurrences in Hblock.
    destruct (last_opt (occurrences (c :: t) (section_blocks 2 (splitlines content))))
      eqn:El; [discriminate|].
    unfold last_opt in El.
    destruct (rev (occurrences (c :: t) (section_blocks 2 (splitlines content))))
      eqn:Er; [|discriminate].
    apply (f_equal (@rev _)) in Er. rewrite rev_involutive in Er. cbn in Er.
    rewrite Er in Hblock. destruct Hblock.
  - intros Hblank. apply commit_all_blank.
    apply Forall_forall. intros [k ls] Hblock. cbn [fst].
    assert (Hin : In k (map fst (section_blocks 2 (splitlines content))))
      by (apply in_map_iff; exists (k, ls); split; [reflexivity|exact Hblock]).
    rewrite block_titles in Hin. apply in_flat_map in Hin as (line & Hline & Hk).
    destruct (re_match_heading 2 line) as [g|] eqn:Hm; [|destruct Hk].
    destruct Hk as [<-|[]]. exact (Hblank line g Hline Hm).
Qed.

(** ** Lookups by number and by the empty keyword *)

(** X3: when the title of some section of the standards document opens
    with digits and a full stop, the digits being the trimmed input,
    [get_standard] answers with the body of such a section: a text that
    opens with the level-2 marker and whose own heading carries a title
    with that number. *)
Theorem get_standard_number_answer (lower : str -> str) (isdecimal : char -> bool)
    (fs : filesystem) (REPO_ROOT : Path) (section content : str) :
  fs_read_text fs (joinpath REPO_ROOT (lit "STANDARDS.md")) = Ok content ->
  (exists e, In e (_parse_sections content 2)
             /\ re_match_number isdecimal (fst e) = Some (strip section)) ->
  exists title body,
    get_standard lower isdecimal fs REPO_ROOT section = Ok body
    /\ In (title, body) (_parse_sections content 2)
    /\ re_match_number isdecimal title = Some (strip section)
    /\ startswith (lit "## ") body = true
    /\ title_of body = title.
Proof.
  intros Hread (e & He & Hnum).
  unfold get_standard, _read_file. rewrite Hread. cbn [bind].
  destruct (find (number_matches isdecimal section) (_parse_sections content 2))
    as [[title body]|] eqn:Hfind.
  - apply find_some in Hfind as [Hin Hm].
    exists title, body. split; [reflexivity|]. split; [exact Hin|].
    destruct (parsed_entry_shape content title body Hin) as (_ & _ & _ & Hmark & Htitle).
    repeat split; try assumption.
    unfold number_matches in Hm. cbn [fst] in Hm.
    destruct (re_match_number isdecimal title) as [g|]; [|discriminate].
    apply str_eqb_eq in Hm. now subst g.
  - exfalso. pose proof (find_none _ _ Hfind e He) as Hno.
    unfold number_matches in Hno. rewrite Hnum, str_eqb_refl in Hno. discriminate.
Qed.

Lemma contains_nil (hay : str) : contains [] hay = true.
Proof. destruct hay; reflexivity. Qed.

Lemma filter_all {A : Type} (f : A -> bool) (l : list A) :
  (forall x, f x = true) -> filter f l = l.
Proof.
  intros H. induction l as [|x l IH]; cbn [filter]; [reflexivity|].
  now rewrite H, IH.
Qed.

Lemma find_never {A : Type} (f : A -> bool) (l : list A) :
  (forall x, f x = false) -> find f l = None.
Proof.
  intros H. induction l as [|x l IH]; cbn [find]; [reflexivity|]. now rewrite H.
Qed.

Lemma digit_run_nonempty (isdecimal : char -> bool) (title : str) :
  re_match_number isdecimal title <> Some [].
Proof.
  unfold re_match_number. destruct (digit_run isdecimal title) as [g r].
  destruct r as [|c r]; [discriminate|].
  destruct g; cbn [truthy andb]; [discriminate|].
  destruct (N.eqb c 46); discriminate.
Qed.

(** X4: the empty keyword matches every section. With [lower] mapping
    the empty string to itself, [get_architecture] and [get_standard]
    given the empty string answer by the number of sections alone: the
    not-found text without sections, the body of the only section, and
    else the listing of all titles in document order. *)
Theorem lookups_with_empty_keyword (lower : str -> str) (isdecimal : char -> bool)
    (fs : filesystem) (REPO_ROOT : Path) :
  lower [] = [] ->
  (forall content,
     fs_read_text fs (joinpath REPO_ROOT (lit "ARCHITECTURE.md")) = Ok content ->
     get_architecture lower fs REPO_ROOT []
     = match _parse_sections content 2 with
       | [] => Ok (lit "No section found matching ''.")
       | [m] => Ok (snd m)
       | sections =>
           Ok (lit "Multiple sections match:" ++ nl
               ++ join nl (map (fun m => lit "- " ++ fst m) sections))
       end)
  /\ (forall content,
        fs_read_text fs (joinpath REPO_ROOT (lit "STANDARDS.md")) = Ok content ->
        get_standard lower isdecimal fs REPO_ROOT []
        = match _parse_sections content 2 with
          | [] => Ok (lit "No section found matching ''.")
          | [m] => Ok (snd m)
          | sections =>
              Ok (lit "Multiple sections match:" ++ nl
                  ++ join nl (map (fun m => lit "- " ++ fst m) sections)
                  ++ nl ++ nl ++ lit "Refine your query or use a section number.")
          end).
Proof.
  intros Hlower.
  assert (Hall : forall sections,
             filter (keyword_matches lower (lower [])) sections = sections).
  { intros sections. apply filter_all. intros e. unfold keyword_matches.
    now rewrite Hlower, contains_nil. }
  split; intros content Hread.
  - unfold get_architecture, _read_file. rewrite Hread. cbn [bind].
    rewrite Hall. now destruct (_parse_sections content 2) as [|m [|m' rest]].
  - unfold get_standard, _read_file. rewrite Hread. cbn [bind].
    rewrite find_never.
    + rewrite Hall. now destruct (_parse_sections content 2) as [|m [|m' rest]].
    + intros e. unfold number_matches.
      destruct (re_match_number isdecimal (fst e)) as [g|] eqn:E; [|reflexivity].
      destruct g; [now apply digit_run_nonempty in E|reflexivity].
Qed.

(** X5: an identifier that is, once trimmed, one to four ASCII digits is
    padded with zeros to four digits, and when the directory holds a file
    whose name opens with these four digits and a hyphen, [get_adr] reads
    the first such file, without any keyword search. *)
Theorem get_adr_pads_number (lower : str -> str) (fs : filesystem)
    (REPO_ROOT : Path) (identifier digits : str) (m : Path) (others : list Path) :
  strip identifier = digits ->
  ascii_digits digits -> digits <> [] -> length digits <= 4 ->
  glob fs (_adrs_dir REPO_ROOT)
    (repeat 48%N (4 - length digits) ++ digits ++ lit "-*.md") = Ok (m :: others) ->
  get_adr lower fs REPO_ROOT identifier = fs_read_text fs m.
Proof.
  intros Hstrip Hd Hne Hlen Hglob. unfold get_adr. rewrite Hstrip.
  assert (Hz : zfill 4 digits = repeat 48%N (4 - length digits) ++ digits).
  { destruct digits as [|c d]; [congruence|].
    inversion Hd as [|? ? Hc _]; subst. unfold zfill.
    unfold is_ascii_digit in Hc. apply andb_true_iff in Hc as [Hlo _].
    apply N.leb_le in Hlo.
    replace (N.eqb c 43) with false by (symmetry; apply N.eqb_neq; lia).
    replace (N.eqb c 45) with false by (symmetry; apply N.eqb_neq; lia).
    reflexivity. }
  assert (Hglob' : glob fs (_adrs_dir REPO_ROOT) (zfill 4 digits ++ lit "-*.md")
                   = Ok (m :: others)).
  { rewrite <- Hglob. f_equal. rewrite Hz. symmetry. apply app_assoc. }
  rewrite Hglob'. reflexivity.
Qed.

(** ** Queries that span lines *)

Lemma splitlines_from_no_lf (n : nat) (s cur : str) :
  length s <= n -> ~ In 10%N cur ->
  Forall (fun l => ~ In 10%N l) (splitlines_from cur s).
Proof.
  revert s cur. induction n as [|n IH]; intros s cur Hlen Hcur.
  - destruct s; [|cbn in Hlen; lia]. cbn [splitlines_from].
    destruct cur; constructor; [exact Hcur|constructor].
  - destruct s as [|c s]; cbn [splitlines_from].
    + destruct cur; constructor; [exact Hcur|constructor].
    + cbn [length] in Hlen.
      destruct (N.eqb_spec c 13).
      * constructor; [exact Hcur|].
        destruct s as [|c' s']; [constructor|]. cbn [length] in Hlen.
        destruct (N.eqb c' 10); apply IH; cbn [length In]; try lia; tauto.
      * destruct (is_linebreak c) eqn:Hb.
        -- constructor; [exact Hcur|]. apply IH; cbn [In]; [lia|tauto].
        -- apply IH; [lia|]. intros Hin. apply in_app_or in Hin as [Hin|[Hc|[]]];
             [now apply Hcur|subst c; discriminate Hb].
Qed.

Lemma splitlines_no_lf (s : str) : Forall (fun l => ~ In 10%N l) (splitlines s).
Proof. apply (splitlines_from_no_lf (length s)); [lia|intros []]. Qed.

Lemma contains_split (needle hay : str) :
  contains needle hay = true -> exists a b, hay = a ++ needle ++ b.
Proof.
  induction hay as [|c hay IH]; cbn [contains]; intros H.
  - rewrite orb_false_r in H. apply startswith_split in H as [r ->].
    now exists [], r.
  - apply orb_true_iff in H as [H|H].
    + apply startswith_split in H as [r ->]. now exists [], r.
    + destruct (IH H) as (a & b & ->). now exists (c :: a), b.
Qed.

Lemma contains_In (needle hay : str) (c : char) :
  contains needle hay = true -> In c needle -> In c hay.
Proof.
  intros H Hc. destruct (contains_split needle hay H) as (a & b & ->).
  apply in_or_app. right. apply in_or_app. now left.
Qed.

(** X6: a query that holds a line feed never gives an excerpt. With
    [lower] keeping line feeds where they are absent and present, and the
    documents of the search list readable, [search_governance] answers
    such a query with the no-results text, also when the documents contain
    the query across two lines. *)
Theorem search_governance_multiline_query (lower : str -> str) (fs : filesystem)
    (REPO_ROOT : Path) (query : str) (records : list Path) :
  (forall s, In 10%N (lower s) <-> In 10%N s) ->
  In 10%N query ->
  glob fs (_adrs_dir REPO_ROOT) (lit "[0-9]*.md") = Ok records ->
  Forall (readable fs) (search_list REPO_ROOT records) ->
  search_governance lower fs REPO_ROOT query
  = Ok (lit "No results for '" ++ query ++ lit "'.").
Proof.
  intros Hlower Hq Hglob Hread.
  destruct (search_scan_contributes lower fs REPO_ROOT query
              (search_list REPO_ROOT records) Hread
              (search_list_below fs REPO_ROOT records Hglob))
    as (per_file & Hall & Hscan).
  assert (Hnone : concat per_file = []).
  { clear Hscan Hread. induction Hall as [|p es ps ess Hp Hall IH]; [reflexivity|].
    cbn [concat]. rewrite IH, app_nil_r.
    unfold contributes in Hp. destruct (fs_exists fs p); [|exact Hp].
    destruct Hp as (rel & _ & [[-> _]|(_ & i & [(line & Hnth & Hhit) _] & _)]);
      [reflexivity|exfalso].
    apply nth_error_In in Hnth.
    apply (proj1 (Forall_forall _ _) (splitlines_no_lf (text_of fs p)) line Hnth).
    apply Hlower. unfold line_hit in Hhit.
    apply (contains_In _ _ 10%N Hhit). now apply Hlower. }
  unfold search_governance. rewrite Hglob. cbn [bind].
  change (root_documents REPO_ROOT ++ sorted path_leb records)
    with (search_list REPO_ROOT records).
  rewrite Hscan, Hnone. reflexivity.
Qed.

(** ** [list_adrs] *)

Import Rest.

Lemma space_run_spec (s w r : str) :
  space_run s = (w, r) ->
  s = w ++ r /\ Forall (fun c => isspace c = true) w.
Proof.
  revert w r; induction s as [|c s IH]; intros w r; cbn [space_run].
  - intros [= <- <-]. split; [reflexivity|constructor].
  - destruct (isspace c) eqn:E.
    + destruct (space_run s) as [w0 r0]. intros [= <- <-].
      destruct (IH w0 r0 eq_refl) as [-> Hw]. split; [reflexivity|now constructor].
    + intros [= <- <-]. split; [reflexivity|constructor].
Qed.

Lemma word_run_spec (isword : char -> bool) (s g r : str) :
  word_run isword s = (g, r) ->
  s = g ++ r /\ Forall (fun c => isword c = true) g
  /\ forall c r', r = c :: r' -> isword c = false.
Proof.
  revert g r; induction s as [|c s IH]; intros g r; cbn [word_run].
  - intros [= <- <-]. repeat split; [constructor|discriminate].
  - destruct (isword c) eqn:E.
    + destruct (word_run isword s) as [g0 r0]. intros [= <- <-].
      destruct (IH g0 r0 eq_refl) as (-> & Hg & Hr).
      repeat split; [now constructor|exact Hr].
    + intros [= <- <-]. repeat split; [constructor|].
      intros c' r' [= <- <-]. exact E.
Qed.

Lemma status_here_spec (isword : char -> bool) (s g : str) :
  status_here isword s = Some g ->
  exists w rest,
    s = lit "## Status" ++ w ++ g ++ rest
    /\ Forall (fun c => isspace c = true) w /\ In 10%N w
    /\ g <> [] /\ Forall (fun c => isword c = true) g
    /\ forall c rest', rest = c :: rest' -> isword c = false.
Proof.
  unfold status_here.
  destruct (strip_prefix (lit "## Status") s) as [after|] eqn:Ep; [|discriminate].
  apply strip_prefix_Some in Ep.
  destruct (space_run after) as [w r] eqn:Ew.
  destruct (existsb (N.eqb 10) w) eqn:Elf; [|discriminate].
  destruct (word_run isword r) as [g0 rest] eqn:Eg.
  destruct (truthy g0) eqn:Et; [|discriminate].
  intros [= <-].
  apply space_run_spec in Ew as [-> Hw].
  apply word_run_spec in Eg as (-> & Hg & Hrest).
  exists w, rest. repeat split; try assumption.
  - apply existsb_exists in Elf as (c & Hc & E). apply N.eqb_eq in E. now subst c.
  - now apply truthy_true.
Qed.

Lemma re_search_status_from_spec (isword : char -> bool) (s g : str)
    (line_start : bool) :
  re_search_status_from isword line_start s = Some g ->
  exists before tail,
    s = before ++ tail /\ status_here isword tail = Some g
    /\ ((before = [] /\ line_start = true) \/ exists b, before = b ++ [10%N]).
Proof.
  revert line_start. induction s as [|c s IH]; intros line_start;
    cbn [re_search_status_from].
  - destruct line_start; [|discriminate].
    destruct (status_here isword []) eqn:E; [|discriminate].
    intros [= <-]. exists [], []. repeat split; [exact E|now left].
  - destruct (if line_start then status_here isword (c :: s) else None) as [g0|] eqn:E.
    + intros [= <-]. destruct line_start; [|discriminate].
      exists [], (c :: s). repeat split; [exact E|now left].
    + intros H. destruct (IH _ H) as (before & tail & -> & Htail & Hshape).
      exists (c :: before), tail. repeat split; [exact Htail|]. right.
      destruct Hshape as [[-> Hc]|[b ->]].
      * apply N.eqb_eq in Hc. subst c. now exists [].
      * now exists (c :: b).
Qed.

(** X7: a status that [list_adrs] reads from a record is a non-empty
    run of word characters, taken in full, that follows a [## Status]
    heading at the start of a line after whitespace that holds at least
    one line feed; a status on the heading's own line is never read. *)
Theorem status_follows_heading (isword : char -> bool) (content status : str) :
  re_search_status isword content = Some status ->
  exists before w rest,
    content = before ++ lit "## Status" ++ w ++ status ++ rest
    /\ (before = [] \/ exists b, before = b ++ [10%N])
    /\ Forall (fun c => isspace c = true) w /\ In 10%N w
    /\ status <> [] /\ Forall (fun c => isword c = true) status
    /\ forall c rest', rest = c :: rest' -> isword c = false.
Proof.
  intros H. apply re_search_status_from_spec in H
    as (before & tail & -> & Htail & Hshape).
  apply status_here_spec in Htail as (w & rest & -> & Hw & Hlf & Hne & Hg & Hrest).
  exists before, w, rest. repeat split; try assumption.
  destruct Hshape as [[-> _]|Hb]; [now left|now right].
Qed.

Lemma list_adrs_lines_map (isword : char -> bool) (fs : filesystem)
    (paths : list Path) :
  Forall (can_read fs) paths ->
  list_adrs_lines isword fs paths = Ok (map (record_line isword fs) paths).
Proof.
  induction 1 as [|p paths Hp Hps IH]; cbn [list_adrs_lines map]; [reflexivity|].
  rewrite (read_text_of fs p Hp), IH. reflexivity.
Qed.

Lemma sorted_nil_iff {A : Type} (leb : A -> A -> bool) (l : list A) :
  sorted leb l = [] <-> l = [].
Proof.
  split; [|now intros ->]. destruct l as [|x l]; [reflexivity|].
  intros H. assert (Hin : In x (sorted leb (x :: l)))
    by (apply (proj2 (sorted_In _ leb _ _)); now left).
  rewrite H in Hin. destruct Hin.
Qed.

(** X8: with the records found by the directory scan readable,
    [list_adrs] answers "No ADRs found." exactly when the scan finds none,
    and otherwise with one line per record in filename order, each made of
    the file stem, the title (the stem again when the text does not open
    with a level-1 heading) and the status ("Unknown" when none is
    read). *)
Theorem list_adrs_lines_per_record (isword : char -> bool) (fs : filesystem)
    (REPO_ROOT : Path) (records : list Path) :
  glob fs (_adrs_dir REPO_ROOT) (lit "[0-9]*.md") = Ok records ->
  Forall (can_read fs) records ->
  list_adrs isword fs REPO_ROOT
  = Ok match records with
       | [] => lit "No ADRs found."
       | _ => join nl (map (record_line isword fs) (sorted path_leb records))
       end
  /\ (list_adrs isword fs REPO_ROOT = Ok (lit "No ADRs found.") <-> records = []).
Proof.
  intros Hglob Hread.
  assert (Hrun : list_adrs isword fs REPO_ROOT
                 = Ok match records with
                      | [] => lit "No ADRs found."
                      | _ => join nl (map (record_line isword fs)
                                        (sorted path_leb records))
                      end).
  { unfold list_adrs. rewrite Hglob. cbn [bind].
    rewrite list_adrs_lines_map by now apply sorted_Forall.
    cbn [bind]. destruct records as [|r records]; [reflexivity|].
    destruct (sorted path_leb (r :: records)) eqn:Es; [|reflexivity].
    apply sorted_nil_iff in Es. discriminate. }
  split; [exact Hrun|]. rewrite Hrun. split; [|now intros ->].
  destruct records as [|r records]; [reflexivity|].
  destruct (sorted path_leb (r :: records)) as [|p ps] eqn:Es.
  - apply sorted_nil_iff in Es. discriminate.
  - intros H. exfalso. cbn [map] in H. unfold record_line at 1 in H.
    destruct (map (record_line isword fs) ps); cbn [join] in H;
      discriminate H.
Qed.

(** ** [get_template] *)

Lemma relative_to_child (d : Path) (rel : list str) :
  relative_to (child d rel) d = Ok (rel_under d (child d rel)).
Proof.
  unfold child, rel_under. cbn [parts]. rewrite relative_to_below. do 2 f_equal.
  rewrite skipn_app, skipn_all, Nat.sub_diag. reflexivity.
Qed.

Section Templates.

Variable is_file : Path -> bool.
Variable td : Path.

Lemma template_list_lines_map (paths : list Path) :
  Forall (fun p => exists rel, p = child td rel) paths ->
  template_list_lines is_file td paths
  = Ok (map (template_line td) (filter is_file paths)).
Proof.
  induction 1 as [|p paths [rel ->] Hps IH]; cbn [template_list_lines filter];
    [reflexivity|].
  destruct (is_file (child td rel)); [|exact IH].
  rewrite relative_to_child, IH. reflexivity.
Qed.


End Templates.

(** X9: a name that is [list] in any letter case makes [get_template]
    enumerate the regular files found below the templates directory, at
    any depth, sorted by path and each given by its path below that
    directory; directories are left out, and with no file the answer is
    the heading line alone. *)
Theorem get_template_list (lower : str -> str) (fs : filesystem)
    (is_file : Path -> bool) (REPO_ROOT : Path) (name : str) (paths : list Path) :
  lower name = lit "list" ->
  glob fs (_templates_dir REPO_ROOT) (lit "**/*") = Ok paths ->
  get_template lower fs is_file REPO_ROOT name
  = Ok (lit "Available templates:" ++ nl
        ++ join nl (map (template_line (_templates_dir REPO_ROOT))
                      (filter is_file (sorted path_leb paths)))).
Proof.
  intros Hname Hglob. unfold get_template, rglob_all.
  rewrite Hname. change (str_eqb (lit "list") (lit "list")) with true. cbn iota.
  rewrite Hglob. cbn [bind].
  rewrite template_list_lines_map; [reflexivity|].
  apply sorted_Forall. exact (glob_children fs _ _ paths Hglob).
Qed.

(** X10: a name other than [list] that names an existing regular file,
    taken from the templates directory, is answered with the text of that
    file, whatever other file names contain it; and a name that opens with
    a slash is taken as it stands, so that the file read lies wherever the
    name says, inside the templates directory or not. *)
Theorem get_template_direct (lower : str -> str) (fs : filesystem)
    (is_file : Path -> bool) (REPO_ROOT : Path) (name : str) :
  lower name <> lit "list" ->
  let target := joinpath (_templates_dir REPO_ROOT) name in
  fs_exists fs target = true -> is_file target = true ->
  get_template lower fs is_file REPO_ROOT name = fs_read_text fs target
  /\ (startswith (lit "/") name = true -> target = Path_of name).
Proof.
  intros Hname target Hex Hfile. split.
  - unfold get_template. apply str_eqb_neq in Hname. rewrite Hname.
    fold target. now rewrite Hex, Hfile.
  - intros Habs. unfold target, joinpath.
    assert (Ha : anchor (Path_of name) = true) by exact Habs.
    now rewrite Ha.
Qed.


(** ** [check_standards_update_needed] *)

Lemma term_matches_bound (lower : str -> str) (terms : list str) (body : str) :
  term_matches lower terms body <= length terms.
Proof. unfold term_matches. apply filter_length_le. Qed.

Lemma matching_sections_spec (lower : str -> str) (terms : list str) (sections : dict)
    (title : str) :
  In title (matching_sections lower terms sections)
  <-> exists body, In (title, body) sections /\ covers lower terms body.
Proof.
  unfold covers. induction sections as [|[t b] sections IH]; cbn [matching_sections].
  - split; [intros []|intros (body & [] & _)].
  - destruct (Nat.leb_spec 2 (term_matches lower terms b)) as [Hge|Hlt].
    + cbn [In]. rewrite IH. split.
      * intros [<-|(body & Hin & Hc)]; [exists b; split; [now left|exact Hge]|].
        exists body. split; [now right|exact Hc].
      * intros (body & [[= <- <-]|Hin] & Hc); [now left|right; now exists body].
    + rewrite IH. split.
      * intros (body & Hin & Hc). exists body. split; [now right|exact Hc].
      * intros (body & [[= <- <-]|Hin] & Hc); [lia|now exists body].
Qed.

(** X12: without the standards document the answer is the cannot-check
    text. With it, a lesson that has fewer than two distinct words outside
    the stop list is always answered as not covered, whatever the
    document says: one word, or one word repeated, never counts as
    covered. *)
Theorem lesson_needs_two_terms (lower : str -> str) (fs : filesystem)
    (REPO_ROOT : Path) (lesson : str) :
  (fs_exists fs (joinpath REPO_ROOT (lit "STANDARDS.md")) = false ->
   check_standards_update_needed lower fs REPO_ROOT lesson
   = Ok (lit "Cannot check: STANDARDS.md not found."))
  /\ (forall content,
        fs_exists fs (joinpath REPO_ROOT (lit "STANDARDS.md")) = true ->
        fs_read_text fs (joinpath REPO_ROOT (lit "STANDARDS.md")) = Ok content ->
        length (key_terms lower lesson) < 2 ->
        check_standards_update_needed lower fs REPO_ROOT lesson
        = Ok (lit "This lesson is not covered by current standards. "
              ++ lit "Consider promoting it to a formal standard in STANDARDS.md "
              ++ lit "or proposing an ADR if it involves an architectural decision.")).
Proof.
  split.
  - intros Hex. unfold check_standards_update_needed. now rewrite Hex.
  - intros content Hex Hread Hfew. unfold check_standards_update_needed, _read_file.
    rewrite Hex, Hread. cbn [negb bind].
    replace (matching_sections lower (key_terms lower lesson) (_parse_sections content 2))
      with (@nil str); [reflexivity|].
    symmetry. destruct (matching_sections _ _ _) as [|t ts] eqn:E; [reflexivity|].
    assert (Hin : In t (matching_sections lower (key_terms lower lesson)
                          (_parse_sections content 2))) by (rewrite E; now left).
    apply matching_sections_spec in Hin as (body & _ & Hc). unfold covers in Hc.
    pose proof (term_matches_bound lower (key_terms lower lesson) body). lia.
Qed.

(** X13: with the standards document readable, a lesson is answered as
    already covered exactly when some section's body contains,
    case-insensitively, at least two of its distinct words outside the stop
    list; the sections then listed are all those and only those. *)
Theorem lesson_covered_sections (lower : str -> str) (fs : filesystem)
    (REPO_ROOT : Path) (lesson content : str) :
  fs_exists fs (joinpath REPO_ROOT (lit "STANDARDS.md")) = true ->
  fs_read_text fs (joinpath REPO_ROOT (lit "STANDARDS.md")) = Ok content ->
  let sections := _parse_sections content 2 in
  let terms := key_terms lower lesson in
  exists titles,
    (forall title, In title titles
                   <-> exists body, In (title, body) sections /\ covers lower terms body)
    /\ check_standards_update_needed lower fs REPO_ROOT lesson
       = Ok match titles with
            | [] => lit "This lesson is not covered by current standards. "
                    ++ lit "Consider promoting it to a formal standard in STANDARDS.md "
                    ++ lit "or proposing an ADR if it involves an architectural decision."
            | _ => lit "This lesson appears to be already covered in:" ++ nl
                   ++ join nl (map (fun s => lit "- " ++ s) titles) ++ nl ++ nl
                   ++ lit "Review these sections to confirm coverage is adequate."
            end.
Proof.
  intros Hex Hread sections terms.
  exists (matching_sections lower terms sections). split.
  - intros title. apply matching_sections_spec.
  - unfold check_standards_update_needed, _read_file.
    rewrite Hex, Hread. cbn [negb bind]. fold sections. fold terms.
    now destruct (matching_sections lower terms sections).
Qed.

(** ** Lines of a compliance report *)

Lemma bind_Ok {A B : Type} (m : result A) (k : A -> result B) (b : B) :
  bind m k = Ok b -> exists a, m = Ok a /\ k a = Ok b.
Proof. destruct m as [a|e]; cbn [bind]; [now exists a|discriminate]. Qed.

Lemma grows_refl (t : tally) : grows t t.
Proof. split; apply incl_refl. Qed.

Lemma grows_trans (t1 t2 t3 : tally) : grows t1 t2 -> grows t2 t3 -> grows t1 t3.
Proof. intros [H1 H2] [H3 H4]. split; eapply incl_tran; eassumption. Qed.

Lemma add_pass_grows (t : tally) (msg : str) : grows t (add_pass t msg).
Proof. split; cbn [add_pass findings passes]; auto using incl_refl, incl_appl. Qed.

Lemma add_finding_grows (t : tally) (msg : str) : grows t (add_finding t msg).
Proof. split; cbn [add_finding findings passes]; auto using incl_refl, incl_appl. Qed.

Ltac grows_step :=
  repeat first
    [ apply grows_refl
    | match goal with
      | |- grows _ (if ?b then _ else _) => destruct b
      | |- grows ?t (add_pass ?t' _) =>
          apply (grows_trans t t'); [|apply add_pass_grows]
      | |- grows ?t (add_finding ?t' _) =>
          apply (grows_trans t t'); [|apply add_finding_grows]
      end ].

Lemma check_naming_grows_from (repo_name : str) (t : tally) :
  grows t (check_naming repo_name t).
Proof. unfold check_naming. grows_step. Qed.

Section ComplianceLines.

Variable fs : filesystem.
Variable REPO_ROOT : Path.
Variable repo : Path.

Lemma check_required_files_grows (required : list str) (t : tally) :
  grows t (check_required_files fs repo required t).
Proof.
  unfold check_required_files. revert t.
  induction required as [|f required IH]; intros t; cbn [fold_left];
    [apply grows_refl|].
  eapply grows_trans; [|apply IH]. grows_step.
Qed.

Lemma check_required_files_lines (required : list str) (t : tally) (f : str) :
  In f required ->
  if fs_exists fs (joinpath repo f)
  then In (lit "PASS: " ++ f ++ lit " exists")
         (passes (check_required_files fs repo required t))
  else In (lit "FAIL: " ++ f ++ lit " missing")
         (findings (check_required_files fs repo required t)).
Proof.
  revert t. induction required as [|g required IH]; intros t Hin; [destruct Hin|].
  destruct Hin as [->|Hin]; [|apply IH; exact Hin].
  change (check_required_files fs repo (f :: required) t)
    with (check_required_files fs repo required
            (if fs_exists fs (joinpath repo f)
             then add_pass t (lit "PASS: " ++ f ++ lit " exists")
             else add_finding t (lit "FAIL: " ++ f ++ lit " missing"))).
  destruct (fs_exists fs (joinpath repo f)).
  - apply (proj2 (check_required_files_grows required _)).
    cbn [add_pass passes]. apply in_or_app. right. now left.
  - apply (proj1 (check_required_files_grows required _)).
    cbn [add_finding findings]. apply in_or_app. right. now left.
Qed.

Lemma check_rust_grows (t t' : tally) : check_rust fs repo t = Ok t' -> grows t t'.
Proof.
  unfold check_rust, _read_file. intros H.
  apply bind_Ok in H as (t1 & H1 & H2).
  assert (G1 : grows t t1).
  { destruct (fs_exists fs (joinpath repo (lit "Cargo.toml"))).
    - apply bind_Ok in H1 as (c & _ & H1). injection H1 as <-. grows_step.
    - injection H1 as <-. apply grows_refl. }
  apply (grows_trans t t1 t' G1).
  destruct (fs_exists fs (joinpath (joinpath repo (lit "src")) (lit "lib.rs"))).
  - apply bind_Ok in H2 as (c & _ & H2). injection H2 as <-. grows_step.
  - injection H2 as <-. apply grows_refl.
Qed.

Lemma check_python_grows (t t' : tally) : check_python fs repo t = Ok t' -> grows t t'.
Proof.
  unfold check_python, _read_file. intros H.
  destruct (fs_exists fs (joinpath repo (lit "pyproject.toml"))).
  - apply bind_Ok in H as (c & _ & H). injection H as <-. grows_step.
  - injection H as <-. apply grows_refl.
Qed.

Lemma check_drift_grows (t t' : tally) :
  check_drift fs REPO_ROOT repo t = Ok t' -> grows t t'.
Proof.
  unfold check_drift, _read_file. intros H.
  destruct (fs_exists fs (joinpath repo (lit ".markdownlint.yaml"))
            && fs_exists fs (joinpath (_templates_dir REPO_ROOT) (lit "markdownlint.yaml"))).
  - apply bind_Ok in H as (c & _ & H). apply bind_Ok in H as (c' & _ & H).
    injection H as <-. grows_step.
  - injection H as <-. apply grows_refl.
Qed.

Lemma ci_steps_grow (ci_content : str) (steps : list str) (t : tally) :
  grows t
    (fold_left (fun t step =>
       if contains step ci_content
       then add_pass t (lit "PASS: CI contains '" ++ step ++ lit "' step")
       else add_finding t (lit "FAIL: CI workflow missing expected step '"
                           ++ step ++ lit "'")) steps t).
Proof.
  revert t; induction steps as [|s steps IH]; intros t; cbn [fold_left];
    [apply grows_refl|].
  eapply grows_trans; [|apply IH]. grows_step.
Qed.

Lemma check_ci_grows (repo_type : str) (t t' : tally) :
  check_ci fs repo repo_type t = Ok t' -> grows t t'.
Proof.
  unfold check_ci, _read_file. intros H.
  destruct (fs_exists fs _).
  - apply bind_Ok in H as (c & _ & H). apply bind_Ok in H as (job & _ & H).
    apply bind_Ok in H as (steps & _ & H). injection H as <-.
    eapply grows_trans; [|apply ci_steps_grow]. grows_step.
  - injection H as <-. apply grows_refl.
Qed.

(** After the first two steps the tally only grows. *)
Lemma run_checks_keeps (repo_type : str) (t : tally) :
  run_checks fs REPO_ROOT repo repo_type = Ok t ->
  exists type_files,
    subscript _TYPE_FILES repo_type = Ok type_files
    /\ grows (check_naming (name repo)
                (check_required_files fs repo (_COMMON_FILES ++ type_files)
                   {| findings := []; passes := [] |})) t.
Proof.
  unfold run_checks. intros H.
  apply bind_Ok in H as (type_files & Hfiles & H). exists type_files.
  split; [exact Hfiles|].
  set (t0 := check_naming _ _) in *. clearbody t0.
  apply bind_Ok in H as (t1 & H1 & H). apply bind_Ok in H as (t2 & H2 & H).
  apply bind_Ok in H as (t3 & H3 & H4).
  assert (G1 : grows t0 t1).
  { destruct (str_eqb repo_type (lit "rust")); [now apply check_rust_grows|].
    injection H1 as <-. apply grows_refl. }
  assert (G2 : grows t1 t2).
  { destruct (str_eqb repo_type (lit "python")); [now apply check_python_grows|].
    injection H2 as <-. apply grows_refl. }
  apply (grows_trans t0 t1 t G1). apply (grows_trans t1 t2 t G2).
  apply (grows_trans t2 t3 t); [now apply check_drift_grows|].
  now apply (check_ci_grows repo_type).
Qed.

End ComplianceLines.

(** X14: whenever the checks of a repository end, every required file,
    common or of the project type, has its own line in the tally: "PASS:
    ... exists" among the passes when the file exists, "FAIL: ... missing"
    among the findings when it does not. *)
Theorem required_file_lines (fs : filesystem) (REPO_ROOT repo : Path)
    (repo_type : str) (t : tally) (type_files : list str) (f : str) :
  run_checks fs REPO_ROOT repo repo_type = Ok t ->
  subscript _TYPE_FILES repo_type = Ok type_files ->
  In f (_COMMON_FILES ++ type_files) ->
  if fs_exists fs (joinpath repo f)
  then In (lit "PASS: " ++ f ++ lit " exists") (passes t)
  else In (lit "FAIL: " ++ f ++ lit " missing") (findings t).
Proof.
  intros Hrun Hfiles Hf.
  destruct (run_checks_keeps fs REPO_ROOT repo repo_type t Hrun)
    as (files & Hfiles' & Hgrow).
  rewrite Hfiles in Hfiles'. injection Hfiles' as <-.
  pose proof (check_required_files_lines fs repo (_COMMON_FILES ++ type_files)
                {| findings := []; passes := [] |} f Hf) as Hline.
  pose proof (check_naming_grows_from (name repo)
                (check_required_files fs repo (_COMMON_FILES ++ type_files)
                   {| findings := []; passes := [] |})) as Hname.
  destruct (fs_exists fs (joinpath repo f)).
  - apply (proj2 Hgrow). apply (proj2 Hname). exact Hline.
  - apply (proj1 Hgrow). apply (proj1 Hname). exact Hline.
Qed.

(** X15: whenever the checks of a repository end, a directory name that
    starts with [aces], with or without a hyphen after it, has the naming
    line among the passes; any other name has a WARN line, never a FAIL
    line, among the findings. *)
Theorem naming_line (fs : filesystem) (REPO_ROOT repo : Path)
    (repo_type : str) (t : tally) :
  run_checks fs REPO_ROOT repo repo_type = Ok t ->
  if startswith (lit "aces") (name repo)
  then In (lit "PASS: Repo name '" ++ name repo ++ lit "' follows naming convention")
         (passes t)
  else In (lit "WARN: Repo name '" ++ name repo ++ lit "' does not start with 'aces-'")
         (findings t).
Proof.
  intros Hrun.
  destruct (run_checks_keeps fs REPO_ROOT repo repo_type t Hrun)
    as (files & _ & Hgrow).
  unfold check_naming in Hgrow.
  destruct (startswith (lit "aces") (name repo)); cbn [negb] in Hgrow.
  - apply (proj2 Hgrow). cbn [add_pass passes]. apply in_or_app. right. now left.
  - apply (proj1 Hgrow). cbn [add_finding findings]. apply in_or_app. right. now left.
Qed.

(** ** A record name without four digits *)





(** ** Start-up *)

(** X17: [_resolve_repo_root] returns a root only when it is a directory
    in which the standards document, the architecture document and the
    decision-records entry all exist; the three are tested for existence
    only. An override that is set but empty counts as not set, and a
    non-empty override decides alone, whatever the location of the
    module: it is accepted exactly when its resolved path passes these
    tests. *)
Theorem resolve_repo_root_guard (fs : filesystem) (resolve : Path -> Path)
    (environ : option str) (__file__ : str) :
  (forall root, _resolve_repo_root fs resolve environ __file__ = Resolved root ->
     fs_is_dir fs root = true
     /\ fs_exists fs (joinpath root (lit "STANDARDS.md")) = true
     /\ fs_exists fs (joinpath root (lit "ARCHITECTURE.md")) = true
     /\ fs_exists fs (joinpath root (lit "adrs")) = true)
  /\ _resolve_repo_root fs resolve (Some []) __file__
     = _resolve_repo_root fs resolve None __file__
  /\ (forall c env,
        environ = Some (c :: env) ->
        let root := resolve (Path_of (c :: env)) in
        (_resolve_repo_root fs resolve environ __file__ = Resolved root
         <-> fs_is_dir fs root = true /\ missing_entries fs root = [])).
Proof.
  split; [|split; [reflexivity|]].
  - intros root. unfold _resolve_repo_root.
    destruct (match environ with
              | Some (c :: env) => Some (resolve (Path_of (c :: env)))
              | _ => parents (resolve (Path_of __file__)) 4
              end) as [cand|]; [|discriminate].
    destruct (fs_is_dir fs cand) eqn:Hdir; cbn [negb]; [|discriminate].
    cbn [filter _REQUIRED_GOVERNANCE_FILES].
    destruct (fs_exists fs (joinpath cand (lit "STANDARDS.md"))) eqn:H1;
      destruct (fs_exists fs (joinpath cand (lit "ARCHITECTURE.md"))) eqn:H2;
      destruct (fs_exists fs (joinpath cand (lit "adrs"))) eqn:H3;
      cbn [negb truthy]; try discriminate.
    intros [= <-]. repeat split; assumption.
  - intros c env -> root. unfold _resolve_repo_root. fold root.
    change (filter (fun f => negb (fs_exists fs (joinpath root f)))
              _REQUIRED_GOVERNANCE_FILES) with (missing_entries fs root).
    destruct (fs_is_dir fs root); cbn [negb].
    + destruct (missing_entries fs root); cbn [truthy]; split;
        try discriminate; try tauto.
      intros [_ H]. discriminate.
    + split; [discriminate|intros [H _]; discriminate].
Qed.

(** ** A report without issues *)

Section Clean.

Variable fs : filesystem.
Variable REPO_ROOT : Path.
Variable repo : Path.
Hypothesis files_readable : Forall (readable fs) (files_read REPO_ROOT repo).

Lemma read_known (p : Path) :
  In p (files_read REPO_ROOT repo) -> fs_exists fs p = true ->
  _read_file fs p = Ok (text_of fs p).
Proof.
  intros Hin Hex. apply read_text_of.
  exact (proj1 (Forall_forall _ _) files_readable p Hin Hex).
Qed.

Ltac known_file := unfold files_read; cbn [In]; tauto.

Lemma required_all_present (required : list str) (t : tally) :
  (forall f, In f required -> fs_exists fs (joinpath repo f) = true) ->
  findings (check_required_files fs repo required t) = findings t.
Proof.
  unfold check_required_files. revert t.
  induction required as [|f required IH]; intros t Hall; cbn [fold_left];
    [reflexivity|].
  rewrite (Hall f (or_introl eq_refl)). rewrite IH; [reflexivity|].
  intros g Hg. apply Hall. now right.
Qed.

Lemma check_rust_clean (t : tally) :
  contains apache_license (text_of fs (joinpath repo (lit "Cargo.toml"))) = true ->
  (fs_exists fs (joinpath (joinpath repo (lit "src")) (lit "lib.rs")) = true ->
   contains (lit "deny(missing_docs)")
     (text_of fs (joinpath (joinpath repo (lit "src")) (lit "lib.rs"))) = true) ->
  exists t', check_rust fs repo t = Ok t' /\ findings t' = findings t.
Proof.
  intros Hlic Hdocs. unfold check_rust.
  destruct (fs_exists fs (joinpath repo (lit "Cargo.toml"))) eqn:E1;
    [rewrite read_known by (try known_file; assumption); cbn [bind]; rewrite Hlic|];
    cbn [bind];
    (destruct (fs_exists fs (joinpath (joinpath repo (lit "src")) (lit "lib.rs"))) eqn:E2;
     [rewrite read_known by (try known_file; assumption); cbn [bind];
      rewrite (Hdocs eq_refl)|]);
    eexists; split; reflexivity.
Qed.

Lemma check_python_clean (t : tally) :
  contains (lit "strict = true") (text_of fs (joinpath repo (lit "pyproject.toml")))
  || contains (lit "strict=true") (text_of fs (joinpath repo (lit "pyproject.toml")))
  = true ->
  contains apache_license (text_of fs (joinpath repo (lit "pyproject.toml"))) = true ->
  exists t', check_python fs repo t = Ok t' /\ findings t' = findings t.
Proof.
  intros Hstrict Hlic. unfold check_python.
  destruct (fs_exists fs (joinpath repo (lit "pyproject.toml"))) eqn:E;
    [rewrite read_known by (try known_file; assumption); cbn [bind];
     rewrite Hstrict, Hlic|];
    eexists; split; reflexivity.
Qed.

Lemma check_drift_clean (t : tally) :
  (fs_exists fs (joinpath (_templates_dir REPO_ROOT) (lit "markdownlint.yaml")) = true ->
   text_of fs (joinpath repo (lit ".markdownlint.yaml"))
   = text_of fs (joinpath (_templates_dir REPO_ROOT) (lit "markdownlint.yaml"))) ->
  exists t', check_drift fs REPO_ROOT repo t = Ok t' /\ findings t' = findings t.
Proof.
  intros Hsame. unfold check_drift.
  destruct (fs_exists fs (joinpath repo (lit ".markdownlint.yaml"))) eqn:E1;
    cbn [andb]; [|eexists; split; reflexivity].
  destruct (fs_exists fs (joinpath (_templates_dir REPO_ROOT) (lit "markdownlint.yaml")))
    eqn:E2; [|eexists; split; reflexivity].
  rewrite !read_known by (try known_file; assumption). cbn [bind].
  rewrite (Hsame eq_refl), str_eqb_refl. eexists; split; reflexivity.
Qed.

Lemma ci_steps_clean (ci_content : str) (steps : list str) (t : tally) :
  Forall (fun step => contains step ci_content = true) steps ->
  findings
    (fold_left (fun t step =>
       if contains step ci_content
       then add_pass t (lit "PASS: CI contains '" ++ step ++ lit "' step")
       else add_finding t (lit "FAIL: CI workflow missing expected step '"
                           ++ step ++ lit "'")) steps t)
  = findings t.
Proof.
  intros H. revert t. induction H as [|s steps Hs Hsteps IH]; intros t;
    cbn [fold_left]; [reflexivity|].
  now rewrite Hs, IH.
Qed.

Lemma check_ci_clean (repo_type : str) (t : tally) :
  In repo_type repo_types ->
  (forall job steps,
     subscript _CI_EXPECTED_JOB repo_type = Ok job ->
     subscript _CI_EXPECTED_STEPS repo_type = Ok steps ->
     contains (lit "  " ++ job ++ lit ":")
       (text_of fs (joinpath (joinpath (joinpath repo (lit ".github"))
                                (lit "workflows")) (lit "ci.yaml"))) = true
     /\ Forall (fun step =>
                  contains step
                    (text_of fs (joinpath (joinpath (joinpath repo (lit ".github"))
                                             (lit "workflows")) (lit "ci.yaml")))
                  = true) steps) ->
  exists t', check_ci fs repo repo_type t = Ok t' /\ findings t' = findings t.
Proof.
  intros Hty Hci. unfold check_ci.
  destruct (fs_exists fs _) eqn:E; [|eexists; split; reflexivity].
  rewrite read_known by (try known_file; assumption). cbn [bind].
  assert (Htables : exists job steps,
             subscript _CI_EXPECTED_JOB repo_type = Ok job
             /\ subscript _CI_EXPECTED_STEPS repo_type = Ok steps).
  { destruct Hty as [<-|[<-|[<-|[]]]]; do 2 eexists; split; reflexivity. }
  destruct Htables as (job & steps & Hjob & Hsteps).
  destruct (Hci job steps Hjob Hsteps) as [Hname Hall].
  rewrite Hjob. cbn [bind]. rewrite Hname, Hsteps. cbn [bind].
  eexists. split; [reflexivity|]. now rewrite ci_steps_clean.
Qed.

Lemma run_checks_clean (repo_type : str) :
  In repo_type repo_types -> compliant fs REPO_ROOT repo repo_type ->
  exists t, run_checks fs REPO_ROOT repo repo_type = Ok t /\ findings t = [].
Proof.
  intros Hty (Hfiles & Hname & Hrust & Hpython & Hdrift & Hci). unfold run_checks.
  assert (Htf : exists files, subscript _TYPE_FILES repo_type = Ok files).
  { destruct Hty as [<-|[<-|[<-|[]]]]; eexists; reflexivity. }
  destruct Htf as [files Htf]. rewrite Htf. cbn [bind].
  set (t0 := check_naming _ _).
  assert (H0 : findings t0 = []).
  { unfold t0, check_naming. rewrite Hname. cbn [negb add_pass findings].
    rewrite required_all_present; [reflexivity|]. intros f. apply (Hfiles files f Htf). }
  clearbody t0.
  assert (H1 : exists t1, (if str_eqb repo_type (lit "rust")
                           then check_rust fs repo t0 else Ok t0) = Ok t1
                          /\ findings t1 = []).
  { destruct (str_eqb repo_type (lit "rust")) eqn:E; [|now exists t0].
    apply str_eqb_eq in E. destruct (Hrust E) as [Hlic Hdocs].
    destruct (check_rust_clean t0 Hlic Hdocs) as (t1 & Hr & Hf).
    exists t1. split; [exact Hr|congruence]. }
  destruct H1 as (t1 & -> & H1). cbn [bind].
  assert (H2 : exists t2, (if str_eqb repo_type (lit "python")
                           then check_python fs repo t1 else Ok t1) = Ok t2
                          /\ findings t2 = []).
  { destruct (str_eqb repo_type (lit "python")) eqn:E; [|now exists t1].
    apply str_eqb_eq in E. destruct (Hpython E) as [Hstrict Hlic].
    destruct (check_python_clean t1 Hstrict Hlic) as (t2 & Hr & Hf).
    exists t2. split; [exact Hr|congruence]. }
  destruct H2 as (t2 & -> & H2). cbn [bind].
  destruct (check_drift_clean t2 Hdrift) as (t3 & -> & H3). cbn [bind].
  destruct (check_ci_clean repo_type t3 Hty Hci) as (t4 & -> & H4).
  exists t4. split; [reflexivity|congruence].
Qed.

End Clean.

(** X18: a repository that meets every rule of its project type (all
    required files, a name starting with [aces], the licence and
    type-checking declarations of its manifest, a lint configuration equal
    to the template where there is one, the CI job and steps), its files
    being readable, gets a report with no finding and no "Issues" section:
    the header is followed at once by the "Passed" section. *)
Theorem compliant_report_has_no_issues (fs : filesystem) (REPO_ROOT : Path)
    (repo_path repo_type : str) :
  In repo_type repo_types ->
  fs_is_dir fs (Path_of repo_path) = true ->
  Forall (readable fs) (files_read REPO_ROOT (Path_of repo_path)) ->
  compliant fs REPO_ROOT (Path_of repo_path) repo_type ->
  exists t,
    run_checks fs REPO_ROOT (Path_of repo_path) repo_type = Ok t
    /\ findings t = []
    /\ check_repo_compliance fs REPO_ROOT repo_path repo_type
       = Ok (join nl
               ([ lit "# Compliance Report";
                  lit "Repo: " ++ name (Path_of repo_path) ++ lit " ("
                  ++ repo_type ++ lit ")";
                  [] ]
                ++ passed_section (passes t))).
Proof.
  intros Hty Hdir Hread Hok.
  destruct (run_checks_clean fs REPO_ROOT (Path_of repo_path) Hread repo_type Hty Hok)
    as (t & Hrun & Hclean).
  exists t. split; [exact Hrun|split; [exact Hclean|]].
  unfold check_repo_compliance.
  rewrite (proj2 (valid_repo_type_spec repo_type) Hty), Hdir, Hrun.
  cbn [negb bind]. unfold report_lines. rewrite Hclean. reflexivity.
Qed.

(** ** The ends of the tier table *)

Lemma tiers_at_most_5 (d : str) (t : Z) : dict_get _TIERS d = Some t -> (t <= 5)%Z.
Proof.
  unfold _TIERS. cbn [dict_get].
  repeat match goal with
         | |- context [if ?c then _ else _] => destruct c
         end;
    intros H; inversion H; lia.
Qed.

(** X19: a project of the highest tier is never reported, whatever it
    depends on: the answer is the confirmation, with every dependency that
    the table names. And two projects of one tier may depend on each
    other, and a project on itself: both checks answer with the
    confirmation, so that a cycle inside a tier is not reported. *)
Theorem dependency_direction_ends (a b : str) (t : Z) (dependencies : list str) :
  (dict_get _TIERS a = Some 5%Z ->
   check_dependency_direction a dependencies
   = lit "All ACES dependencies follow the architecture DAG." ++ nl
     ++ join nl (map (fun d => ok_line d (tier_of d)) (filter in_table dependencies)))
  /\ (dict_get _TIERS a = Some t -> dict_get _TIERS b = Some t ->
      check_dependency_direction a [b]
      = lit "All ACES dependencies follow the architecture DAG." ++ nl ++ ok_line b t
      /\ check_dependency_direction b [a]
         = lit "All ACES dependencies follow the architecture DAG." ++ nl ++ ok_line a t).
Proof.
  split.
  - intros Ha. unfold check_dependency_direction. rewrite Ha, check_dep_loop.
    cbn [fst snd app].
    assert (Hnone : filter (violates 5%Z) dependencies = []).
    { induction dependencies as [|d ds IH]; [reflexivity|]. cbn [filter].
      rewrite IH. unfold violates.
      destruct (dict_get _TIERS d) as [td|] eqn:E; [|reflexivity].
      apply tiers_at_most_5 in E.
      destruct (5 <? td)%Z eqn:L; [apply Z.ltb_lt in L; lia|reflexivity]. }
    assert (Hall : filter (conforms 5%Z) dependencies = filter in_table dependencies).
    { apply filter_ext_in. intros d _. unfold conforms, in_table.
      destruct (dict_get _TIERS d) as [td|] eqn:E; [|reflexivity].
      apply tiers_at_most_5 in E. apply Z.leb_le. exact E. }
    rewrite Hnone, Hall. reflexivity.
  - intros Ha Hb.
    assert (Hsame : forall x y, dict_get _TIERS x = Some t -> dict_get _TIERS y = Some t ->
              check_dependency_direction x [y]
              = lit "All ACES dependencies follow the architecture DAG." ++ nl
                ++ ok_line y t).
    { intros x y Hx Hy. unfold check_dependency_direction. rewrite Hx.
      cbn [fold_left]. unfold check_dep. rewrite Hy.
      rewrite Z.gtb_ltb, Z.ltb_irrefl. reflexivity. }
    split; [exact (Hsame a b Ha Hb)|exact (Hsame b a Hb Ha)].
Qed.

(** ** The empty query *)

(** X20: the empty query is found in every line. With [lower] mapping
    the empty string to itself, and the documents of the search list
    readable, [search_governance] given the empty string answers with the
    head of every document that exists and has a line: its first line, and
    the second where there is one, tagged with line 1; it gives the
    no-results text only when no such document exists. *)
Theorem search_governance_empty_query (lower : str -> str) (fs : filesystem)
    (REPO_ROOT : Path) (records : list Path) :
  lower [] = [] ->
  glob fs (_adrs_dir REPO_ROOT) (lit "[0-9]*.md") = Ok records ->
  Forall (readable fs) (search_list REPO_ROOT records) ->
  exists per_file,
    Forall2 (head_excerpt fs REPO_ROOT) (search_list REPO_ROOT records) per_file
    /\ search_governance lower fs REPO_ROOT []
       = Ok match concat per_file with
            | [] => lit "No results for ''."
            | excerpts => join (nl ++ nl) excerpts
            end.
Proof.
  intros Hlower Hglob Hread.
  destruct (search_scan_contributes lower fs REPO_ROOT []
              (search_list REPO_ROOT records) Hread
              (search_list_below fs REPO_ROOT records Hglob))
    as (per_file & Hall & Hscan).
  exists per_file. split.
  - clear Hscan Hread.
    apply (Forall2_impl (head_excerpt fs REPO_ROOT)) with (2 := Hall).
    intros p es. unfold contributes, head_excerpt.
    destruct (fs_exists fs p); [|tauto].
    intros (rel & Hrel & Hcase). exists rel. split; [exact Hrel|].
    assert (Hhit : forall line, line_hit lower [] line = true).
    { intros line. unfold line_hit. rewrite Hlower. apply contains_nil. }
    destruct Hcase as [[-> [Hm|Hno]]|(_ & i & [(line & Hnth & _) Hfirst] & ->)].
    + unfold mentions in Hm. rewrite Hlower, contains_nil in Hm. discriminate Hm.
    + destruct (splitlines (text_of fs p)) as [|l ls]; [reflexivity|].
      inversion Hno as [|? ? Hl _]; subst. rewrite Hhit in Hl. discriminate Hl.
    + destruct i as [|j].
      * destruct (splitlines (text_of fs p)) as [|l ls]; [discriminate Hnth|reflexivity].
      * exfalso. destruct (splitlines (text_of fs p)) as [|l ls]; [discriminate Hnth|].
        specialize (Hfirst 0 l (Nat.lt_0_succ j) eq_refl).
        rewrite Hhit in Hfirst. discriminate Hfirst.
  - unfold search_governance. rewrite Hglob. cbn [bind].
    change (root_documents REPO_ROOT ++ sorted path_leb records)
      with (search_list REPO_ROOT records).
    rewrite Hlower in Hscan. rewrite Hlower, Hscan. cbn [bind].
    now destruct (concat per_file).
Qed.

(* ================================================================== *)
(** * The further properties on the sample data *)
(* ================================================================== *)

Lemma parse_sections_invariants_witness :
  In (lit "A", lit "## A" ++ nl ++ lit "alpha" ++ nl ++ lit "### deep")
     (_parse_sections doc_distinct 2)
  /\ lit "A" <> []
  /\ strip (lit "A") = lit "A"
  /\ strip (lit "## A" ++ nl ++ lit "alpha" ++ nl ++ lit "### deep")
     = lit "## A" ++ nl ++ lit "alpha" ++ nl ++ lit "### deep"
  /\ startswith (lit "## ") (lit "## A" ++ nl ++ lit "alpha" ++ nl ++ lit "### deep")
     = true
  /\ title_of (lit "## A" ++ nl ++ lit "alpha" ++ nl ++ lit "### deep") = lit "A".
Proof.
  assert (H : In (lit "A", lit "## A" ++ nl ++ lit "alpha" ++ nl ++ lit "### deep")
                (_parse_sections doc_distinct 2))
    by (vm_compute; left; reflexivity).
  split; [exact H|].
  exact (proj2 (parse_sections_invariants doc_distinct) _ _ H).
Defined.

Lemma parse_sections_empty_iff_witness :
  _parse_sections doc_blank_twice 2 = []
  /\ forall line g, In line (splitlines doc_blank_twice) ->
                    re_match_heading 2 line = Some g -> strip g = [].
Proof.
  assert (H : _parse_sections doc_blank_twice 2 = []) by (vm_compute; reflexivity).
  split; [exact H|].
  exact (proj1 (parse_sections_empty_iff doc_blank_twice) H).
Defined.

Lemma get_standard_number_answer_witness :
  fs_read_text gov_fs (joinpath gov_root (lit "STANDARDS.md")) = Ok standards_md
  /\ exists title body,
       get_standard ascii_lower is_ascii_digit gov_fs gov_root (lit " 15 ") = Ok body
       /\ In (title, body) (_parse_sections standards_md 2)
       /\ re_match_number is_ascii_digit title = Some (strip (lit " 15 "))
       /\ startswith (lit "## ") body = true
       /\ title_of body = title.
Proof.
  assert (Hread : fs_read_text gov_fs (joinpath gov_root (lit "STANDARDS.md"))
                  = Ok standards_md) by (vm_compute; reflexivity).
  split; [exact Hread|].
  apply (get_standard_number_answer ascii_lower is_ascii_digit gov_fs gov_root
           (lit " 15 ") standards_md Hread).
  exists (lit "15. Formal Methods",
          lit "## 15. Formal Methods" ++ nl ++ lit "Governed by ADR-0019.").
  split; [vm_compute; right; left; reflexivity|vm_compute; reflexivity].
Defined.

Lemma lookups_with_empty_keyword_witness :
  ascii_lower [] = []
  /\ get_architecture ascii_lower full_fs gov_root []
     = Ok (lit "Multiple sections match:" ++ nl
           ++ lit "- Tiers" ++ nl ++ lit "- Principles")
  /\ get_standard ascii_lower is_ascii_digit full_fs gov_root []
     = Ok (lit "Multiple sections match:" ++ nl
           ++ lit "- 1. Naming" ++ nl ++ lit "- 15. Formal Methods"
           ++ nl ++ nl ++ lit "Refine your query or use a section number.").
Proof.
  destruct (lookups_with_empty_keyword ascii_lower is_ascii_digit full_fs gov_root
              eq_refl) as [Harch Hstd].
  split; [reflexivity|split].
  - etransitivity; [apply Harch; vm_compute; reflexivity|vm_compute; reflexivity].
  - etransitivity; [apply Hstd; vm_compute; reflexivity|vm_compute; reflexivity].
Defined.

Lemma get_adr_pads_number_witness :
  strip (lit " 1 ") = lit "1"
  /\ ascii_digits (lit "1")
  /\ length (lit "1") <= 4
  /\ glob gov_fs (_adrs_dir gov_root)
       (repeat 48%N (4 - length (lit "1")) ++ lit "1" ++ lit "-*.md")
     = Ok [joinpath gov_root (lit "adrs/0001-rust-core.md")]
  /\ get_adr ascii_lower gov_fs gov_root (lit " 1 ")
     = fs_read_text gov_fs (joinpath gov_root (lit "adrs/0001-rust-core.md")).
Proof.
  assert (Hstrip : strip (lit " 1 ") = lit "1") by (vm_compute; reflexivity).
  assert (Hdigits : ascii_digits (lit "1")) by (repeat constructor).
  assert (Hlen : length (lit "1") <= 4) by (cbn; lia).
  assert (Hglob : glob gov_fs (_adrs_dir gov_root)
                    (repeat 48%N (4 - length (lit "1")) ++ lit "1" ++ lit "-*.md")
                  = Ok [joinpath gov_root (lit "adrs/0001-rust-core.md")])
    by (vm_compute; reflexivity).
  repeat (split; [assumption|]).
  apply (get_adr_pads_number ascii_lower gov_fs gov_root (lit " 1 ") (lit "1")
           (joinpath gov_root (lit "adrs/0001-rust-core.md")) [] Hstrip Hdigits).
  - discriminate.
  - exact Hlen.
  - exact Hglob.
Defined.

Lemma ascii_lower_keeps_line_feeds (s : str) : In 10%N (ascii_lower s) <-> In 10%N s.
Proof.
  unfold ascii_lower. induction s as [|c s IH]; cbn [map In]; [tauto|].
  rewrite IH. unfold ascii_lower_char.
  destruct ((65 <=? c)%N && (c <=? 90)%N) eqn:E; [|tauto].
  apply andb_true_iff in E. destruct E as [E1 E2].
  apply N.leb_le in E1. apply N.leb_le in E2.
  split; (intros [H|H]; [lia|now right]).
Defined.

Lemma search_governance_multiline_query_witness :
  In 10%N (lit "Methods" ++ nl ++ lit "Governed")
  /\ contains (lit "Methods" ++ nl ++ lit "Governed") standards_md = true
  /\ search_governance ascii_lower gov_fs gov_root (lit "Methods" ++ nl ++ lit "Governed")
     = Ok (lit "No results for '" ++ (lit "Methods" ++ nl ++ lit "Governed") ++ lit "'.").
Proof.
  assert (Hlf : In 10%N (lit "Methods" ++ nl ++ lit "Governed"))
    by (vm_compute; tauto).
  split; [exact Hlf|split; [vm_compute; reflexivity|]].
  exact (search_governance_multiline_query ascii_lower gov_fs gov_root
           (lit "Methods" ++ nl ++ lit "Governed") gov_records
           ascii_lower_keeps_line_feeds Hlf gov_records_scan gov_search_list_readable).
Defined.

Lemma status_follows_heading_witness :
  re_search_status ascii_isword adr_accepted = Some (lit "Accepted")
  /\ exists before w rest,
       adr_accepted = before ++ lit "## Status" ++ w ++ lit "Accepted" ++ rest
       /\ (before = [] \/ exists b, before = b ++ [10%N])
       /\ Forall (fun c => isspace c = true) w /\ In 10%N w
       /\ lit "Accepted" <> [] /\ Forall (fun c => ascii_isword c = true) (lit "Accepted")
       /\ forall c rest', rest = c :: rest' -> ascii_isword c = false.
Proof.
  assert (H : re_search_status ascii_isword adr_accepted = Some (lit "Accepted"))
    by (vm_compute; reflexivity).
  split; [exact H|].
  exact (status_follows_heading ascii_isword adr_accepted (lit "Accepted") H).
Defined.

Lemma full_records_scan :
  glob full_fs (_adrs_dir gov_root) (lit "[0-9]*.md") = Ok full_records.
Proof. vm_compute. reflexivity. Defined.

Lemma full_records_readable : Forall (can_read full_fs) full_records.
Proof. repeat constructor; eexists; vm_compute; reflexivity. Defined.

Lemma list_adrs_lines_per_record_witness :
  glob full_fs (_adrs_dir gov_root) (lit "[0-9]*.md") = Ok full_records
  /\ Forall (can_read full_fs) full_records
  /\ list_adrs ascii_isword full_fs gov_root
     = Ok (join nl (map (record_line ascii_isword full_fs) (sorted path_leb full_records)))
  /\ (list_adrs ascii_isword full_fs gov_root = Ok (lit "No ADRs found.")
      <-> full_records = []).
Proof.
  split; [exact full_records_scan|split; [exact full_records_readable|]].
  exact (list_adrs_lines_per_record ascii_isword full_fs gov_root full_records
           full_records_scan full_records_readable).
Defined.

Lemma full_templates_scan :
  glob full_fs (_templates_dir gov_root) (lit "**/*") = Ok full_templates.
Proof. vm_compute. reflexivity. Defined.

Lemma get_template_list_witness :
  ascii_lower (lit "LIST") = lit "list"
  /\ glob full_fs (_templates_dir gov_root) (lit "**/*") = Ok full_templates
  /\ get_template ascii_lower full_fs (mem_is_file full_files) gov_root (lit "LIST")
     = Ok (lit "Available templates:" ++ nl
           ++ join nl (map (template_line (_templates_dir gov_root))
                         (filter (mem_is_file full_files)
                            (sorted path_leb full_templates)))).
Proof.
  assert (Hlist : ascii_lower (lit "LIST") = lit "list") by (vm_compute; reflexivity).
  split; [exact Hlist|split; [exact full_templates_scan|]].
  exact (get_template_list ascii_lower full_fs (mem_is_file full_files) gov_root
           (lit "LIST") full_templates Hlist full_templates_scan).
Defined.

Lemma get_template_direct_witness :
  ascii_lower (lit "/etc/hostname") <> lit "list"
  /\ fs_exists full_fs (joinpath (_templates_dir gov_root) (lit "/etc/hostname")) = true
  /\ mem_is_file full_files (joinpath (_templates_dir gov_root) (lit "/etc/hostname"))
     = true
  /\ get_template ascii_lower full_fs (mem_is_file full_files) gov_root
       (lit "/etc/hostname")
     = fs_read_text full_fs (joinpath (_templates_dir gov_root) (lit "/etc/hostname"))
  /\ (startswith (lit "/") (lit "/etc/hostname") = true ->
      joinpath (_templates_dir gov_root) (lit "/etc/hostname")
      = Path_of (lit "/etc/hostname")).
Proof.
  assert (Hne : ascii_lower (lit "/etc/hostname") <> lit "list")
    by (vm_compute; discriminate).
  assert (Hex : fs_exists full_fs
                  (joinpath (_templates_dir gov_root) (lit "/etc/hostname")) = true)
    by (vm_compute; reflexivity).
  assert (Hfile : mem_is_file full_files
                    (joinpath (_templates_dir gov_root) (lit "/etc/hostname")) = true)
    by (vm_compute; reflexivity).
  split; [exact Hne|split; [exact Hex|split; [exact Hfile|]]].
  exact (get_template_direct ascii_lower full_fs (mem_is_file full_files) gov_root
           (lit "/etc/hostname") Hne Hex Hfile).
Defined.


Lemma lesson_needs_two_terms_witness :
  fs_exists demo_fs (joinpath gov_root (lit "STANDARDS.md")) = false
  /\ check_standards_update_needed ascii_lower demo_fs gov_root (lit "Repos start with aces")
     = Ok (lit "Cannot check: STANDARDS.md not found.")
  /\ fs_read_text full_fs (joinpath gov_root (lit "STANDARDS.md")) = Ok standards_md
  /\ length (key_terms ascii_lower (lit "Aces to the ACES")) < 2
  /\ contains (lit "aces") (ascii_lower standards_md) = true
  /\ check_standards_update_needed ascii_lower full_fs gov_root (lit "Aces to the ACES")
     = Ok (lit "This lesson is not covered by current standards. "
           ++ lit "Consider promoting it to a formal standard in STANDARDS.md "
           ++ lit "or proposing an ADR if it involves an architectural decision.").
Proof.
  assert (Hno : fs_exists demo_fs (joinpath gov_root (lit "STANDARDS.md")) = false)
    by (vm_compute; reflexivity).
  assert (Hex : fs_exists full_fs (joinpath gov_root (lit "STANDARDS.md")) = true)
    by (vm_compute; reflexivity).
  assert (Hread : fs_read_text full_fs (joinpath gov_root (lit "STANDARDS.md"))
                  = Ok standards_md) by (vm_compute; reflexivity).
  assert (Hfew : length (key_terms ascii_lower (lit "Aces to the ACES")) < 2)
    by (vm_compute; lia).
  split; [exact Hno|split].
  - exact (proj1 (lesson_needs_two_terms ascii_lower demo_fs gov_root
                    (lit "Repos start with aces")) Hno).
  - split; [exact Hread|split; [exact Hfew|split; [vm_compute; reflexivity|]]].
    exact (proj2 (lesson_needs_two_terms ascii_lower full_fs gov_root
                    (lit "Aces to the ACES")) standards_md Hex Hread Hfew).
Defined.

Lemma lesson_covered_sections_witness :
  fs_exists full_fs (joinpath gov_root (lit "STANDARDS.md")) = true
  /\ fs_read_text full_fs (joinpath gov_root (lit "STANDARDS.md")) = Ok standards_md
  /\ exists titles,
       (forall title,
          In title titles
          <-> exists body,
                In (title, body) (_parse_sections standards_md 2)
                /\ covers ascii_lower
                     (key_terms ascii_lower (lit "Repos must start with ACES")) body)
       /\ check_standards_update_needed ascii_lower full_fs gov_root
            (lit "Repos must start with ACES")
          = Ok match titles with
               | [] => lit "This lesson is not covered by current standards. "
                       ++ lit "Consider promoting it to a formal standard in STANDARDS.md "
                       ++ lit "or proposing an ADR if it involves an architectural decision."
               | _ => lit "This lesson appears to be already covered in:" ++ nl
                      ++ join nl (map (fun s => lit "- " ++ s) titles) ++ nl ++ nl
                      ++ lit "Review these sections to confirm coverage is adequate."
               end.
Proof.
  assert (Hex : fs_exists full_fs (joinpath gov_root (lit "STANDARDS.md")) = true)
    by (vm_compute; reflexivity).
  assert (Hread : fs_read_text full_fs (joinpath gov_root (lit "STANDARDS.md"))
                  = Ok standards_md) by (vm_compute; reflexivity).
  split; [exact Hex|split; [exact Hread|]].
  exact (lesson_covered_sections ascii_lower full_fs gov_root
           (lit "Repos must start with ACES") standards_md Hex Hread).
Defined.

Example lesson_covered_run :
  check_standards_update_needed ascii_lower full_fs gov_root
    (lit "Repos must start with ACES")
  = Ok (lit "This lesson appears to be already covered in:" ++ nl
        ++ lit "- 1. Naming" ++ nl ++ nl
        ++ lit "Review these sections to confirm coverage is adequate.").
Proof. vm_compute. reflexivity. Qed.

Lemma demo_checks_end :
  exists t, run_checks demo_fs gov_root (Path_of (lit "/work/aces-demo"))
              (lit "governance") = Ok t.
Proof. eexists. vm_compute. reflexivity. Defined.

Lemma required_file_lines_witness :
  exists t,
    run_checks demo_fs gov_root (Path_of (lit "/work/aces-demo")) (lit "governance")
    = Ok t
    /\ In (lit "PASS: " ++ lit "LICENSE" ++ lit " exists") (passes t)
    /\ In (lit "FAIL: " ++ lit ".github/ISSUE_TEMPLATE/rfc-proposal.md" ++ lit " missing")
         (findings t).
Proof.
  destruct demo_checks_end as [t Hrun]. exists t. split; [exact Hrun|].
  assert (Htable : subscript _TYPE_FILES (lit "governance")
                   = Ok [ lit ".github/ISSUE_TEMPLATE/adr-proposal.md";
                          lit ".github/ISSUE_TEMPLATE/rfc-proposal.md" ])
    by reflexivity.
  split.
  - assert (Hin : In (lit "LICENSE")
                    (_COMMON_FILES ++ [ lit ".github/ISSUE_TEMPLATE/adr-proposal.md";
                                        lit ".github/ISSUE_TEMPLATE/rfc-proposal.md" ]))
      by (left; reflexivity).
    pose proof (required_file_lines demo_fs gov_root (Path_of (lit "/work/aces-demo"))
                  (lit "governance") t _ (lit "LICENSE") Hrun Htable Hin) as Hline.
    assert (E : fs_exists demo_fs (joinpath (Path_of (lit "/work/aces-demo"))
                                     (lit "LICENSE")) = true)
      by (vm_compute; reflexivity).
    rewrite E in Hline. exact Hline.
  - assert (Hin : In (lit ".github/ISSUE_TEMPLATE/rfc-proposal.md")
                    (_COMMON_FILES ++ [ lit ".github/ISSUE_TEMPLATE/adr-proposal.md";
                                        lit ".github/ISSUE_TEMPLATE/rfc-proposal.md" ]))
      by (apply in_or_app; right; right; left; reflexivity).
    pose proof (required_file_lines demo_fs gov_root (Path_of (lit "/work/aces-demo"))
                  (lit "governance") t _ (lit ".github/ISSUE_TEMPLATE/rfc-proposal.md")
                  Hrun Htable Hin) as Hline.
    assert (E : fs_exists demo_fs
                  (joinpath (Path_of (lit "/work/aces-demo"))
                     (lit ".github/ISSUE_TEMPLATE/rfc-proposal.md")) = false)
      by (vm_compute; reflexivity).
    rewrite E in Hline. exact Hline.
Defined.

Lemma naming_line_witness :
  exists t,
    run_checks demo_fs gov_root (Path_of (lit "/work/aces-demo")) (lit "governance")
    = Ok t
    /\ In (lit "PASS: Repo name '" ++ name (Path_of (lit "/work/aces-demo"))
           ++ lit "' follows naming convention") (passes t).
Proof.
  destruct demo_checks_end as [t Hrun]. exists t. split; [exact Hrun|].
  pose proof (naming_line demo_fs gov_root (Path_of (lit "/work/aces-demo"))
                (lit "governance") t Hrun) as Hline.
  assert (E : startswith (lit "aces") (name (Path_of (lit "/work/aces-demo"))) = true)
    by (vm_compute; reflexivity).
  rewrite E in Hline. exact Hline.
Defined.


Lemma resolve_repo_root_guard_witness :
  fs_is_dir gov_fs gov_root = true
  /\ missing_entries gov_fs gov_root = []
  /\ _resolve_repo_root gov_fs (fun p => p) (Some (lit "/srv/aces"))
       (lit "/opt/elsewhere/src/pkg/server.py")
     = Resolved gov_root
  /\ fs_exists gov_fs (joinpath gov_root (lit "STANDARDS.md")) = true
  /\ fs_exists gov_fs (joinpath gov_root (lit "ARCHITECTURE.md")) = true
  /\ fs_exists gov_fs (joinpath gov_root (lit "adrs")) = true.
Proof.
  assert (Hdir : fs_is_dir gov_fs gov_root = true) by (vm_compute; reflexivity).
  assert (Hall : missing_entries gov_fs gov_root = []) by (vm_compute; reflexivity).
  destruct (resolve_repo_root_guard gov_fs (fun p => p) (Some (lit "/srv/aces"))
              (lit "/opt/elsewhere/src/pkg/server.py")) as (Hsound & _ & Hoverride).
  assert (Hroot : _resolve_repo_root gov_fs (fun p => p) (Some (lit "/srv/aces"))
                    (lit "/opt/elsewhere/src/pkg/server.py") = Resolved gov_root)
    by (exact (proj2 (Hoverride _ _ eq_refl) (conj Hdir Hall))).
  split; [exact Hdir|split; [exact Hall|split; [exact Hroot|]]].
  exact (proj2 (Hsound gov_root Hroot)).
Defined.

Lemma clean_files_readable : Forall (readable clean_fs) (files_read gov_root clean_repo).
Proof.
  repeat constructor; intros Hex; vm_compute in Hex; try discriminate Hex;
    eexists; vm_compute; reflexivity.
Defined.

Lemma clean_repo_compliant : compliant clean_fs gov_root clean_repo (lit "governance").
Proof.
  unfold compliant. split; [|split; [|split; [|split; [|split]]]].
  - intros type_files f Htable Hin. vm_compute in Htable.
    injection Htable as <-. vm_compute in Hin.
    repeat (destruct Hin as [<-|Hin]; [vm_compute; reflexivity|]). destruct Hin.
  - vm_compute. reflexivity.
  - intros H. vm_compute in H. discriminate H.
  - intros H. vm_compute in H. discriminate H.
  - intros _. vm_compute. reflexivity.
  - intros job steps Hjob Hsteps. vm_compute in Hjob. injection Hjob as <-.
    vm_compute in Hsteps. injection Hsteps as <-.
    split; [vm_compute; reflexivity|repeat constructor].
Defined.

Lemma compliant_report_has_no_issues_witness :
  In (lit "governance") repo_types
  /\ fs_is_dir clean_fs (Path_of (lit "/work/aces-docs")) = true
  /\ compliant clean_fs gov_root (Path_of (lit "/work/aces-docs")) (lit "governance")
  /\ exists t,
       run_checks clean_fs gov_root (Path_of (lit "/work/aces-docs")) (lit "governance")
       = Ok t
       /\ findings t = []
       /\ check_repo_compliance clean_fs gov_root (lit "/work/aces-docs")
            (lit "governance")
          = Ok (join nl
                  ([ lit "# Compliance Report";
                     lit "Repo: " ++ name (Path_of (lit "/work/aces-docs")) ++ lit " ("
                     ++ lit "governance" ++ lit ")";
                     [] ]
                   ++ passed_section (passes t))).
Proof.
  split; [exact in_repo_types_governance|split; [reflexivity|]].
  split; [exact clean_repo_compliant|].
  exact (compliant_report_has_no_issues clean_fs gov_root (lit "/work/aces-docs")
           (lit "governance") in_repo_types_governance eq_refl clean_files_readable
           clean_repo_compliant).
Defined.

Lemma dependency_direction_ends_witness :
  dict_get _TIERS (lit "aces-cli") = Some 5%Z
  /\ dict_get _TIERS (lit "aces-stdlib") = Some 5%Z
  /\ check_dependency_direction (lit "aces-cli")
       [lit "aces"; lit "requests"; lit "aces-runtime"]
     = lit "All ACES dependencies follow the architecture DAG." ++ nl
       ++ join nl (map (fun d => ok_line d (tier_of d))
                     (filter in_table [lit "aces"; lit "requests"; lit "aces-runtime"]))
  /\ check_dependency_direction (lit "aces-cli") [lit "aces-stdlib"]
     = lit "All ACES dependencies follow the architecture DAG." ++ nl
       ++ ok_line (lit "aces-stdlib") 5%Z
  /\ check_dependency_direction (lit "aces-stdlib") [lit "aces-cli"]
     = lit "All ACES dependencies follow the architecture DAG." ++ nl
       ++ ok_line (lit "aces-cli") 5%Z.
Proof.
  assert (Ha : dict_get _TIERS (lit "aces-cli") = Some 5%Z) by reflexivity.
  assert (Hb : dict_get _TIERS (lit "aces-stdlib") = Some 5%Z) by reflexivity.
  destruct (dependency_direction_ends (lit "aces-cli") (lit "aces-stdlib") 5%Z
              [lit "aces"; lit "requests"; lit "aces-runtime"]) as [Htop Hsame].
  split; [exact Ha|split; [exact Hb|split; [exact (Htop Ha)|exact (Hsame Ha Hb)]]].
Defined.

Lemma search_governance_empty_query_witness :
  ascii_lower [] = []
  /\ glob gov_fs (_adrs_dir gov_root) (lit "[0-9]*.md") = Ok gov_records
  /\ exists per_file,
       Forall2 (head_excerpt gov_fs gov_root) (search_list gov_root gov_records) per_file
       /\ search_governance ascii_lower gov_fs gov_root []
          = Ok match concat per_file with
               | [] => lit "No results for ''."
               | excerpts => join (nl ++ nl) excerpts
               end.
Proof.
  split; [reflexivity|split; [exact gov_records_scan|]].
  exact (search_governance_empty_query ascii_lower gov_fs gov_root gov_records
           eq_refl gov_records_scan gov_search_list_readable).
Defined.

Example empty_query_run :
  search_governance ascii_lower gov_fs gov_root []
  = Ok (join (nl ++ nl)
          [ lit "**STANDARDS.md** (line 1):" ++ nl ++ lit "```" ++ nl
            ++ lit "# Standards" ++ nl ++ nl ++ lit "```";
            lit "**ARCHITECTURE.md** (line 1):" ++ nl ++ lit "```" ++ nl
            ++ lit "# Architecture" ++ nl ++ lit "## Tiers" ++ nl ++ lit "```";
            lit "**adrs/0001-rust-core.md** (line 1):" ++ nl ++ lit "```" ++ nl
            ++ lit "# ADR-0001: Rust Core" ++ nl ++ lit "The core is written in Rust."
            ++ nl ++ lit "```";
            lit "**adrs/0019-formal-methods.md** (line 1):" ++ nl ++ lit "```" ++ nl
            ++ lit "# ADR-0019: Formal Methods" ++ nl
            ++ lit "Critical parts are specified in TLA+." ++ nl ++ lit "```" ]).
Proof. vm_compute. reflexivity. Qed.
